(** * umm_malloc: a shallow embedding of the heap bookkeeping engine

    The C source keeps one global array [umm_heap] of 8-byte blocks.  Every
    block is four unsigned 16-bit words:

      word 0  header.used.next   (UMM_NBLOCK, bit 15 = free flag)
      word 1  header.used.prev   (UMM_PBLOCK)
      word 2  body.free.next     (UMM_NFREE, or payload bytes 0-1)
      word 3  body.free.prev     (UMM_PFREE, or payload bytes 2-3)

    The heap is modelled as the flat list of these words, block [b] owning
    words [4b .. 4b+3].  Pointers are byte offsets from [&umm_heap[0]];
    NULL is [None].  The integer types of the source are written out:
    a value assigned to an [unsigned short] is reduced modulo 2^16, and
    expressions the C compiler evaluates in [int] are left exact. *)

From Stdlib Require Import ZArith List Lia Bool.
Import ListNotations.
Open Scope Z_scope.

(** ** The word array *)

Definition heap := list Z.

Fixpoint upd (l : list Z) (n : nat) (v : Z) : list Z :=
  match l, n with
  | [], _ => []
  | _ :: l', O => v :: l'
  | x :: l', S n' => x :: upd l' n' v
  end.

(** An access outside the array is undefined in C; the model reads 0 there
    and drops the write. *)
Definition rd (h : heap) (i : Z) : Z :=
  if i <? 0 then 0 else nth (Z.to_nat i) h 0.

Definition wr (h : heap) (i : Z) (v : Z) : heap :=
  if i <? 0 then h else upd h (Z.to_nat i) v.

Definition words (h : heap) : Z := Z.of_nat (length h).

Definition zero_heap (n : nat) : heap := repeat 0 (4 * n).

(** ** Integer conventions of the source *)

Definition u16 (x : Z) : Z := x mod 65536.

(** [size_t] on the reference 32-bit target. *)
Definition SIZE_MAX : Z := 4294967295.
Definition usize (x : Z) : Z := x mod 4294967296.

Definition UMM_FREELIST_MASK : Z := 32768.   (* 0x8000 *)
Definition UMM_BLOCKNO_MASK : Z := 32767.    (* 0x7FFF *)

(** sizeof(umm_block), sizeof(header), sizeof(body) *)
Definition BLOCK_BYTES : Z := 8.
Definition HEADER_BYTES : Z := 4.
Definition BODY_BYTES : Z := 4.

(** [umm_numblocks] is a [const unsigned short]. *)
Definition UMM_NUMBLOCKS (h : heap) : Z := u16 (words h / 4).

(** ** Link accessors (the UMM_NBLOCK .. UMM_PFREE macros) *)

Definition UMM_NBLOCK (h : heap) (b : Z) : Z := rd h (4 * b).
Definition UMM_PBLOCK (h : heap) (b : Z) : Z := rd h (4 * b + 1).
Definition UMM_NFREE (h : heap) (b : Z) : Z := rd h (4 * b + 2).
Definition UMM_PFREE (h : heap) (b : Z) : Z := rd h (4 * b + 3).

Definition set_NBLOCK (h : heap) (b v : Z) : heap := wr h (4 * b) (u16 v).
Definition set_PBLOCK (h : heap) (b v : Z) : heap := wr h (4 * b + 1) (u16 v).
Definition set_NFREE (h : heap) (b v : Z) : heap := wr h (4 * b + 2) (u16 v).
Definition set_PFREE (h : heap) (b v : Z) : heap := wr h (4 * b + 3) (u16 v).

(** Byte offset of [&UMM_BLOCK(b)] and of [&UMM_DATA(b)]. *)
Definition block_addr (b : Z) : Z := BLOCK_BYTES * b.
Definition data_addr (b : Z) : Z := BLOCK_BYTES * b + HEADER_BYTES.

(** The block index of a pointer: its byte offset from the heap base divided
    by sizeof(umm_block), stored in an [unsigned short]. *)
Definition block_of_ptr (p : Z) : Z := u16 (p / BLOCK_BYTES).

(** ** umm_blocks *)

Definition umm_blocks (size : Z) : Z :=
  if size <=? BODY_BYTES then 1
  else
    let size' := usize (size - (1 + BODY_BYTES)) in
    u16 (usize (2 + size' / BLOCK_BYTES)).

(** ** Structural primitives *)

Definition umm_make_new_block (h : heap) (c blocks freemask : Z) : heap :=
  let h1 := set_NBLOCK h (c + blocks) (Z.land (UMM_NBLOCK h c) UMM_BLOCKNO_MASK) in
  let h2 := set_PBLOCK h1 (c + blocks) c in
  let h3 := set_PBLOCK h2 (Z.land (UMM_NBLOCK h2 c) UMM_BLOCKNO_MASK) (c + blocks) in
  set_NBLOCK h3 c (Z.lor (c + blocks) freemask).

Definition umm_disconnect_from_free_list (h : heap) (c : Z) : heap :=
  let h1 := set_NFREE h (UMM_PFREE h c) (UMM_NFREE h c) in
  let h2 := set_PFREE h1 (UMM_NFREE h1 c) (UMM_PFREE h1 c) in
  set_NBLOCK h2 c (Z.land (UMM_NBLOCK h2 c) (Z.lnot UMM_FREELIST_MASK)).

Definition umm_assimilate_up (h : heap) (c : Z) : heap :=
  if Z.land (UMM_NBLOCK h (UMM_NBLOCK h c)) UMM_FREELIST_MASK =? 0 then h
  else
    let h1 := umm_disconnect_from_free_list h (UMM_NBLOCK h c) in
    let h2 := set_PBLOCK h1
                (Z.land (UMM_NBLOCK h1 (UMM_NBLOCK h1 c)) UMM_BLOCKNO_MASK) c in
    set_NBLOCK h2 c (Z.land (UMM_NBLOCK h2 (UMM_NBLOCK h2 c)) UMM_BLOCKNO_MASK).

Definition umm_assimilate_down (h : heap) (c freemask : Z) : heap * Z :=
  let h1 := set_NBLOCK h (UMM_PBLOCK h c) (Z.lor (UMM_NBLOCK h c) freemask) in
  let h2 := set_PBLOCK h1 (UMM_NBLOCK h1 c) (UMM_PBLOCK h1 c) in
  (h2, UMM_PBLOCK h2 c).

(** ** umm_free *)

Definition free_block (h : heap) (c0 : Z) : heap :=
  let h1 := umm_assimilate_up h c0 in
  if Z.land (UMM_NBLOCK h1 (UMM_PBLOCK h1 c0)) UMM_FREELIST_MASK =? 0 then
    let h2 := set_PFREE h1 (UMM_NFREE h1 0) c0 in
    let h3 := set_NFREE h2 c0 (UMM_NFREE h2 0) in
    let h4 := set_PFREE h3 c0 0 in
    let h5 := set_NFREE h4 0 c0 in
    set_NBLOCK h5 c0 (Z.lor (UMM_NBLOCK h5 c0) UMM_FREELIST_MASK)
  else fst (umm_assimilate_down h1 c0 UMM_FREELIST_MASK).

Definition umm_free (h : heap) (ptr : option Z) : heap :=
  match ptr with
  | None => h
  | Some p => free_block h (block_of_ptr p)
  end.

(** ** umm_malloc *)

(** Local variables of the search loop. *)
Record scan := mkScan
  { s_cf : Z; s_bestBlock : Z; s_bestSize : Z; s_blockSize : Z }.

(** The best-fit loop [while( UMM_NFREE(cf) ) { ... }].  The loop only
    reads the heap, so it either stops or revisits a block and runs
    forever; [None] stands for the second case. *)
Fixpoint scan_loop (fuel : nat) (h : heap) (blocks : Z) (s : scan) : option scan :=
  match fuel with
  | O => None
  | S fuel' =>
      if UMM_NFREE h (s_cf s) =? 0 then Some s
      else
        let blockSize := u16 (Z.land (UMM_NBLOCK h (s_cf s)) UMM_BLOCKNO_MASK - s_cf s) in
        let '(bestBlock, bestSize) :=
          if (blocks <=? blockSize) && (blockSize <? s_bestSize s)
          then (s_cf s, blockSize)
          else (s_bestBlock s, s_bestSize s) in
        scan_loop fuel' h blocks
          (mkScan (UMM_NFREE h (s_cf s)) bestBlock bestSize blockSize)
  end.

(** memcpy of one whole block. *)
Definition copy_block (h : heap) (dst src : Z) : heap :=
  let w0 := rd h (4 * src) in
  let w1 := rd h (4 * src + 1) in
  let w2 := rd h (4 * src + 2) in
  let w3 := rd h (4 * src + 3) in
  wr (wr (wr (wr h (4 * dst) w0) (4 * dst + 1) w1) (4 * dst + 2) w2) (4 * dst + 3) w3.

(** Everything after the scan, with [cf] and [blockSize] already chosen. *)
Definition malloc_place (h : heap) (blocks cf blockSize : Z) : heap * option Z :=
  if negb (Z.land (UMM_NBLOCK h cf) UMM_BLOCKNO_MASK =? 0) then
    if blockSize =? blocks then
      (umm_disconnect_from_free_list h cf, Some (data_addr cf))
    else
      let h1 := umm_make_new_block h cf (u16 (blockSize - blocks)) UMM_FREELIST_MASK in
      let cf' := u16 (cf + (blockSize - blocks)) in
      (h1, Some (data_addr cf'))
  else
    if UMM_NUMBLOCKS h <=? cf + blocks + 1 then (h, None)
    else
      let '(h0, cf0) :=
        if cf =? 0 then (set_NFREE (set_NBLOCK h 0 1) 0 1, 1) else (h, cf) in
      let h1 := set_NFREE h0 (UMM_PFREE h0 cf0) (cf0 + blocks) in
      let h2 := copy_block h1 (cf0 + blocks) cf0 in
      let h3 := set_NBLOCK h2 cf0 (cf0 + blocks) in
      let h4 := set_PBLOCK h3 (cf0 + blocks) cf0 in
      (h4, Some (data_addr cf0)).

Definition scan_init (h : heap) : scan :=
  mkScan (UMM_NFREE h 0) (UMM_NFREE h 0) 32767 0.

Definition scan_pick (s : scan) : Z * Z :=
  if negb (s_bestSize s =? 32767) then (s_bestBlock s, s_bestSize s)
  else (s_cf s, s_blockSize s).

Definition umm_malloc (h : heap) (size : Z) : option (heap * option Z) :=
  if size =? 0 then Some (h, None)
  else
    let blocks := umm_blocks size in
    match scan_loop (S (length h)) h blocks (scan_init h) with
    | None => None
    | Some s =>
        let '(cf, blockSize) := scan_pick s in
        Some (malloc_place h blocks cf blockSize)
    end.

(** ** umm_realloc *)

Fixpoint read_words (h : heap) (src : Z) (n : nat) : list Z :=
  match n with
  | O => []
  | S n' => rd h src :: read_words h (src + 1) n'
  end.

Fixpoint write_words (h : heap) (dst : Z) (ws : list Z) : heap :=
  match ws with
  | [] => h
  | w :: ws' => write_words (wr h dst w) (dst + 1) ws'
  end.

(** memmove / memcpy of [nbytes] bytes between two payload addresses.  Both
    addresses are word aligned and every count the source passes is a
    multiple of four, so the copy moves whole 16-bit words; the source range
    is read in full before anything is written (memmove semantics). *)
Definition move_bytes (h : heap) (dst src nbytes : Z) : heap :=
  write_words h (dst / 2) (read_words h (src / 2) (Z.to_nat (nbytes / 2))).

(** The three cases once the block has been grown in place as far as it
    goes: it fits exactly, it is too large and its tail is released, or it
    is too small and the data moves to a fresh block. *)
Definition realloc_finish (h2 : heap) (c2 p2 blocks size curSize : Z)
  : option (heap * option Z) :=
  let blockSize2 := u16 (UMM_NBLOCK h2 c2 - c2) in
  if blockSize2 =? blocks then Some (h2, Some p2)
  else if blocks <? blockSize2 then
    let h3 := umm_make_new_block h2 c2 blocks 0 in
    Some (umm_free h3 (Some (data_addr (c2 + blocks))), Some p2)
  else
    match umm_malloc h2 size with
    | None => None
    | Some (h3, None) => Some (h3, None)
    | Some (h3, Some q) =>
        let h4 := move_bytes h3 q p2 curSize in
        Some (umm_free h4 (Some p2), Some q)
    end.

Definition umm_realloc (h : heap) (ptr : option Z) (size : Z)
  : option (heap * option Z) :=
  match ptr with
  | None => umm_malloc h size
  | Some p =>
      if size =? 0 then Some (umm_free h (Some p), None)
      else
        let blocks := umm_blocks size in
        let c := block_of_ptr p in
        let blockSize := u16 (UMM_NBLOCK h c - c) in
        let curSize := usize (blockSize * BLOCK_BYTES - HEADER_BYTES) in
        if blockSize =? blocks then Some (h, Some p)
        else
          let h1 := umm_assimilate_up h c in
          let '(h2, c2, p2) :=
            if negb (Z.land (UMM_NBLOCK h1 (UMM_PBLOCK h1 c)) UMM_FREELIST_MASK =? 0)
               && (blocks <=? UMM_NBLOCK h1 c - UMM_PBLOCK h1 c)
            then
              let ha := umm_disconnect_from_free_list h1 (UMM_PBLOCK h1 c) in
              let '(hb, c') := umm_assimilate_down ha c 0 in
              let hc := move_bytes hb (data_addr c') p curSize in
              (hc, c', data_addr c')
            else (h1, c, p) in
          realloc_finish h2 c2 p2 blocks size curSize
  end.

(** ** umm_info *)

(** Modelled from the spec: the UMM_HEAP_INFO record is declared in
    umm_malloc.h, which is not among the sources; the spec names its six
    counters.  They are kept as plain integers: on a heap of at most 32767
    blocks no counter leaves the range of a 16-bit field. *)
Record UMM_HEAP_INFO := mkInfo
  { totalEntries : Z; usedEntries : Z; freeEntries : Z;
    totalBlocks : Z; usedBlocks : Z; freeBlocks : Z }.

Definition info_zero : UMM_HEAP_INFO := mkInfo 0 0 0 0 0 0.

(** One free entry of [n] blocks, one used entry of [n] blocks, and the
    closing adjustment for the last block. *)
Definition count_free (i : UMM_HEAP_INFO) (n : Z) : UMM_HEAP_INFO :=
  mkInfo (totalEntries i + 1) (usedEntries i) (freeEntries i + 1)
         (totalBlocks i + n) (usedBlocks i) (freeBlocks i + n).

Definition count_used (i : UMM_HEAP_INFO) (n : Z) : UMM_HEAP_INFO :=
  mkInfo (totalEntries i + 1) (usedEntries i + 1) (freeEntries i)
         (totalBlocks i + n) (usedBlocks i + n) (freeBlocks i).

Definition count_rest (i : UMM_HEAP_INFO) (n : Z) : UMM_HEAP_INFO :=
  mkInfo (totalEntries i) (usedEntries i) (freeEntries i)
         (totalBlocks i + n) (usedBlocks i) (freeBlocks i + n).

(** The walk [while( UMM_NBLOCK(blockNo) & UMM_BLOCKNO_MASK ) { ... }];
    [None] when it never ends.  The result is the return value, the final
    [blockNo] and the record. *)
Fixpoint info_loop (fuel : nat) (h : heap) (ptr : option Z) (blockNo : Z)
    (i : UMM_HEAP_INFO) : option (option Z * Z * UMM_HEAP_INFO) :=
  match fuel with
  | O => None
  | S fuel' =>
      let next := Z.land (UMM_NBLOCK h blockNo) UMM_BLOCKNO_MASK in
      if next =? 0 then Some (None, blockNo, i)
      else if negb (Z.land (UMM_NBLOCK h blockNo) UMM_FREELIST_MASK =? 0) then
        let i' := count_free i (next - blockNo) in
        match ptr with
        | Some p =>
            if p =? block_addr blockNo then Some (Some p, blockNo, i')
            else info_loop fuel' h ptr next i'
        | None => info_loop fuel' h ptr next i'
        end
      else info_loop fuel' h ptr next (count_used i (next - blockNo))
  end.

(** [force] only selects what is logged and is left out. *)
Definition umm_info (h : heap) (ptr : option Z) : option (option Z * UMM_HEAP_INFO) :=
  match info_loop (S (length h)) h ptr (Z.land (UMM_NBLOCK h 0) UMM_BLOCKNO_MASK) info_zero with
  | None => None
  | Some (Some p, _, i) => Some (Some p, i)
  | Some (None, blockNo, i) => Some (None, count_rest i (UMM_NUMBLOCKS h - blockNo))
  end.

(** * Well-formed heaps

    After the first allocation the heap is a sequence of logical blocks in
    address order, closed by the last block, whose header word is 0.  [pl]
    lists the block heads in physical order, from the sentinel 0 to the last
    block [t]; [fl] lists the free list in link order, again from 0 to [t]. *)

Fixpoint chain (R : Z -> Z -> Prop) (l : list Z) : Prop :=
  match l with
  | a :: (b :: _) as l' => R a b /\ chain R l'
  | _ => True
  end.

(** [a] is immediately followed by [b] in the physical chain, and the two are
    not both marked free. *)
Definition plink (h : heap) (a b : Z) : Prop :=
  a < b /\
  (UMM_NBLOCK h a = b \/ UMM_NBLOCK h a = b + 32768) /\
  UMM_PBLOCK h b = a /\
  (UMM_NBLOCK h a < 32768 \/ UMM_NBLOCK h b < 32768).

(** [a] is immediately followed by [b] in the free list. *)
Definition flink (h : heap) (a b : Z) : Prop :=
  UMM_NFREE h a = b /\ UMM_PFREE h b = a.

Record Wf (N : Z) (h : heap) (pl fl : list Z) (t : Z) : Prop := mkWf
  { wf_words : words h = 4 * N;
    wf_N : N <= 32767;
    wf_t : 0 < t < N;
    wf_phd : hd 1 pl = 0;
    wf_plast : last pl 0 = t;
    wf_fhd : hd 1 fl = 0;
    wf_flast : last fl 0 = t;
    wf_phys : chain (plink h) pl;
    wf_free : chain (flink h) fl;
    wf_nodup : NoDup fl;
    wf_flag : forall c, In c fl <->
                In c pl /\ (c = 0 \/ c = t \/ 32768 <= UMM_NBLOCK h c);
    wf_nb0 : UMM_NBLOCK h 0 < 32768;
    wf_nbt : UMM_NBLOCK h t = 0;
    wf_nft : UMM_NFREE h t = 0 }.

(** A block handed out to the caller: on the physical chain, off the free
    list. *)
Definition used (pl fl : list Z) (c : Z) : Prop := In c pl /\ ~ In c fl.

(** The payload words of the block at [c]: the body of its first cell and
    every word of the cells up to the next block. *)
Definition payload (h : heap) (c w : Z) : Prop :=
  4 * c + 2 <= w < 4 * UMM_NBLOCK h c.

(** ** Best fit, as the specification words it

    The span of the block at [c], and the choice the specification asks
    for: among the free blocks in free-list order, the smallest span that
    holds the request, the earliest block on ties.  [best_of l bb bs] folds
    a candidate list into the running best block and best size. *)

Definition span (h : heap) (c : Z) : Z :=
  Z.land (UMM_NBLOCK h c) UMM_BLOCKNO_MASK - c.

Fixpoint best_of (h : heap) (blocks : Z) (l : list Z) (bb bs : Z) : Z * Z :=
  match l with
  | [] => (bb, bs)
  | c :: l' =>
      if (blocks <=? span h c) && (span h c <? bs)
      then best_of h blocks l' c (span h c)
      else best_of h blocks l' bb bs
  end.

(** What a successful allocation of [blocks] blocks at block [cf] leaves
    behind: a well-formed heap in which [cf] is a new used block of exactly
    that span, every block that was in use still is, with the same extent
    and the same payload. *)
Definition alloc_ok (N : Z) (h : heap) (pl fl : list Z) (blocks : Z)
    (h' : heap) (cf : Z) : Prop :=
  exists pl' fl' t',
    Wf N h' pl' fl' t' /\
    used pl' fl' cf /\ ~ used pl fl cf /\
    UMM_NBLOCK h' cf = cf + blocks /\
    (forall u, used pl fl u -> used pl' fl' u /\ UMM_NBLOCK h' u = UMM_NBLOCK h u) /\
    (forall u, used pl' fl' u -> u = cf \/ used pl fl u) /\
    (forall u w, used pl fl u -> payload h u w -> rd h' w = rd h w).

(** ** The block count, as the specification words it *)

Definition ceil_div (a b : Z) : Z := (a + b - 1) / b.

Definition blocks_needed (size : Z) : Z :=
  if size <=? BODY_BYTES then 1
  else ceil_div (size - BODY_BYTES) BLOCK_BYTES + 1.

(** ** Walking the heap *)

(** The blocks [umm_info] counts inside its loop, in order, starting at
    [b]: the walk follows the masked NBLOCK links and stops at the first
    block whose link is 0. *)
Fixpoint walk_is (h : heap) (b : Z) (l : list Z) : Prop :=
  match l with
  | [] => True
  | x :: l' =>
      x = b /\ Z.land (UMM_NBLOCK h x) UMM_BLOCKNO_MASK <> 0 /\
      walk_is h (Z.land (UMM_NBLOCK h x) UMM_BLOCKNO_MASK) l'
  end.

(** The record [umm_info] has accumulated after the blocks of [l]. *)
Fixpoint tally (h : heap) (l : list Z) (i : UMM_HEAP_INFO) : UMM_HEAP_INFO :=
  match l with
  | [] => i
  | b :: l' =>
      let n := Z.land (UMM_NBLOCK h b) UMM_BLOCKNO_MASK - b in
      if Z.land (UMM_NBLOCK h b) UMM_FREELIST_MASK =? 0
      then tally h l' (count_used i n)
      else tally h l' (count_free i n)
  end.

(** ** States between public operations *)

(** The heap is either still zeroed, as the startup code left it, or well
    formed. *)
Definition Inv (N : Z) (h : heap) : Prop :=
  (exists n : nat, h = zero_heap n /\ N = Z.of_nat n /\ N <= 32767) \/
  (exists pl fl t, Wf N h pl fl t).

(** What a client can reach from the zeroed heap of [n] blocks.  [live]
    lists the pointers handed out and not yet released.  The client calls
    umm_malloc, umm_free and umm_realloc, the last two on live pointers
    only, with requests whose 16-bit block count did not wrap to 0, and
    stores 16-bit words into the payload of live blocks. *)
Inductive reachable (n : nat) : heap -> list Z -> Prop :=
| reach_init : reachable n (zero_heap n) []
| reach_malloc h live size h' r :
    reachable n h live ->
    (size <> 0 -> umm_blocks size <> 0) ->
    umm_malloc h size = Some (h', r) ->
    reachable n h' (match r with Some q => q :: live | None => live end)
| reach_free h live p :
    reachable n h live -> In p live ->
    reachable n (umm_free h (Some p)) (remove Z.eq_dec p live)
| reach_realloc h live p size h' r :
    reachable n h live -> In p live ->
    (size <> 0 -> umm_blocks size <> 0) ->
    umm_realloc h (Some p) size = Some (h', r) ->
    reachable n h'
      (match r with
       | Some q => q :: remove Z.eq_dec p live
       | None => if size =? 0 then remove Z.eq_dec p live else live
       end)
| reach_store h live p w v :
    reachable n h live -> In p live ->
    payload h (block_of_ptr p) w ->
    reachable n (wr h w (u16 v)) live.

(** Every live pointer is the body address of a block in use. *)
Definition live_ok (pl fl : list Z) (live : list Z) : Prop :=
  forall p, In p live -> exists c, p = data_addr c /\ used pl fl c.

(** A walk along a link field from block [c] until the link that leads
    back to block 0. *)
Fixpoint link_walk (next : Z -> Z) (fuel : nat) (c : Z) : list Z :=
  match fuel with
  | O => []
  | S f => if c =? 0 then [] else c :: link_walk next f (next c)
  end.

(** The free list as the allocator walks it, from NFREE(0) along the NFREE
    links. *)
Definition free_list (h : heap) : list Z :=
  link_walk (UMM_NFREE h) (length h) (UMM_NFREE h 0).

(** The blocks of the heap after block 0, along the masked NBLOCK links. *)
Definition block_list (h : heap) : list Z :=
  link_walk (fun c => Z.land (UMM_NBLOCK h c) UMM_BLOCKNO_MASK) (length h)
            (Z.land (UMM_NBLOCK h 0) UMM_BLOCKNO_MASK).

(** A heap of eight blocks after three one-block allocations and the
    release of the second: blocks 1 and 3 in use, block 2 free, last
    block 4. *)
Definition sample_heap : heap :=
  [1; 0; 2; 0;   2; 0; 0; 0;   32771; 1; 4; 0;   4; 2; 0; 0;
   0; 3; 0; 2;   0; 0; 0; 0;   0; 0; 0; 0;       0; 0; 0; 0].

(** * Proofs *)

(** ** Bit masks on 15-bit block numbers *)

Lemma flag_bit_clear n : 0 <= n < 32768 -> Z.land n 32768 = 0.
Proof.
  intros Hn. apply Z.bits_inj'. intros i Hi.
  rewrite Z.land_spec, Z.bits_0.
  change 32768 with (2 ^ 15). rewrite Z.pow2_bits_eqb by lia.
  destruct (Z.eqb_spec 15 i) as [<-|]; [|apply andb_false_r].
  rewrite andb_true_r.
  destruct (Z.eq_dec n 0) as [->|]; [apply Z.bits_0|].
  apply Z.bits_above_log2; [lia|].
  apply Z.log2_lt_pow2; lia.
Qed.

Lemma add_flag_lor n : 0 <= n < 32768 -> n + 32768 = Z.lor n 32768.
Proof.
  intros Hn. pose proof (flag_bit_clear n Hn) as H.
  rewrite (Z.add_nocarry_lxor _ _ H). apply Z.lxor_lor, H.
Qed.

Lemma mask_small n : 0 <= n < 32768 -> Z.land n 32767 = n.
Proof.
  intros Hn. change 32767 with (Z.ones 15).
  rewrite Z.land_ones by lia. apply Z.mod_small. lia.
Qed.

Lemma mask_flagged n : 0 <= n < 32768 -> Z.land (n + 32768) 32767 = n.
Proof.
  intros Hn. change 32767 with (Z.ones 15).
  rewrite Z.land_ones by lia. change (2 ^ 15) with 32768.
  replace (n + 32768) with (n + 1 * 32768) by lia.
  rewrite Z.mod_add by lia. apply Z.mod_small. lia.
Qed.

Lemma flag_flagged n : 0 <= n < 32768 -> Z.land (n + 32768) 32768 = 32768.
Proof.
  intros Hn. rewrite add_flag_lor by lia.
  rewrite Z.land_lor_distr_l, flag_bit_clear by lia.
  rewrite Z.land_diag. reflexivity.
Qed.

Lemma lor_flag_flagged n : 0 <= n < 32768 -> Z.lor (n + 32768) 32768 = n + 32768.
Proof.
  intros Hn. rewrite add_flag_lor by lia.
  rewrite <- Z.lor_assoc, Z.lor_diag. reflexivity.
Qed.

Lemma clear_flag_small n : 0 <= n < 32768 -> Z.land n (Z.lnot 32768) = n.
Proof.
  intros Hn. apply Z.bits_inj'. intros i Hi.
  rewrite Z.land_spec, Z.lnot_spec by lia.
  change 32768 with (2 ^ 15). rewrite Z.pow2_bits_eqb by lia.
  destruct (Z.eqb_spec 15 i) as [<-|]; [|apply andb_true_r].
  cbn [negb]. rewrite andb_false_r. symmetry.
  destruct (Z.eq_dec n 0) as [->|]; [apply Z.bits_0|].
  apply Z.bits_above_log2; [lia|].
  apply Z.log2_lt_pow2; lia.
Qed.

Lemma clear_flag_flagged n : 0 <= n < 32768 -> Z.land (n + 32768) (Z.lnot 32768) = n.
Proof.
  intros Hn. rewrite add_flag_lor by lia.
  rewrite Z.land_lor_distr_l, clear_flag_small by lia.
  rewrite Z.land_lnot_diag. apply Z.lor_0_r.
Qed.

Lemma u16_small x : 0 <= x < 65536 -> u16 x = x.
Proof. intros. unfold u16. apply Z.mod_small. lia. Qed.

Lemma u16_range x : 0 <= u16 x < 65536.
Proof. unfold u16. apply Z.mod_pos_bound. lia. Qed.

(** ** Reading and writing the word array *)

Lemma upd_length l n v : length (upd l n v) = length l.
Proof.
  revert n. induction l as [|x l IH]; intros [|n]; simpl; auto.
Qed.

Lemma nth_upd_same l n v : (n < length l)%nat -> nth n (upd l n v) 0 = v.
Proof.
  revert n. induction l as [|x l IH]; intros [|n] H; simpl in *; try lia; auto.
  apply IH. lia.
Qed.

Lemma nth_upd_other l n m v : n <> m -> nth m (upd l n v) 0 = nth m l 0.
Proof.
  revert n m. induction l as [|x l IH]; intros [|n] [|m] H; simpl; auto;
    try contradiction.
Qed.

Lemma words_wr h i v : words (wr h i v) = words h.
Proof.
  unfold words, wr. destruct (i <? 0); [reflexivity|].
  now rewrite upd_length.
Qed.

Lemma rd_wr_same h i j v : i = j -> 0 <= i < words h -> rd (wr h i v) j = v.
Proof.
  intros <- [H0 H1]. unfold rd, wr, words in *.
  destruct (Z.ltb_spec i 0); [lia|].
  apply nth_upd_same. lia.
Qed.

Lemma rd_wr_other h i j v : i <> j -> rd (wr h i v) j = rd h j.
Proof.
  intros H. unfold rd, wr.
  destruct (Z.ltb_spec j 0); [reflexivity|].
  destruct (Z.ltb_spec i 0); [reflexivity|].
  apply nth_upd_other. lia.
Qed.

Lemma rd_outside h i : words h <= i -> rd h i = 0.
Proof.
  intros H. unfold rd, words in *.
  destruct (Z.ltb_spec i 0); [reflexivity|].
  apply nth_overflow. lia.
Qed.

Lemma rd_zero_heap n i : rd (zero_heap n) i = 0.
Proof.
  unfold rd, zero_heap. destruct (i <? 0); [reflexivity|].
  generalize (Z.to_nat i). generalize (4 * n)%nat.
  induction n0 as [|k IH]; intros [|m]; simpl; auto.
Qed.

Lemma words_zero_heap n : words (zero_heap n) = 4 * Z.of_nat n.
Proof. unfold words, zero_heap. rewrite repeat_length. lia. Qed.

(** ** The link accessors after a write *)

Ltac unfold_acc :=
  unfold UMM_NBLOCK, UMM_PBLOCK, UMM_NFREE, UMM_PFREE,
         set_NBLOCK, set_PBLOCK, set_NFREE, set_PFREE.

Ltac acc_other := intros; unfold_acc; apply rd_wr_other; lia.
Ltac acc_same := intros; unfold_acc; apply rd_wr_same; lia.

Lemma words_set_NB h b v : words (set_NBLOCK h b v) = words h.
Proof. apply words_wr. Qed.
Lemma words_set_PB h b v : words (set_PBLOCK h b v) = words h.
Proof. apply words_wr. Qed.
Lemma words_set_NF h b v : words (set_NFREE h b v) = words h.
Proof. apply words_wr. Qed.
Lemma words_set_PF h b v : words (set_PFREE h b v) = words h.
Proof. apply words_wr. Qed.

Lemma NB_set_PB h b v b' : UMM_NBLOCK (set_PBLOCK h b v) b' = UMM_NBLOCK h b'.
Proof. acc_other. Qed.
Lemma NB_set_NF h b v b' : UMM_NBLOCK (set_NFREE h b v) b' = UMM_NBLOCK h b'.
Proof. acc_other. Qed.
Lemma NB_set_PF h b v b' : UMM_NBLOCK (set_PFREE h b v) b' = UMM_NBLOCK h b'.
Proof. acc_other. Qed.
Lemma PB_set_NB h b v b' : UMM_PBLOCK (set_NBLOCK h b v) b' = UMM_PBLOCK h b'.
Proof. acc_other. Qed.
Lemma PB_set_NF h b v b' : UMM_PBLOCK (set_NFREE h b v) b' = UMM_PBLOCK h b'.
Proof. acc_other. Qed.
Lemma PB_set_PF h b v b' : UMM_PBLOCK (set_PFREE h b v) b' = UMM_PBLOCK h b'.
Proof. acc_other. Qed.
Lemma NF_set_NB h b v b' : UMM_NFREE (set_NBLOCK h b v) b' = UMM_NFREE h b'.
Proof. acc_other. Qed.
Lemma NF_set_PB h b v b' : UMM_NFREE (set_PBLOCK h b v) b' = UMM_NFREE h b'.
Proof. acc_other. Qed.
Lemma NF_set_PF h b v b' : UMM_NFREE (set_PFREE h b v) b' = UMM_NFREE h b'.
Proof. acc_other. Qed.
Lemma PF_set_NB h b v b' : UMM_PFREE (set_NBLOCK h b v) b' = UMM_PFREE h b'.
Proof. acc_other. Qed.
Lemma PF_set_PB h b v b' : UMM_PFREE (set_PBLOCK h b v) b' = UMM_PFREE h b'.
Proof. acc_other. Qed.
Lemma PF_set_NF h b v b' : UMM_PFREE (set_NFREE h b v) b' = UMM_PFREE h b'.
Proof. acc_other. Qed.

Lemma NB_set_NB_ne h b v b' : b <> b' -> UMM_NBLOCK (set_NBLOCK h b v) b' = UMM_NBLOCK h b'.
Proof. acc_other. Qed.
Lemma PB_set_PB_ne h b v b' : b <> b' -> UMM_PBLOCK (set_PBLOCK h b v) b' = UMM_PBLOCK h b'.
Proof. acc_other. Qed.
Lemma NF_set_NF_ne h b v b' : b <> b' -> UMM_NFREE (set_NFREE h b v) b' = UMM_NFREE h b'.
Proof. acc_other. Qed.
Lemma PF_set_PF_ne h b v b' : b <> b' -> UMM_PFREE (set_PFREE h b v) b' = UMM_PFREE h b'.
Proof. acc_other. Qed.

Lemma NB_set_NB_eq h b v b' :
  b = b' -> 0 <= 4 * b < words h -> UMM_NBLOCK (set_NBLOCK h b v) b' = u16 v.
Proof. acc_same. Qed.
Lemma PB_set_PB_eq h b v b' :
  b = b' -> 0 <= 4 * b + 1 < words h -> 0 <= b -> UMM_PBLOCK (set_PBLOCK h b v) b' = u16 v.
Proof. acc_same. Qed.
Lemma NF_set_NF_eq h b v b' :
  b = b' -> 0 <= 4 * b + 2 < words h -> 0 <= b -> UMM_NFREE (set_NFREE h b v) b' = u16 v.
Proof. acc_same. Qed.
Lemma PF_set_PF_eq h b v b' :
  b = b' -> 0 <= 4 * b + 3 < words h -> 0 <= b -> UMM_PFREE (set_PFREE h b v) b' = u16 v.
Proof. acc_same. Qed.

(** A raw word write seen through the accessors. *)
Lemma NB_wr h w v b : w <> 4 * b -> UMM_NBLOCK (wr h w v) b = UMM_NBLOCK h b.
Proof. acc_other. Qed.
Lemma PB_wr h w v b : w <> 4 * b + 1 -> UMM_PBLOCK (wr h w v) b = UMM_PBLOCK h b.
Proof. acc_other. Qed.
Lemma NF_wr h w v b : w <> 4 * b + 2 -> UMM_NFREE (wr h w v) b = UMM_NFREE h b.
Proof. acc_other. Qed.
Lemma PF_wr h w v b : w <> 4 * b + 3 -> UMM_PFREE (wr h w v) b = UMM_PFREE h b.
Proof. acc_other. Qed.

Create Rewrite HintDb heap.

#[local] Hint Rewrite words_wr words_set_NB words_set_PB words_set_NF words_set_PF
  NB_set_PB NB_set_NF NB_set_PF PB_set_NB PB_set_NF PB_set_PF
  NF_set_NB NF_set_PB NF_set_PF PF_set_NB PF_set_PB PF_set_NF : heap.

Ltac side := autorewrite with heap; lia.

Ltac hsimp :=
  repeat first
    [ progress autorewrite with heap
    | rewrite NB_set_NB_eq by side
    | rewrite NB_set_NB_ne by lia
    | rewrite PB_set_PB_eq by side
    | rewrite PB_set_PB_ne by lia
    | rewrite NF_set_NF_eq by side
    | rewrite NF_set_NF_ne by lia
    | rewrite PF_set_PF_eq by side
    | rewrite PF_set_PF_ne by lia
    | rewrite NB_wr by lia
    | rewrite PB_wr by lia
    | rewrite NF_wr by lia
    | rewrite PF_wr by lia
    | rewrite u16_small by lia ].

Ltac hsimp_in H :=
  repeat first
    [ progress autorewrite with heap in H
    | rewrite NB_set_NB_eq in H by side
    | rewrite NB_set_NB_ne in H by lia
    | rewrite PB_set_PB_eq in H by side
    | rewrite PB_set_PB_ne in H by lia
    | rewrite NF_set_NF_eq in H by side
    | rewrite NF_set_NF_ne in H by lia
    | rewrite PF_set_PF_eq in H by side
    | rewrite PF_set_PF_ne in H by lia
    | rewrite u16_small in H by lia ].

(** ** Chains *)

Section Chain.
Variable R : Z -> Z -> Prop.

Lemma chain_tail a l : chain R (a :: l) -> chain R l.
Proof. destruct l; simpl; tauto. Qed.

Lemma chain_app_iff l1 x l2 :
  chain R (l1 ++ x :: l2) <-> chain R (l1 ++ [x]) /\ chain R (x :: l2).
Proof.
  induction l1 as [|a l1 IH].
  - simpl. tauto.
  - destruct l1 as [|b l1].
    + simpl. tauto.
    + change (R a b /\ chain R ((b :: l1) ++ x :: l2) <->
              (R a b /\ chain R ((b :: l1) ++ [x])) /\ chain R (x :: l2)).
      rewrite IH. tauto.
Qed.

Lemma chain_snoc l a b : chain R (l ++ [a; b]) <-> chain R (l ++ [a]) /\ R a b.
Proof. rewrite chain_app_iff. simpl. tauto. Qed.

Lemma chain_pair a b l : chain R (a :: b :: l) <-> R a b /\ chain R (b :: l).
Proof. simpl. tauto. Qed.

Lemma chain_mid l1 a b l2 : chain R (l1 ++ a :: b :: l2) -> R a b.
Proof. rewrite chain_app_iff. simpl. tauto. Qed.
End Chain.

Lemma chain_frame (R R' : Z -> Z -> Prop) l :
  (forall a b, In a l -> In b l -> R a b -> R' a b) -> chain R l -> chain R' l.
Proof.
  induction l as [|a l IH]; [simpl; auto|].
  destruct l as [|b l]; [simpl; auto|].
  intros H [Hab Hc]. split.
  - apply H; simpl; auto.
  - apply IH; [|exact Hc]. intros x y Hx Hy. apply H; right; assumption.
Qed.

(** The physical chain is strictly increasing. *)
Lemma chain_lt_head l a : chain Z.lt (a :: l) -> forall x, In x l -> a < x.
Proof.
  revert a. induction l as [|b l IH]; simpl; [tauto|].
  intros a [Hab Hc] x [<-|Hx]; [assumption|].
  specialize (IH b Hc x Hx). lia.
Qed.

Lemma chain_lt_split l1 x l2 :
  chain Z.lt (l1 ++ x :: l2) ->
  (forall a, In a l1 -> a < x) /\ (forall b, In b l2 -> x < b).
Proof.
  induction l1 as [|a l1 IH]; simpl.
  - intros H. split; [tauto|]. apply chain_lt_head, H.
  - intros H. pose proof (chain_lt_head _ _ H) as Ha.
    apply chain_tail in H. destruct (IH H) as [H1 H2]. split; auto.
    intros y [<-|Hy]; auto. apply Ha. apply in_or_app. simpl. auto.
Qed.

Lemma plink_lt h l : chain (plink h) l -> chain Z.lt l.
Proof. apply chain_frame. unfold plink. tauto. Qed.

Lemma phys_split h l1 x l2 :
  chain (plink h) (l1 ++ x :: l2) ->
  (forall a, In a l1 -> a < x) /\ (forall b, In b l2 -> x < b).
Proof. intros H. apply chain_lt_split, plink_lt with h, H. Qed.

(** ** Lists with a fixed first and last element *)

Lemma hd_app_keep (A : list Z) p X d : hd d (A ++ p :: X) = hd d (A ++ [p]).
Proof. destruct A; reflexivity. Qed.

Lemma last_app_keep (X : list Z) n B d : last (X ++ n :: B) d = last (n :: B) d.
Proof.
  induction X as [|x X IH]; [reflexivity|].
  simpl ((x :: X) ++ n :: B). remember (X ++ n :: B) as l eqn:E.
  destruct l as [|y l]; [destruct X; discriminate|].
  simpl. simpl in IH. exact IH.
Qed.

Lemma in_split_mid (l : list Z) c d1 d2 :
  In c l -> c <> hd d1 l -> c <> last l d2 ->
  exists A p n B, l = A ++ p :: c :: n :: B.
Proof.
  intros Hin Hhd Hlast.
  destruct (in_split _ _ Hin) as (L & Rr & ->).
  destruct Rr as [|n B].
  - exfalso. apply Hlast. rewrite last_app_keep. reflexivity.
  - destruct (exists_last (l := L)) as (A & p & ->).
    + intros ->. apply Hhd. reflexivity.
    + exists A, p, n, B. rewrite <- app_assoc. reflexivity.
Qed.

Lemma in_tl (l : list Z) x : In x (tl l) -> In x l.
Proof. destruct l; simpl; auto. Qed.

Lemma in_removelast (l : list Z) x : In x (removelast l) -> In x l.
Proof.
  induction l as [|a l IH]; [simpl; auto|].
  destruct l as [|b l]; [simpl; auto|].
  intros [<-|H]; [left; reflexivity|right; apply IH, H].
Qed.

(** ** Framing the two chains *)

Lemma phys_frame_prefix h h' A p :
  chain (plink h) (A ++ [p]) ->
  (forall a, In a A -> a < p) ->
  (forall x, x <= p -> UMM_NBLOCK h' x = UMM_NBLOCK h x /\ UMM_PBLOCK h' x = UMM_PBLOCK h x) ->
  chain (plink h') (A ++ [p]).
Proof.
  intros Hc HA Hsame. revert Hc. apply chain_frame.
  intros a b Ha Hb (H1 & H2 & H3 & H4).
  assert (a <= p /\ b <= p) as [La Lb].
  { apply in_app_iff in Ha, Hb. simpl in Ha, Hb.
    split; [destruct Ha as [Ha|[<-|[]]]|destruct Hb as [Hb|[<-|[]]]];
      try lia; apply Z.lt_le_incl; auto. }
  unfold plink.
  destruct (Hsame a La) as [-> _]. destruct (Hsame b Lb) as [-> ->].
  repeat split; assumption.
Qed.

Lemma phys_frame_suffix h h' n B :
  chain (plink h) (n :: B) ->
  (forall x, n <= x -> UMM_NBLOCK h' x = UMM_NBLOCK h x) ->
  (forall x, n < x -> UMM_PBLOCK h' x = UMM_PBLOCK h x) ->
  chain (plink h') (n :: B).
Proof.
  intros Hc HN HP. pose proof (chain_lt_head _ _ (plink_lt _ _ Hc)) as HB.
  revert Hc. apply chain_frame.
  intros a b Ha Hb (H1 & H2 & H3 & H4).
  assert (n <= a) by (destruct Ha as [<-|Ha]; [lia|apply Z.lt_le_incl; auto]).
  assert (n < b) by lia.
  unfold plink. rewrite !HN, HP by lia. repeat split; assumption.
Qed.

Lemma free_frame h h' l :
  chain (flink h) l ->
  (forall x, In x (removelast l) -> UMM_NFREE h' x = UMM_NFREE h x) ->
  (forall x, In x (tl l) -> UMM_PFREE h' x = UMM_PFREE h x) ->
  chain (flink h') l.
Proof.
  induction l as [|a l IH]; [simpl; auto|].
  destruct l as [|b l]; [simpl; auto|].
  intros [[H1 H2] Hc] HN HP. split.
  - unfold flink. split.
    + rewrite HN; [assumption|]. simpl. auto.
    + rewrite HP; [assumption|]. simpl. auto.
  - apply IH; [exact Hc| |].
    + intros x Hx. apply HN. change (In x (a :: removelast (b :: l))). right. exact Hx.
    + intros x Hx. apply HP. simpl. right. exact Hx.
Qed.

Lemma removelast_snoc (l : list Z) x : removelast (l ++ [x]) = l.
Proof. apply removelast_last. Qed.

(** ** First consequences of well-formedness *)

Lemma last_in (l : list Z) d : l <> [] -> In (last l d) l.
Proof.
  induction l as [|a l IH]; [congruence|]. intros _.
  destruct l as [|b l]; [simpl; auto|].
  right. apply IH. discriminate.
Qed.

Lemma chain_lt_last l a d : chain Z.lt (a :: l) -> a <= last (a :: l) d.
Proof.
  intros H. destruct l as [|b l]; [simpl; lia|].
  apply Z.lt_le_incl. apply (chain_lt_head _ _ H).
  change (last (a :: b :: l) d) with (last (b :: l) d).
  apply last_in. discriminate.
Qed.

Lemma chain_lt_le_last l x d : chain Z.lt l -> In x l -> x <= last l d.
Proof.
  induction l as [|a l IH]; [simpl; tauto|].
  intros Hc [<-|Hx].
  - apply chain_lt_last, Hc.
  - destruct l as [|b l]; [destruct Hx|].
    change (last (a :: b :: l) d) with (last (b :: l) d).
    apply IH; [apply chain_tail with a, Hc|exact Hx].
Qed.

Section WfFacts.
Variables (N : Z) (h : heap) (pl fl : list Z) (t : Z).
Hypothesis W : Wf N h pl fl t.

Lemma wf_pl_cons : exists r, pl = 0 :: r.
Proof.
  pose proof (wf_phd _ _ _ _ _ W). destruct pl as [|a r]; simpl in *; [lia|].
  subst. eauto.
Qed.

Lemma wf_fl_cons : exists r, fl = 0 :: r.
Proof.
  pose proof (wf_fhd _ _ _ _ _ W). destruct fl as [|a r]; simpl in *; [lia|].
  subst. eauto.
Qed.

Lemma wf_in_pl_0 : In 0 pl.
Proof. destruct wf_pl_cons as [r ->]. simpl. auto. Qed.

Lemma wf_in_pl_t : In t pl.
Proof.
  rewrite <- (wf_plast _ _ _ _ _ W). apply last_in.
  destruct wf_pl_cons as [r ->]. discriminate.
Qed.

Lemma wf_in_fl_0 : In 0 fl.
Proof. destruct wf_fl_cons as [r ->]. simpl. auto. Qed.

Lemma wf_in_fl_t : In t fl.
Proof.
  rewrite <- (wf_flast _ _ _ _ _ W). apply last_in.
  destruct wf_fl_cons as [r ->]. discriminate.
Qed.

Lemma wf_fl_sub c : In c fl -> In c pl.
Proof. intros H. apply (wf_flag _ _ _ _ _ W) in H. tauto. Qed.

Lemma wf_pl_range c : In c pl -> 0 <= c <= t.
Proof.
  intros Hc. pose proof (plink_lt _ _ (wf_phys _ _ _ _ _ W)) as Hs. split.
  - destruct wf_pl_cons as [r E]. rewrite E in Hc, Hs.
    destruct Hc as [<-|Hc]; [lia|].
    apply Z.lt_le_incl. apply (chain_lt_head _ _ Hs). exact Hc.
  - rewrite <- (wf_plast _ _ _ _ _ W). apply chain_lt_le_last; assumption.
Qed.

Lemma wf_used_ne c : used pl fl c -> c <> 0 /\ c <> t.
Proof.
  intros [_ Hn]. split; intros ->; apply Hn; [apply wf_in_fl_0|apply wf_in_fl_t].
Qed.

Lemma wf_used_clear c : used pl fl c -> UMM_NBLOCK h c < 32768.
Proof.
  intros [Hp Hn]. destruct (Z.lt_ge_cases (UMM_NBLOCK h c) 32768); [assumption|].
  exfalso. apply Hn. apply (wf_flag _ _ _ _ _ W). auto.
Qed.

(** The neighbourhood of a block in the physical chain. *)
Lemma wf_phys_ctx c :
  In c pl -> c <> 0 -> c <> t ->
  exists A p n B,
    pl = A ++ p :: c :: n :: B /\
    plink h p c /\ plink h c n /\ 0 <= p /\ n <= t.
Proof.
  intros Hc H0 Ht.
  destruct (in_split_mid pl c 1 0 Hc) as (A & p & n & B & E).
  - rewrite (wf_phd _ _ _ _ _ W). exact H0.
  - rewrite (wf_plast _ _ _ _ _ W). exact Ht.
  - exists A, p, n, B. pose proof (wf_phys _ _ _ _ _ W) as Hch.
    split; [exact E|]. rewrite E in Hch.
    split; [apply (chain_mid _ _ _ _ _ Hch)|].
    split.
    { replace (A ++ p :: c :: n :: B) with ((A ++ [p]) ++ c :: n :: B) in Hch
        by (rewrite <- app_assoc; reflexivity).
      apply (chain_mid _ _ _ _ _ Hch). }
    split; apply wf_pl_range; rewrite E; apply in_or_app; simpl; auto.
Qed.

(** The neighbourhood of a block in the free list. *)
Lemma wf_free_ctx c :
  In c fl -> c <> 0 -> c <> t ->
  exists FA fp fn FB,
    fl = FA ++ fp :: c :: fn :: FB /\
    flink h fp c /\ flink h c fn /\ fn <> 0 /\ fp <> t.
Proof.
  intros Hc H0 Ht.
  destruct (in_split_mid fl c 1 0 Hc) as (FA & fp & fn & FB & E).
  - rewrite (wf_fhd _ _ _ _ _ W). exact H0.
  - rewrite (wf_flast _ _ _ _ _ W). exact Ht.
  - exists FA, fp, fn, FB. pose proof (wf_free _ _ _ _ _ W) as Hch.
    pose proof (wf_nodup _ _ _ _ _ W) as Hnd.
    split; [exact E|]. rewrite E in Hch.
    split; [apply (chain_mid _ _ _ _ _ Hch)|].
    split.
    { replace (FA ++ fp :: c :: fn :: FB) with ((FA ++ [fp]) ++ c :: fn :: FB) in Hch
        by (rewrite <- app_assoc; reflexivity).
      apply (chain_mid _ _ _ _ _ Hch). }
    split.
    + intros ->. destruct wf_fl_cons as [r Er]. rewrite Er in Hnd, E.
      destruct FA as [|a FA]; simpl in E; injection E as E1 E2.
      * subst. inversion Hnd as [|? ? Hn _]. apply Hn. simpl. auto.
      * subst. inversion Hnd as [|? ? Hn _]. apply Hn.
        apply in_or_app. simpl. auto.
    + intros ->. pose proof (wf_flast _ _ _ _ _ W) as Hl. rewrite E in Hl, Hnd.
      rewrite last_app_keep in Hl.
      apply NoDup_remove_2 in Hnd. apply Hnd. apply in_or_app. right.
      right. change (last (t :: c :: fn :: FB) 0) with (last (fn :: FB) 0) in Hl.
      pose proof (last_in (fn :: FB) 0) as Hin. rewrite Hl in Hin.
      apply Hin. discriminate.
Qed.
End WfFacts.

Lemma nodup_three (FA FB : list Z) a b c :
  NoDup (FA ++ a :: b :: c :: FB) ->
  a <> b /\ b <> c /\ a <> c /\
  ~ In a FA /\ ~ In b FA /\ ~ In c FA /\
  ~ In a FB /\ ~ In b FB /\ ~ In c FB /\
  NoDup (FA ++ a :: c :: FB).
Proof.
  intros H.
  pose proof (NoDup_remove_2 _ _ _ H) as Ha.
  pose proof (NoDup_remove_1 _ _ _ H) as H1.
  pose proof (NoDup_remove_2 _ _ _ H1) as Hb.
  pose proof (NoDup_remove_1 _ _ _ H1) as H2.
  pose proof (NoDup_remove_2 _ _ _ H2) as Hc.
  replace (FA ++ a :: b :: c :: FB) with ((FA ++ [a]) ++ b :: c :: FB) in H
    by (rewrite <- app_assoc; reflexivity).
  pose proof (NoDup_remove_1 _ _ _ H) as H3.
  rewrite <- app_assoc in H3. simpl in H3.
  rewrite in_app_iff in Ha, Hb, Hc. simpl in Ha, Hb, Hc.
  repeat split; try assumption; intros E; try subst; tauto.
Qed.

(** ** Unlinking a free block *)

Section Disconnect.
Variables (N : Z) (h : heap) (pl fl : list Z) (t c : Z).
Hypothesis W : Wf N h pl fl t.
Hypothesis Hc : In c fl.
Hypothesis Hc0 : c <> 0.
Hypothesis Hct : c <> t.

Lemma free_block_flagged :
  exists n, UMM_NBLOCK h c = n + 32768 /\ c < n <= t.
Proof.
  pose proof (wf_fl_sub _ _ _ _ _ W c Hc) as Hp.
  destruct (wf_phys_ctx _ _ _ _ _ W c Hp Hc0 Hct)
    as (A & p & n & B & E & Hpc & Hcn & Hp0 & Hnt).
  exists n. destruct Hcn as (Hlt & Hnb & _).
  apply (wf_flag _ _ _ _ _ W) in Hc. destruct Hc as [_ [?|[?|Hf]]]; try contradiction.
  pose proof (wf_t _ _ _ _ _ W). pose proof (wf_N _ _ _ _ _ W).
  split; [|lia]. destruct Hnb; lia.
Qed.

Lemma disconnect_wf :
  exists fl' FA fp fn FB n,
    fl = FA ++ fp :: c :: fn :: FB /\
    fl' = FA ++ fp :: fn :: FB /\
    UMM_NBLOCK h c = n + 32768 /\
    umm_disconnect_from_free_list h c =
      set_NBLOCK (set_PFREE (set_NFREE h fp fn) fn fp) c n /\
    Wf N (umm_disconnect_from_free_list h c) pl fl' t.
Proof.
  destruct free_block_flagged as (n & Hnb & Hn).
  destruct (wf_free_ctx _ _ _ _ _ W c Hc Hc0 Hct)
    as (FA & fp & fn & FB & E & [Hf1 Hf2] & [Hf3 Hf4] & Hfn0 & Hfpt).
  pose proof (wf_nodup _ _ _ _ _ W) as Hnd. rewrite E in Hnd.
  destruct (nodup_three _ _ _ _ _ Hnd)
    as (D1 & D2 & D3 & D4 & D5 & D6 & D7 & D8 & D9 & Hnd').
  pose proof (wf_t _ _ _ _ _ W) as Ht. pose proof (wf_N _ _ _ _ _ W) as HN.
  pose proof (wf_words _ _ _ _ _ W) as Hw.
  assert (Hfp : In fp fl) by (rewrite E; apply in_or_app; simpl; auto).
  assert (Hfn : In fn fl) by (rewrite E; apply in_or_app; simpl; auto).
  pose proof (wf_pl_range _ _ _ _ _ W _ (wf_fl_sub _ _ _ _ _ W _ Hfp)) as Rfp.
  pose proof (wf_pl_range _ _ _ _ _ W _ (wf_fl_sub _ _ _ _ _ W _ Hfn)) as Rfn.
  pose proof (wf_pl_range _ _ _ _ _ W _ (wf_fl_sub _ _ _ _ _ W _ Hc)) as Rc.
  assert (Eq : umm_disconnect_from_free_list h c =
               set_NBLOCK (set_PFREE (set_NFREE h fp fn) fn fp) c n).
  { unfold umm_disconnect_from_free_list. rewrite Hf2, Hf3. hsimp.
    rewrite Hf3, Hf2, Hnb. unfold UMM_FREELIST_MASK.
    rewrite clear_flag_flagged by lia. reflexivity. }
  exists (FA ++ fp :: fn :: FB), FA, fp, fn, FB, n.
  split; [exact E|]. split; [reflexivity|]. split; [exact Hnb|].
  split; [exact Eq|]. rewrite Eq.
  assert (NBeq : forall x, UMM_NBLOCK (set_NBLOCK (set_PFREE (set_NFREE h fp fn) fn fp) c n) x
                 = if x =? c then n else UMM_NBLOCK h x).
  { intros x. destruct (Z.eqb_spec x c) as [->|]; hsimp; reflexivity. }
  constructor.
  - hsimp. exact Hw.
  - exact HN.
  - exact Ht.
  - apply (wf_phd _ _ _ _ _ W).
  - apply (wf_plast _ _ _ _ _ W).
  - pose proof (wf_fhd _ _ _ _ _ W) as Hhd. rewrite E in Hhd.
    destruct FA; exact Hhd.
  - rewrite <- (wf_flast _ _ _ _ _ W), E.
    replace (FA ++ fp :: fn :: FB) with ((FA ++ [fp]) ++ fn :: FB)
      by (rewrite <- app_assoc; reflexivity).
    replace (FA ++ fp :: c :: fn :: FB) with ((FA ++ [fp; c]) ++ fn :: FB)
      by (rewrite <- app_assoc; reflexivity).
    rewrite !last_app_keep. reflexivity.
  - generalize (wf_phys _ _ _ _ _ W). apply chain_frame.
    intros a b Ha Hb (H1 & H2 & H3 & H4).
    pose proof (wf_pl_range _ _ _ _ _ W _ Ha).
    pose proof (wf_pl_range _ _ _ _ _ W _ Hb).
    unfold plink. rewrite !NBeq. hsimp.
    destruct (Z.eqb_spec a c) as [Ea|Na], (Z.eqb_spec b c) as [Eb|Nb];
      cbv iota; try rewrite Ea in *; try rewrite Eb in *; lia.
  - pose proof (wf_free _ _ _ _ _ W) as Hch. rewrite E in Hch.
    apply chain_app_iff in Hch. destruct Hch as [Hpre Hsuf].
    apply chain_app_iff. split; [|apply chain_pair; split].
    + apply free_frame with (h := h); [exact Hpre| |].
      * intros x Hx. rewrite removelast_snoc in Hx. hsimp.
        rewrite NF_set_NF_ne; [hsimp; reflexivity|]. intros <-. contradiction.
      * intros x Hx. apply in_tl, in_app_iff in Hx. simpl in Hx. hsimp.
        rewrite PF_set_PF_ne; [hsimp; reflexivity|]. intros <-.
        destruct Hx as [Hx|[Hx|[]]]; [contradiction|congruence].
    + unfold flink. hsimp. lia.
    + apply chain_tail, chain_tail in Hsuf.
      apply free_frame with (h := h); [exact Hsuf| |].
      * intros x Hx. apply in_removelast in Hx. hsimp.
        rewrite NF_set_NF_ne; [hsimp; reflexivity|]. intros <-.
        destruct Hx as [Hx|Hx]; [congruence|contradiction].
      * intros x Hx. simpl in Hx. hsimp.
        rewrite PF_set_PF_ne; [hsimp; reflexivity|]. intros <-. contradiction.
  - exact Hnd'.
  - intros x. rewrite NBeq. pose proof (wf_flag _ _ _ _ _ W x) as Hfl.
    rewrite E in Hfl. rewrite in_app_iff in Hfl |- *. simpl in Hfl |- *.
    destruct (Z.eqb_spec x c) as [->|Hx].
    + split; [intros; exfalso; intuition congruence|].
      intros [_ [?|[?|?]]]; try contradiction; lia.
    + intuition congruence.
  - rewrite NBeq. destruct (Z.eqb_spec 0 c); [congruence|]. apply (wf_nb0 _ _ _ _ _ W).
  - rewrite NBeq. destruct (Z.eqb_spec t c); [congruence|]. apply (wf_nbt _ _ _ _ _ W).
  - hsimp. apply (wf_nft _ _ _ _ _ W).
Qed.
End Disconnect.

(** ** Rewriting a window of the physical chain *)

Lemma phys_replace h h' A p mid mid' n B :
  chain (plink h) (A ++ p :: mid ++ n :: B) ->
  (forall x, x <= p ->
     UMM_NBLOCK h' x = UMM_NBLOCK h x /\ UMM_PBLOCK h' x = UMM_PBLOCK h x) ->
  (forall x, n <= x -> UMM_NBLOCK h' x = UMM_NBLOCK h x) ->
  (forall x, n < x -> UMM_PBLOCK h' x = UMM_PBLOCK h x) ->
  chain (plink h') (p :: mid' ++ [n]) ->
  chain (plink h') (A ++ p :: mid' ++ n :: B).
Proof.
  intros Hc Hpre HsN HsP Hwin.
  pose proof (phys_split _ _ _ _ Hc) as [HA _].
  apply chain_app_iff in Hc. destruct Hc as [Hc1 Hc2].
  replace (p :: mid ++ n :: B) with ((p :: mid) ++ n :: B) in Hc2 by reflexivity.
  apply chain_app_iff in Hc2. destruct Hc2 as [_ Hc3].
  apply chain_app_iff. split.
  - apply phys_frame_prefix with (h := h); assumption.
  - replace (p :: mid' ++ n :: B) with ((p :: mid') ++ n :: B) by reflexivity.
    apply chain_app_iff. split; [exact Hwin|].
    apply phys_frame_suffix with (h := h); assumption.
Qed.

Lemma list_before_nonhead (l A R : list Z) p d :
  l = A ++ p :: R -> hd d l <> p -> exists A' pp, A = A' ++ [pp].
Proof.
  intros -> H. destruct (exists_last (l := A)) as (A' & pp & ->).
  - intros ->. apply H. reflexivity.
  - eauto.
Qed.

Lemma list_after_nonlast (l L B : list Z) n d :
  l = L ++ n :: B -> last l d <> n -> exists nn B', B = nn :: B'.
Proof.
  intros -> H. destruct B as [|nn B']; [|eauto].
  exfalso. apply H. rewrite last_app_keep. reflexivity.
Qed.

Lemma app_cons_assoc (A : list Z) x R : A ++ x :: R = (A ++ [x]) ++ R.
Proof. rewrite <- app_assoc. reflexivity. Qed.

(** Membership in a sorted physical chain, by position. *)
Lemma phys_in_cases h A x B y :
  chain (plink h) (A ++ x :: B) -> In y (A ++ x :: B) ->
  (In y A /\ y < x) \/ y = x \/ (In y B /\ x < y).
Proof.
  intros Hc Hy. destruct (phys_split _ _ _ _ Hc) as [HA HB].
  apply in_app_iff in Hy. simpl in Hy.
  destruct Hy as [Hy|[<-|Hy]]; auto.
Qed.

(** ** Block extents *)

Lemma wf_extent N h pl fl t A x nx B :
  Wf N h pl fl t -> pl = A ++ x :: nx :: B ->
  forall y, In y pl -> y <= x \/ nx <= y.
Proof.
  intros W E y Hy. pose proof (wf_phys _ _ _ _ _ W) as Hc. rewrite E in Hc, Hy.
  rewrite app_cons_assoc in Hc, Hy.
  destruct (phys_in_cases _ _ _ _ _ Hc Hy) as [[H1 H2]|[->|[H1 H2]]]; try lia.
  left. rewrite <- app_cons_assoc in Hc.
  destruct (phys_split _ _ _ _ Hc) as [HA _].
  apply in_app_iff in H1. simpl in H1. destruct H1 as [H1|[<-|[]]]; [|lia].
  apply Z.lt_le_incl, HA, H1.
Qed.

Lemma used_ctx N h pl fl t c :
  Wf N h pl fl t -> used pl fl c ->
  exists A p n B,
    pl = A ++ p :: c :: n :: B /\
    UMM_NBLOCK h c = n /\ UMM_PBLOCK h c = p /\
    0 <= p < c /\ c < n <= t /\
    plink h p c /\ plink h c n.
Proof.
  intros W U. destruct (wf_used_ne _ _ _ _ _ W c U) as [H0 Ht].
  pose proof (wf_used_clear _ _ _ _ _ W c U) as Hcl.
  destruct (wf_phys_ctx _ _ _ _ _ W c (proj1 U) H0 Ht)
    as (A & p & n & B & E & Hpc & Hcn & Hp0 & Hnt).
  exists A, p, n, B. pose proof Hpc as (P1 & P2 & P3 & P4).
  pose proof Hcn as (Q1 & Q2 & Q3 & Q4).
  repeat split; try assumption; try lia.
Qed.

Lemma payload_geom N h pl fl t u w :
  Wf N h pl fl t -> used pl fl u -> payload h u w ->
  exists n, UMM_NBLOCK h u = n /\ 0 < u < n /\ n <= t /\
            4 * u + 2 <= w < 4 * n /\
            (forall x, In x pl -> x <= u \/ n <= x).
Proof.
  intros W U Hw.
  destruct (used_ctx _ _ _ _ _ _ W U) as (A & p & n & B & E & Hn & Hp & R1 & R2 & _).
  exists n. unfold payload in Hw. rewrite Hn in Hw.
  repeat split; try lia; try assumption.
  intros x Hx. apply (wf_extent _ _ _ _ _ (A ++ [p]) u n B W); [|exact Hx].
  rewrite <- app_cons_assoc. exact E.
Qed.

(** Reading through the accessor-level setters. *)
Lemma rd_set_NB h b v w : w <> 4 * b -> rd (set_NBLOCK h b v) w = rd h w.
Proof. intros. apply rd_wr_other. lia. Qed.
Lemma rd_set_PB h b v w : w <> 4 * b + 1 -> rd (set_PBLOCK h b v) w = rd h w.
Proof. intros. apply rd_wr_other. lia. Qed.
Lemma rd_set_NF h b v w : w <> 4 * b + 2 -> rd (set_NFREE h b v) w = rd h w.
Proof. intros. apply rd_wr_other. lia. Qed.
Lemma rd_set_PF h b v w : w <> 4 * b + 3 -> rd (set_PFREE h b v) w = rd h w.
Proof. intros. apply rd_wr_other. lia. Qed.

Ltac rd_frame :=
  repeat first
    [ rewrite rd_set_NB by lia | rewrite rd_set_PB by lia
    | rewrite rd_set_NF by lia | rewrite rd_set_PF by lia
    | rewrite rd_wr_other by lia ].

Ltac in_list := rewrite ?in_app_iff; simpl; tauto.

(** [same_as a b]: [a] and [b] are provably equal; replace [a] by [b]. *)
Ltac same_as a b :=
  let E := fresh "E" in
  assert (E : a = b) by lia; rewrite E in *; clear E.

(** ** Coalescing with the next block *)

Section AssimilateUp.
Variables (N : Z) (h : heap) (pl fl : list Z) (t c : Z).
Hypothesis W : Wf N h pl fl t.
Hypothesis U : used pl fl c.

Lemma assimilate_up_wf :
  exists pl' fl',
    Wf N (umm_assimilate_up h c) pl' fl' t /\
    used pl' fl' c /\
    UMM_PBLOCK (umm_assimilate_up h c) c = UMM_PBLOCK h c /\
    UMM_NBLOCK h c <= UMM_NBLOCK (umm_assimilate_up h c) c /\
    UMM_NBLOCK (umm_assimilate_up h c)
               (UMM_NBLOCK (umm_assimilate_up h c) c) < 32768 /\
    (forall u, used pl fl u <-> used pl' fl' u) /\
    (forall u, used pl fl u -> u <> c ->
               UMM_NBLOCK (umm_assimilate_up h c) u = UMM_NBLOCK h u) /\
    (forall u w, used pl fl u -> payload h u w ->
                 rd (umm_assimilate_up h c) w = rd h w).
Proof.
  destruct (used_ctx _ _ _ _ _ _ W U)
    as (A & p & n & B & E & Hn & Hp & Rp & Rn & Lpc & Lcn).
  pose proof (wf_t _ _ _ _ _ W) as Ht. pose proof (wf_N _ _ _ _ _ W) as HN.
  pose proof (wf_words _ _ _ _ _ W) as Hw.
  assert (Hnpl : In n pl) by (rewrite E; apply in_or_app; simpl; auto).
  destruct (Z.lt_ge_cases (UMM_NBLOCK h n) 32768) as [Hclear|Hflag].
  - (* the next block is in use, or is the last block *)
    assert (Eq : umm_assimilate_up h c = h).
    { unfold umm_assimilate_up. rewrite Hn.
      assert (Z.land (UMM_NBLOCK h n) UMM_FREELIST_MASK = 0) as ->; [|reflexivity].
      destruct (Z.eq_dec n t) as [->|Hnt].
      - rewrite (wf_nbt _ _ _ _ _ W). reflexivity.
      - destruct (wf_phys_ctx _ _ _ _ _ W n Hnpl ltac:(lia) Hnt)
          as (A' & p' & nn & B' & _ & _ & (L1 & L2 & _) & _ & Hnn).
        apply flag_bit_clear. lia. }
    rewrite Eq. exists pl, fl.
    split; [exact W|]. split; [exact U|]. split; [reflexivity|]. split; [lia|].
    split; [rewrite Hn; exact Hclear|]. split; [tauto|]. auto.
  - (* the next block is free: unlink it and absorb it *)
    assert (Hnt : n <> t).
    { intros ->. rewrite (wf_nbt _ _ _ _ _ W) in Hflag. lia. }
    assert (Hnfl : In n fl) by (apply (wf_flag _ _ _ _ _ W); auto).
    destruct (list_after_nonlast pl (A ++ [p; c]) B n 0) as (nn & B' & ->).
    { rewrite E. rewrite <- app_assoc. reflexivity. }
    { rewrite (wf_plast _ _ _ _ _ W). congruence. }
    pose proof (wf_phys _ _ _ _ _ W) as Hch. rewrite E in Hch.
    assert (Lnn : plink h n nn).
    { replace (A ++ p :: c :: n :: nn :: B') with ((A ++ [p; c]) ++ n :: nn :: B') in Hch
        by (rewrite <- app_assoc; reflexivity).
      apply (chain_mid _ _ _ _ _ Hch). }
    assert (Hnnpl : In nn pl) by (rewrite E; in_list).
    pose proof (wf_pl_range _ _ _ _ _ W _ Hnnpl) as Rnn.
    destruct Lnn as (Q1 & Q2 & Q3 & Q4).
    assert (Hnb : UMM_NBLOCK h n = nn + 32768) by lia.
    destruct (disconnect_wf N h pl fl t n W Hnfl ltac:(lia) Hnt)
      as (fl1 & FA & fp & fn & FB & m & Efl & Efl1 & Hm & Eq1 & W1).
    assert (m = nn) by lia. subst m. rewrite Eq1 in W1.
    set (h1 := set_NBLOCK (set_PFREE (set_NFREE h fp fn) fn fp) n nn) in *.
    assert (Eq : umm_assimilate_up h c = set_NBLOCK (set_PBLOCK h1 nn c) c nn).
    { unfold umm_assimilate_up. rewrite Hn, Hnb. unfold UMM_FREELIST_MASK.
      rewrite flag_flagged by lia. cbn [Z.eqb]. rewrite Eq1. fold h1.
      assert (UMM_NBLOCK h1 c = n) as -> by (unfold h1; hsimp; exact Hn).
      assert (UMM_NBLOCK h1 n = nn) as -> by (unfold h1; hsimp; reflexivity).
      unfold UMM_BLOCKNO_MASK. rewrite mask_small by lia.
      assert (UMM_NBLOCK (set_PBLOCK h1 nn c) c = n) as ->
          by (unfold h1; hsimp; exact Hn).
      assert (UMM_NBLOCK (set_PBLOCK h1 nn c) n = nn) as ->
          by (unfold h1; hsimp; reflexivity).
      rewrite mask_small by lia. reflexivity. }
    rewrite Eq. clear Eq.
    assert (Hw1 : words h1 = 4 * N) by apply (wf_words _ _ _ _ _ W1).
    assert (NB1 : forall x, x <> n -> UMM_NBLOCK h1 x = UMM_NBLOCK h x)
      by (intros; unfold h1; hsimp; reflexivity).
    assert (PB1 : forall x, UMM_PBLOCK h1 x = UMM_PBLOCK h x)
      by (intros; unfold h1; hsimp; reflexivity).
    set (h' := set_NBLOCK (set_PBLOCK h1 nn c) c nn).
    assert (NB' : forall x, x <> c -> UMM_NBLOCK h' x = UMM_NBLOCK h1 x)
      by (intros; unfold h'; hsimp; reflexivity).
    assert (NBc : UMM_NBLOCK h' c = nn) by (unfold h'; hsimp; reflexivity).
    assert (PB' : forall x, x <> nn -> UMM_PBLOCK h' x = UMM_PBLOCK h1 x)
      by (intros; unfold h'; hsimp; reflexivity).
    assert (PBnn : UMM_PBLOCK h' nn = c) by (unfold h'; hsimp; reflexivity).
    assert (NF' : forall x, UMM_NFREE h' x = UMM_NFREE h1 x)
      by (intros; unfold h'; hsimp; reflexivity).
    assert (PF' : forall x, UMM_PFREE h' x = UMM_PFREE h1 x)
      by (intros; unfold h'; hsimp; reflexivity).
    pose proof (wf_phys _ _ _ _ _ W1) as Hch1. rewrite E in Hch1.
    destruct (phys_split _ _ _ _ Hch) as [SA _].
    assert (SB : forall b, In b B' -> nn < b).
    { replace (A ++ p :: c :: n :: nn :: B') with ((A ++ [p; c; n]) ++ nn :: B') in Hch
        by (rewrite <- app_assoc; reflexivity).
      apply (phys_split _ _ _ _ Hch). }
    assert (Hin' : forall x, In x (A ++ p :: c :: nn :: B') <-> In x pl /\ x <> n).
    { intros x. rewrite E, !in_app_iff. simpl. split.
      - intros [Hx|[<-|[<-|[<-|Hx]]]]; (split; [tauto|]); try lia.
        + specialize (SA x Hx). lia.
        + specialize (SB x Hx). lia.
      - intros [[Hx|[<-|[<-|[<-|[<-|Hx]]]]] Hne]; tauto. }
    exists (A ++ p :: c :: nn :: B'), fl1.
    assert (W' : Wf N h' (A ++ p :: c :: nn :: B') fl1 t).
    { constructor.
      - unfold h'. hsimp. exact Hw1.
      - exact HN.
      - exact Ht.
      - pose proof (wf_phd _ _ _ _ _ W) as Hhd. rewrite E in Hhd.
        destruct A; exact Hhd.
      - pose proof (wf_plast _ _ _ _ _ W) as Hl. rewrite E in Hl.
        replace (A ++ p :: c :: n :: nn :: B') with ((A ++ [p; c; n]) ++ nn :: B') in Hl
          by (rewrite <- app_assoc; reflexivity).
        replace (A ++ p :: c :: nn :: B') with ((A ++ [p; c]) ++ nn :: B')
          by (rewrite <- app_assoc; reflexivity).
        rewrite last_app_keep in Hl |- *. exact Hl.
      - apply (wf_fhd _ _ _ _ _ W1).
      - apply (wf_flast _ _ _ _ _ W1).
      - apply (phys_replace h1 h' A p [c; n] [c] nn B' Hch1).
        + intros x Hx. rewrite NB', PB' by lia. auto.
        + intros x Hx. apply NB'. lia.
        + intros x Hx. apply PB'. lia.
        + apply chain_mid with (l1 := A) in Hch1 as L1.
          destruct L1 as (L1 & L2 & L3 & L4).
          simpl. unfold plink. rewrite NBc, PBnn, NB', PB' by lia.
          repeat split; auto; lia.
      - generalize (wf_free _ _ _ _ _ W1). apply chain_frame.
        intros a b _ _. unfold flink. rewrite NF', PF'. auto.
      - apply (wf_nodup _ _ _ _ _ W1).
      - intros x. rewrite Hin'. rewrite (wf_flag _ _ _ _ _ W1 x).
        destruct (Z.eq_dec x c) as [->|Hxc].
        + rewrite NBc. assert (UMM_NBLOCK h1 c = n) as -> by (rewrite NB1; lia).
          intuition lia.
        + rewrite NB' by assumption.
          destruct (Z.eq_dec x n) as [->|Hxn]; [|tauto].
          assert (UMM_NBLOCK h1 n = nn) as -> by (unfold h1; hsimp; reflexivity).
          intuition lia.
      - rewrite NB' by lia. apply (wf_nb0 _ _ _ _ _ W1).
      - rewrite NB' by lia. apply (wf_nbt _ _ _ _ _ W1).
      - rewrite NF'. apply (wf_nft _ _ _ _ _ W1). }
    assert (Hsub : forall x, In x fl1 -> In x fl).
    { intros x Hx. rewrite Efl1 in Hx. rewrite Efl.
      rewrite in_app_iff in Hx |- *. simpl in Hx |- *. tauto. }
    assert (Hused : forall u, used pl fl u <-> used (A ++ p :: c :: nn :: B') fl1 u).
    { intros u. unfold used. rewrite Hin'. rewrite Efl, Efl1, !in_app_iff. simpl.
      split.
      - intros [U1 U2]. split; [split; [exact U1|]|tauto]. intros ->. tauto.
      - intros [[U1 U2] U3]. split; [exact U1|]. intuition congruence. }
    split; [exact W'|]. split; [apply Hused, U|].
    split; [rewrite PB', PB1 by lia; reflexivity|].
    split; [rewrite NBc; lia|].
    split.
    { rewrite NBc. destruct (Z.eq_dec nn t) as [->|Hnnt].
      - rewrite (wf_nbt _ _ _ _ _ W'). lia.
      - rewrite NB', NB1 by lia. lia. }
    split; [exact Hused|].
    split.
    { intros u Hu Huc. rewrite NB' by assumption. apply NB1.
      intros ->. apply (proj2 Hu), Hnfl. }
    intros u w Hu Hpay.
    destruct (payload_geom _ _ _ _ _ _ _ W Hu Hpay) as (nu & Hnu & R1 & R2 & R3 & Hext).
    assert (Hfp : In fp pl).
    { apply (wf_fl_sub _ _ _ _ _ W). rewrite Efl. apply in_or_app. simpl. auto. }
    assert (Hfn : In fn pl).
    { apply (wf_fl_sub _ _ _ _ _ W). rewrite Efl. apply in_or_app. simpl. auto. }
    assert (fp <> u /\ fn <> u /\ n <> u) as (D1 & D2 & D3).
    { repeat split; intros ->; apply (proj2 Hu); rewrite Efl;
        apply in_or_app; simpl; auto. }
    pose proof (Hext fp Hfp). pose proof (Hext fn Hfn).
    pose proof (Hext n Hnpl). pose proof (Hext nn Hnnpl). pose proof (Hext c (proj1 U)).
    unfold h', h1. rd_frame. reflexivity.
Qed.
End AssimilateUp.

(** ** Releasing a block *)

Lemma wf_fl_shape N h pl fl t :
  Wf N h pl fl t -> exists f1 r, fl = 0 :: f1 :: r /\ f1 <> 0.
Proof.
  intros W. destruct (wf_fl_cons _ _ _ _ _ W) as [r E].
  pose proof (wf_flast _ _ _ _ _ W) as Hl. pose proof (wf_t _ _ _ _ _ W) as Ht.
  pose proof (wf_nodup _ _ _ _ _ W) as Hnd.
  rewrite E in Hl, Hnd. destruct r as [|f1 r]; [simpl in Hl; lia|].
  exists f1, r. split; [exact E|]. intros ->. inversion Hnd as [|? ? Hn _].
  apply Hn. simpl. auto.
Qed.

Section FreeBlock.
Variables (N : Z) (h : heap) (pl fl : list Z) (t c : Z).
Hypothesis W : Wf N h pl fl t.
Hypothesis U : used pl fl c.

Lemma free_block_wf :
  exists pl' fl',
    Wf N (free_block h c) pl' fl' t /\
    ~ used pl' fl' c /\
    (forall u, used pl fl u -> u <> c ->
       used pl' fl' u /\ UMM_NBLOCK (free_block h c) u = UMM_NBLOCK h u) /\
    (forall u, used pl' fl' u -> used pl fl u) /\
    (forall u w, used pl fl u -> u <> c -> payload h u w ->
       rd (free_block h c) w = rd h w) /\
    (exists x nx, In x fl' /\ x <> 0 /\ x <> t /\ x <= c /\
                  UMM_NBLOCK (free_block h c) x = nx + 32768 /\
                  UMM_NBLOCK h c <= nx).
Proof.
  destruct (assimilate_up_wf N h pl fl t c W U)
    as (pl1 & fl1 & W1 & U1 & HPB & HNB & Hsucc & Hused1 & HNB1 & Hfr1).
  unfold free_block. set (h1 := umm_assimilate_up h c) in *.
  destruct (used_ctx _ _ _ _ _ _ W1 U1)
    as (A & p & n & B & E & Hn & Hp & Rp & Rn & Lpc & Lcn).
  pose proof (wf_t _ _ _ _ _ W1) as Ht. pose proof (wf_N _ _ _ _ _ W1) as HN.
  pose proof (wf_words _ _ _ _ _ W1) as Hw.
  rewrite Hn in Hsucc.
  assert (Hppl : In p pl1) by (rewrite E; in_list).
  assert (Hnpl : In n pl1) by (rewrite E; in_list).
  pose proof (wf_phys _ _ _ _ _ W1) as Hch. rewrite E in Hch.
  destruct (phys_split _ _ _ _ Hch) as [SA _].
  assert (SB : forall b, In b B -> n < b).
  { replace (A ++ p :: c :: n :: B) with ((A ++ [p; c]) ++ n :: B) in Hch
      by (rewrite <- app_assoc; reflexivity).
    apply (phys_split _ _ _ _ Hch). }
  rewrite Hp.
  destruct Lpc as (P1 & P2 & P3 & P4). destruct Lcn as (Q1 & Q2 & Q3 & Q4).
  destruct (Z.lt_ge_cases (UMM_NBLOCK h1 p) 32768) as [Hpclear|Hpflag].
  - (* the previous block is in use: insert at the head of the free list *)
    assert (Hnbp : UMM_NBLOCK h1 p = c) by lia.
    rewrite Hnbp. unfold UMM_FREELIST_MASK. rewrite flag_bit_clear by lia.
    cbn [Z.eqb].
    destruct (wf_fl_shape _ _ _ _ _ W1) as (f1 & r & Efl & Hf10).
    pose proof (wf_free _ _ _ _ _ W1) as Hfc. rewrite Efl in Hfc.
    destruct Hfc as [[F1 F2] Hfc].
    assert (Hf1fl : In f1 fl1) by (rewrite Efl; in_list).
    pose proof (wf_pl_range _ _ _ _ _ W1 _ (wf_fl_sub _ _ _ _ _ W1 _ Hf1fl)) as Rf1.
    assert (Hcf1 : c <> f1) by (intros <-; apply (proj2 U1), Hf1fl).
    pose proof (wf_nodup _ _ _ _ _ W1) as Hnd. rewrite Efl in Hnd.
    rewrite F1. hsimp. rewrite F1. hsimp. rewrite Hn.
    rewrite <- add_flag_lor by lia.
    set (h' := set_NBLOCK
                 (set_NFREE (set_PFREE (set_NFREE (set_PFREE h1 f1 c) c f1) c 0) 0 c)
                 c (n + 32768)).
    assert (NB' : forall x, x <> c -> UMM_NBLOCK h' x = UMM_NBLOCK h1 x)
      by (intros; unfold h'; hsimp; reflexivity).
    assert (NBc : UMM_NBLOCK h' c = n + 32768) by (unfold h'; hsimp; reflexivity).
    assert (PB' : forall x, UMM_PBLOCK h' x = UMM_PBLOCK h1 x)
      by (intros; unfold h'; hsimp; reflexivity).
    assert (NF' : forall x, x <> c -> x <> 0 -> UMM_NFREE h' x = UMM_NFREE h1 x)
      by (intros; unfold h'; hsimp; reflexivity).
    assert (PF' : forall x, x <> c -> x <> f1 -> UMM_PFREE h' x = UMM_PFREE h1 x)
      by (intros; unfold h'; hsimp; reflexivity).
    exists pl1, (0 :: c :: f1 :: r).
    assert (W' : Wf N h' pl1 (0 :: c :: f1 :: r) t).
    { constructor.
      - unfold h'. hsimp. exact Hw.
      - exact HN.
      - exact Ht.
      - apply (wf_phd _ _ _ _ _ W1).
      - apply (wf_plast _ _ _ _ _ W1).
      - reflexivity.
      - pose proof (wf_flast _ _ _ _ _ W1) as Hl. rewrite Efl in Hl. exact Hl.
      - generalize (wf_phys _ _ _ _ _ W1). apply chain_frame.
        intros a b Ha Hb (H1 & H2 & H3 & H4).
        pose proof (wf_pl_range _ _ _ _ _ W1 _ Ha).
        pose proof (wf_pl_range _ _ _ _ _ W1 _ Hb).
        unfold plink. rewrite PB'.
        destruct (Z.eq_dec a c) as [Ea|Na], (Z.eq_dec b c) as [Eb|Nb];
          try rewrite Ea in *; try rewrite Eb in *;
          rewrite ?NBc, ?NB' by assumption; try lia;
          first [ same_as b n; lia | same_as a p; lia ].
      - split; [|split].
        + unfold flink, h'. hsimp. auto.
        + unfold flink, h'. hsimp. auto.
        + apply free_frame with (h := h1); [exact Hfc| |].
          * intros x Hx. apply in_removelast in Hx. apply NF'.
            -- intros ->. apply (proj2 U1). rewrite Efl. right. exact Hx.
            -- intros ->. inversion Hnd as [|? ? Hn0 _]. apply Hn0, Hx.
          * intros x Hx. simpl in Hx. apply PF'.
            -- intros ->. apply (proj2 U1). rewrite Efl. right. right. exact Hx.
            -- intros ->. inversion Hnd as [|? ? _ Hnd2].
               inversion Hnd2 as [|? ? Hn1 _]. apply Hn1, Hx.
      - inversion Hnd as [|? ? Hn0 Hnd2]. constructor; [|constructor].
        + simpl. intros [?|?]; [lia|]. apply Hn0. assumption.
        + intros Hx. apply (proj2 U1). rewrite Efl. right. exact Hx.
        + exact Hnd2.
      - intros x. pose proof (wf_flag _ _ _ _ _ W1 x) as Hfl. rewrite Efl in Hfl.
        simpl in Hfl |- *.
        destruct (Z.eq_dec x c) as [->|Hxc].
        + rewrite NBc. split; [intros _|auto]. split; [apply U1|lia].
        + rewrite NB' by assumption. intuition congruence.
      - rewrite NB' by lia. apply (wf_nb0 _ _ _ _ _ W1).
      - rewrite NB' by lia. apply (wf_nbt _ _ _ _ _ W1).
      - rewrite NF' by lia. apply (wf_nft _ _ _ _ _ W1). }
    split; [exact W'|]. split; [intros [_ Hx]; apply Hx; simpl; auto|].
    split.
    { intros u Hu Huc. destruct (proj1 (Hused1 u) Hu) as [V1 V2]. split; [split|].
      - exact V1.
      - rewrite Efl in V2. simpl in V2 |- *. intuition congruence.
      - rewrite NB' by assumption. apply HNB1; assumption. }
    split.
    { intros u [V1 V2]. apply Hused1. split; [exact V1|].
      intros Hx. apply V2. rewrite Efl in Hx. simpl in Hx |- *. tauto. }
    split; [|exists c, n; destruct (wf_used_ne _ _ _ _ _ W1 c U1);
              repeat split; [simpl; auto|assumption|assumption|lia|exact NBc|lia]].
    intros u w Hu Huc Hpay. rewrite <- (Hfr1 u w Hu Hpay).
    assert (Hu1 : used pl1 fl1 u) by (apply Hused1, Hu).
    assert (Hpay1 : payload h1 u w).
    { unfold payload in *. rewrite HNB1 by assumption. exact Hpay. }
    destruct (payload_geom _ _ _ _ _ _ _ W1 Hu1 Hpay1)
      as (nu & Hnu & R1 & R2 & R3 & Hext).
    assert (f1 <> u) by (intros ->; apply (proj2 Hu1), Hf1fl).
    pose proof (Hext f1 (wf_fl_sub _ _ _ _ _ W1 _ Hf1fl)).
    pose proof (Hext c (proj1 U1)).
    unfold h'. rd_frame. reflexivity.
  - (* the previous block is free: it absorbs the block *)
    assert (Hnbp : UMM_NBLOCK h1 p = c + 32768) by lia.
    assert (Hp0 : p <> 0).
    { intros ->. pose proof (wf_nb0 _ _ _ _ _ W1). lia. }
    assert (Hpfl : In p fl1) by (apply (wf_flag _ _ _ _ _ W1); auto).
    destruct (list_before_nonhead pl1 A (c :: n :: B) p 1 E) as (A' & pp & ->).
    { rewrite (wf_phd _ _ _ _ _ W1). congruence. }
    rewrite <- app_assoc in E, Hch. simpl in E, Hch.
    pose proof (chain_mid _ _ _ _ _ Hch) as (R1 & R2 & R3 & R4).
    assert (Hpppl : In pp pl1) by (rewrite E; in_list).
    pose proof (wf_pl_range _ _ _ _ _ W1 _ Hpppl) as Rpp.
    rewrite Hnbp. unfold UMM_FREELIST_MASK. rewrite flag_flagged by lia.
    cbn [Z.eqb]. unfold umm_assimilate_down. cbn [fst].
    rewrite Hp, Hn. hsimp. rewrite Hn, Hp. rewrite <- add_flag_lor by lia.
    set (h' := set_PBLOCK (set_NBLOCK h1 p (n + 32768)) n p).
    assert (NB' : forall x, x <> p -> UMM_NBLOCK h' x = UMM_NBLOCK h1 x)
      by (intros; unfold h'; hsimp; reflexivity).
    assert (NBp : UMM_NBLOCK h' p = n + 32768) by (unfold h'; hsimp; reflexivity).
    assert (PB' : forall x, x <> n -> UMM_PBLOCK h' x = UMM_PBLOCK h1 x)
      by (intros; unfold h'; hsimp; reflexivity).
    assert (PBn : UMM_PBLOCK h' n = p) by (unfold h'; hsimp; reflexivity).
    assert (NF' : forall x, UMM_NFREE h' x = UMM_NFREE h1 x)
      by (intros; unfold h'; hsimp; reflexivity).
    assert (PF' : forall x, UMM_PFREE h' x = UMM_PFREE h1 x)
      by (intros; unfold h'; hsimp; reflexivity).
    destruct (phys_split _ _ _ _ Hch) as [SA' _].
    assert (Hin' : forall x, In x (A' ++ pp :: p :: n :: B) <-> In x pl1 /\ x <> c).
    { intros x. rewrite E, !in_app_iff. simpl. split.
      - intros [Hx|[<-|[<-|[<-|Hx]]]]; (split; [tauto|]); try lia.
        + specialize (SA' x Hx). lia.
        + specialize (SB x Hx). lia.
      - intros [[Hx|[<-|[<-|[<-|[<-|Hx]]]]] Hne]; tauto. }
    exists (A' ++ pp :: p :: n :: B), fl1.
    assert (W' : Wf N h' (A' ++ pp :: p :: n :: B) fl1 t).
    { constructor.
      - unfold h'. hsimp. exact Hw.
      - exact HN.
      - exact Ht.
      - pose proof (wf_phd _ _ _ _ _ W1) as Hhd. rewrite E in Hhd.
        destruct A'; exact Hhd.
      - pose proof (wf_plast _ _ _ _ _ W1) as Hl. rewrite E in Hl.
        replace (A' ++ pp :: p :: c :: n :: B) with ((A' ++ [pp; p; c]) ++ n :: B) in Hl
          by (rewrite <- app_assoc; reflexivity).
        replace (A' ++ pp :: p :: n :: B) with ((A' ++ [pp; p]) ++ n :: B)
          by (rewrite <- app_assoc; reflexivity).
        rewrite last_app_keep in Hl |- *. exact Hl.
      - apply (wf_fhd _ _ _ _ _ W1).
      - apply (wf_flast _ _ _ _ _ W1).
      - apply (phys_replace h1 h' A' pp [p; c] [p] n B Hch).
        + intros x Hx. rewrite NB', PB' by lia. auto.
        + intros x Hx. apply NB'. lia.
        + intros x Hx. apply PB'. lia.
        + simpl. unfold plink. rewrite NBp, PBn, !NB', !PB' by lia.
          repeat split; auto; lia.
      - generalize (wf_free _ _ _ _ _ W1). apply chain_frame.
        intros a b _ _. unfold flink. rewrite NF', PF'. auto.
      - apply (wf_nodup _ _ _ _ _ W1).
      - intros x. rewrite Hin'. rewrite (wf_flag _ _ _ _ _ W1 x).
        destruct (Z.eq_dec x p) as [->|Hxp].
        + rewrite NBp. intuition lia.
        + rewrite NB' by assumption.
          destruct (Z.eq_dec x c) as [->|Hxc]; [|tauto].
          intuition lia.
      - rewrite NB' by lia. apply (wf_nb0 _ _ _ _ _ W1).
      - rewrite NB' by lia. apply (wf_nbt _ _ _ _ _ W1).
      - rewrite NF'. apply (wf_nft _ _ _ _ _ W1). }
    split; [exact W'|]. split; [intros [Hx _]; apply Hin' in Hx; tauto|].
    split.
    { intros u Hu Huc. pose proof (proj1 (Hused1 u) Hu) as [V1 V2]. split; [split|].
      - apply Hin'. auto.
      - exact V2.
      - rewrite NB'; [apply HNB1; assumption|]. intros ->. contradiction. }
    split.
    { intros u [V1 V2]. apply Hused1. split; [|exact V2]. apply Hin' in V1. tauto. }
    split; [|exists p, n; repeat split; [exact Hpfl|assumption|lia|lia|exact NBp|lia]].
    intros u w Hu Huc Hpay. rewrite <- (Hfr1 u w Hu Hpay).
    assert (Hu1 : used pl1 fl1 u) by (apply Hused1, Hu).
    assert (Hpay1 : payload h1 u w).
    { unfold payload in *. rewrite HNB1 by assumption. exact Hpay. }
    destruct (payload_geom _ _ _ _ _ _ _ W1 Hu1 Hpay1)
      as (nu & Hnu & G1 & G2 & G3 & Hext).
    pose proof (Hext p Hppl). pose proof (Hext n Hnpl).
    unfold h'. rd_frame. reflexivity.
Qed.
End FreeBlock.

(** ** The best-fit scan *)

Lemma best_of_spec h blocks l bb bs :
  let r := best_of h blocks l bb bs in
  (r = (bb, bs) /\ forall x, In x l -> span h x < blocks \/ bs <= span h x) \/
  (exists l1 l2,
      l = l1 ++ fst r :: l2 /\ snd r = span h (fst r) /\
      blocks <= snd r < bs /\
      (forall x, In x l1 -> span h x < blocks \/ snd r < span h x) /\
      (forall x, In x l2 -> span h x < blocks \/ snd r <= span h x)).
Proof.
  revert bb bs. induction l as [|c l IH]; intros bb bs; simpl.
  - left. split; [reflexivity|]. tauto.
  - destruct (Z.leb_spec blocks (span h c)) as [H1|H1];
      [destruct (Z.ltb_spec (span h c) bs) as [H2|H2]|]; simpl.
    + right. destruct (IH c (span h c)) as [[E Hall]|(l1 & l2 & E & Hs & Hr & Hl1 & Hl2)].
      * rewrite E. simpl. exists [], l. repeat split; auto; try lia. simpl. tauto.
      * exists (c :: l1), l2. rewrite E at 1. repeat split; auto; try lia.
        intros x [<-|Hx]; [lia|auto].
    + destruct (IH bb bs) as [[E Hall]|(l1 & l2 & E & Hs & Hr & Hl1 & Hl2)].
      * left. split; [exact E|]. intros x [<-|Hx]; [lia|auto].
      * right. exists (c :: l1), l2. rewrite E at 1. repeat split; auto; try lia.
        intros x [<-|Hx]; [lia|auto].
    + destruct (IH bb bs) as [[E Hall]|(l1 & l2 & E & Hs & Hr & Hl1 & Hl2)].
      * left. split; [exact E|]. intros x [<-|Hx]; [lia|auto].
      * right. exists (c :: l1), l2. rewrite E at 1. repeat split; auto; try lia.
        intros x [<-|Hx]; [lia|auto].
Qed.

Lemma scan_loop_run h blocks t :
  UMM_NFREE h t = 0 ->
  forall mid prev bb bs bz fuel,
    chain (flink h) (prev :: mid ++ [t]) ->
    (forall x, In x mid -> x <> 0 /\ u16 (span h x) = span h x) ->
    t <> 0 ->
    (length mid < fuel)%nat ->
    exists bz',
      scan_loop fuel h blocks (mkScan (UMM_NFREE h prev) bb bs bz) =
      Some (mkScan t (fst (best_of h blocks mid bb bs))
                   (snd (best_of h blocks mid bb bs)) bz').
Proof.
  intros Hnft. induction mid as [|c mid IH]; intros prev bb bs bz fuel Hch Hmid Ht0 Hfuel.
  - simpl in Hch. destruct Hch as [[Hn _] _]. rewrite Hn.
    destruct fuel as [|fuel]; [simpl in Hfuel; lia|].
    simpl. rewrite Hnft. simpl. eauto.
  - simpl in Hch. destruct Hch as [[Hn _] Hch]. rewrite Hn.
    destruct fuel as [|fuel]; [simpl in Hfuel; lia|].
    destruct (Hmid c (or_introl eq_refl)) as [Hc0 Hsp].
    assert (Hnext : UMM_NFREE h c <> 0).
    { destruct mid as [|d mid]; simpl in Hch; destruct Hch as [[Hd _] _]; rewrite Hd.
      - exact Ht0.
      - apply (Hmid d). simpl. auto. }
    cbn [scan_loop s_cf s_bestBlock s_bestSize s_blockSize].
    destruct (Z.eqb_spec (UMM_NFREE h c) 0) as [?|_]; [contradiction|].
    fold (span h c). rewrite Hsp.
    cbn [best_of].
    destruct ((blocks <=? span h c) && (span h c <? bs)).
    + apply IH; auto.
      * intros x Hx. apply Hmid. right. exact Hx.
      * simpl in Hfuel. lia.
    + apply IH; auto.
      * intros x Hx. apply Hmid. right. exact Hx.
      * simpl in Hfuel. lia.
Qed.

(** ** The shape of the free list *)

Lemma wf_fl_mid N h pl fl t :
  Wf N h pl fl t -> exists mid, fl = 0 :: mid ++ [t].
Proof.
  intros W. destruct (wf_fl_shape _ _ _ _ _ W) as (f1 & r & E & _).
  pose proof (wf_flast _ _ _ _ _ W) as Hl. rewrite E in Hl.
  change (last (0 :: f1 :: r) 0) with (last (f1 :: r) 0) in Hl.
  destruct (exists_last (l := f1 :: r)) as (mid & x & Ex); [discriminate|].
  rewrite Ex in Hl. rewrite last_last in Hl. subst x.
  exists mid. rewrite E, Ex. reflexivity.
Qed.

Lemma wf_mid_block N h pl mid t c :
  Wf N h pl (0 :: mid ++ [t]) t -> In c mid ->
  In c (0 :: mid ++ [t]) /\ c <> 0 /\ c <> t.
Proof.
  intros W Hc. pose proof (wf_nodup _ _ _ _ _ W) as Hnd.
  split; [right; apply in_or_app; auto|].
  inversion Hnd as [|? ? H0 Hnd']. split.
  - intros ->. apply H0. apply in_or_app. auto.
  - intros ->. apply NoDup_remove_2 in Hnd'. apply Hnd'.
    rewrite app_nil_r. exact Hc.
Qed.

Lemma wf_mid_span N h pl mid t c :
  Wf N h pl (0 :: mid ++ [t]) t -> In c mid ->
  exists n, UMM_NBLOCK h c = n + 32768 /\ c < n <= t /\ span h c = n - c.
Proof.
  intros W Hc. destruct (wf_mid_block _ _ _ _ _ _ W Hc) as (H1 & H2 & H3).
  destruct (free_block_flagged N h pl _ t c W H1 H2 H3) as (n & Hn & Rn).
  pose proof (wf_pl_range _ _ _ _ _ W c (wf_fl_sub _ _ _ _ _ W c H1)).
  pose proof (wf_t _ _ _ _ _ W). pose proof (wf_N _ _ _ _ _ W).
  exists n. split; [exact Hn|]. split; [exact Rn|].
  unfold span, UMM_BLOCKNO_MASK. rewrite Hn, mask_flagged by lia. reflexivity.
Qed.

Lemma nodup_bounded_length (l : list Z) n :
  NoDup l -> (forall x, In x l -> 0 <= x < Z.of_nat n) -> (length l <= n)%nat.
Proof.
  intros Hnd Hr.
  apply Nat.le_trans with (length (map Z.of_nat (seq 0 n)));
    [|rewrite length_map, length_seq; apply Nat.le_refl].
  apply NoDup_incl_length; [exact Hnd|].
  intros x Hx. specialize (Hr x Hx). apply in_map_iff.
  exists (Z.to_nat x). split; [lia|]. apply in_seq. lia.
Qed.

Lemma wf_fuel N h pl mid t :
  Wf N h pl (0 :: mid ++ [t]) t -> (length mid < S (length h))%nat.
Proof.
  intros W. pose proof (wf_words _ _ _ _ _ W) as Hw.
  pose proof (wf_t _ _ _ _ _ W) as Ht.
  assert (length (0%Z :: mid ++ [t]) <= Z.to_nat N)%nat.
  { apply nodup_bounded_length; [apply (wf_nodup _ _ _ _ _ W)|].
    intros x Hx. pose proof (wf_pl_range _ _ _ _ _ W x (wf_fl_sub _ _ _ _ _ W x Hx)).
    lia. }
  simpl in H. rewrite length_app in H. simpl in H.
  unfold words in Hw. lia.
Qed.

(** The scan on a well-formed heap ends on the last block with the best fit
    among the free blocks in hand. *)
Lemma scan_wf N h pl mid t blocks :
  Wf N h pl (0 :: mid ++ [t]) t ->
  exists bz,
    scan_loop (S (length h)) h blocks (scan_init h) =
    Some (mkScan t (fst (best_of h blocks mid (UMM_NFREE h 0) 32767))
                 (snd (best_of h blocks mid (UMM_NFREE h 0) 32767)) bz).
Proof.
  intros W. unfold scan_init.
  apply scan_loop_run.
  - apply (wf_nft _ _ _ _ _ W).
  - apply (wf_free _ _ _ _ _ W).
  - intros x Hx. destruct (wf_mid_block _ _ _ _ _ _ W Hx) as (_ & H0 & _).
    split; [exact H0|].
    destruct (wf_mid_span _ _ _ _ _ _ W Hx) as (n & _ & Rn & ->).
    pose proof (wf_t _ _ _ _ _ W). pose proof (wf_N _ _ _ _ _ W).
    pose proof (wf_pl_range _ _ _ _ _ W x
                  (wf_fl_sub _ _ _ _ _ W x (proj1 (wf_mid_block _ _ _ _ _ _ W Hx)))).
    apply u16_small. lia.
  - pose proof (wf_t _ _ _ _ _ W). lia.
  - apply (wf_fuel _ _ _ _ _ W).
Qed.

(** ** Allocation from a free block *)

Section PlaceInside.
Variables (N : Z) (h : heap) (pl fl : list Z) (t c blocks : Z).
Hypothesis W : Wf N h pl fl t.
Hypothesis Hc : In c fl.
Hypothesis Hc0 : c <> 0.
Hypothesis Hct : c <> t.

Lemma place_exact :
  span h c = blocks ->
  malloc_place h blocks c blocks =
    (umm_disconnect_from_free_list h c, Some (data_addr c)) /\
  alloc_ok N h pl fl blocks (umm_disconnect_from_free_list h c) c.
Proof.
  intros Hsp.
  destruct (disconnect_wf N h pl fl t c W Hc Hc0 Hct)
    as (fl1 & FA & fp & fn & FB & n & Efl & Efl1 & Hn & Eq & W1).
  pose proof (wf_t _ _ _ _ _ W) as Ht. pose proof (wf_N _ _ _ _ _ W) as HN.
  pose proof (wf_words _ _ _ _ _ W) as Hw.
  pose proof (wf_fl_sub _ _ _ _ _ W c Hc) as Hcpl.
  pose proof (wf_pl_range _ _ _ _ _ W c Hcpl) as Rc.
  destruct free_block_flagged with (1 := W) (2 := Hc) as (n' & Hn' & Rn); auto.
  same_as n' n.
  assert (Hspan : span h c = n - c).
  { unfold span, UMM_BLOCKNO_MASK. rewrite Hn, mask_flagged by lia. reflexivity. }
  pose proof (wf_nodup _ _ _ _ _ W) as Hnd. rewrite Efl in Hnd.
  destruct (nodup_three _ _ _ _ _ Hnd)
    as (D1 & D2 & D3 & D4 & D5 & D6 & D7 & D8 & D9 & Hnd').
  assert (Hin1 : forall x, In x fl1 <-> In x fl /\ x <> c).
  { intros x. rewrite Efl, Efl1, !in_app_iff. simpl. intuition congruence. }
  split.
  - unfold malloc_place, UMM_BLOCKNO_MASK. rewrite Hn, mask_flagged by lia.
    destruct (Z.eqb_spec n 0); [lia|]. cbn [negb].
    rewrite Z.eqb_refl. reflexivity.
  - exists pl, fl1, t. split; [exact W1|].
    split; [split; [exact Hcpl|rewrite Hin1; tauto]|].
    split; [intros [_ Hx]; contradiction|].
    rewrite Eq.
    split; [hsimp; lia|].
    split.
    { intros u [U1 U2]. split; [split; [exact U1|rewrite Hin1; tauto]|].
      assert (u <> c) by (intros ->; contradiction). hsimp. reflexivity. }
    split.
    { intros u [U1 U2]. destruct (Z.eq_dec u c); [auto|right].
      split; [exact U1|]. rewrite Hin1 in U2. tauto. }
    intros u w Hu Hpay.
    destruct (payload_geom _ _ _ _ _ _ _ W Hu Hpay) as (nu & Hnu & G1 & G2 & G3 & Hext).
    assert (Hfp : In fp fl) by (rewrite Efl; in_list).
    assert (Hfn : In fn fl) by (rewrite Efl; in_list).
    assert (fp <> u /\ fn <> u /\ c <> u) as (E1 & E2 & E3).
    { repeat split; intros ->; apply (proj2 Hu); assumption. }
    pose proof (Hext fp (wf_fl_sub _ _ _ _ _ W _ Hfp)).
    pose proof (Hext fn (wf_fl_sub _ _ _ _ _ W _ Hfn)).
    pose proof (Hext c Hcpl).
    rd_frame. reflexivity.
Qed.
End PlaceInside.

Section PlaceSplit.
Variables (N : Z) (h : heap) (pl fl : list Z) (t c blocks : Z).
Hypothesis W : Wf N h pl fl t.
Hypothesis Hc : In c fl.
Hypothesis Hc0 : c <> 0.
Hypothesis Hct : c <> t.
Hypothesis Hblocks : 1 <= blocks < span h c.

Lemma place_split :
  exists h',
    malloc_place h blocks c (span h c) =
      (h', Some (data_addr (c + span h c - blocks))) /\
    alloc_ok N h pl fl blocks h' (c + span h c - blocks).
Proof.
  pose proof (wf_t _ _ _ _ _ W) as Ht. pose proof (wf_N _ _ _ _ _ W) as HN.
  pose proof (wf_words _ _ _ _ _ W) as Hw.
  pose proof (wf_fl_sub _ _ _ _ _ W c Hc) as Hcpl.
  pose proof (wf_pl_range _ _ _ _ _ W c Hcpl) as Rc.
  destruct (wf_phys_ctx _ _ _ _ _ W c Hcpl Hc0 Hct)
    as (A & p & n & B & E & Lpc & Lcn & Hp0 & Hnt).
  destruct free_block_flagged with (1 := W) (2 := Hc) as (n' & Hn & Rn); auto.
  destruct Lpc as (P1 & P2 & P3 & P4). destruct Lcn as (Q1 & Q2 & Q3 & Q4).
  same_as n' n.
  assert (Hspan : span h c = n - c).
  { unfold span, UMM_BLOCKNO_MASK. rewrite Hn, mask_flagged by lia. reflexivity. }
  rewrite Hspan in *.
  set (s := n - blocks).
  replace (c + (n - c) - blocks) with s by (unfold s; lia).
  assert (Rs : c < s < n) by (unfold s; lia).
  set (h' := set_NBLOCK (set_PBLOCK (set_PBLOCK (set_NBLOCK h s n) s c) n s)
               c (s + 32768)).
  assert (Eq : malloc_place h blocks c (n - c) = (h', Some (data_addr s))).
  { unfold malloc_place, UMM_BLOCKNO_MASK. rewrite Hn, mask_flagged by lia.
    destruct (Z.eqb_spec n 0); [lia|]. cbn [negb].
    destruct (Z.eqb_spec (n - c) blocks); [lia|].
    rewrite u16_small by lia. replace (c + (n - c - blocks)) with s by (unfold s; lia).
    rewrite (u16_small s) by lia.
    unfold umm_make_new_block, UMM_BLOCKNO_MASK, UMM_FREELIST_MASK.
    replace (c + (n - c - blocks)) with s by (unfold s; lia).
    rewrite Hn, mask_flagged by lia. hsimp. rewrite Hn, mask_flagged by lia.
    rewrite <- add_flag_lor by lia. reflexivity. }
  exists h'. split; [exact Eq|]. clear Eq.
  assert (NB' : forall x, x <> c -> x <> s -> UMM_NBLOCK h' x = UMM_NBLOCK h x)
    by (intros; unfold h'; hsimp; reflexivity).
  assert (NBc : UMM_NBLOCK h' c = s + 32768) by (unfold h'; hsimp; reflexivity).
  assert (NBs : UMM_NBLOCK h' s = n) by (unfold h'; hsimp; reflexivity).
  assert (PB' : forall x, x <> s -> x <> n -> UMM_PBLOCK h' x = UMM_PBLOCK h x)
    by (intros; unfold h'; hsimp; reflexivity).
  assert (PBs : UMM_PBLOCK h' s = c) by (unfold h'; hsimp; reflexivity).
  assert (PBn : UMM_PBLOCK h' n = s) by (unfold h'; hsimp; reflexivity).
  assert (NF' : forall x, UMM_NFREE h' x = UMM_NFREE h x)
    by (intros; unfold h'; hsimp; reflexivity).
  assert (PF' : forall x, UMM_PFREE h' x = UMM_PFREE h x)
    by (intros; unfold h'; hsimp; reflexivity).
  pose proof (wf_phys _ _ _ _ _ W) as Hch. rewrite E in Hch.
  assert (Hext : forall x, In x pl -> x <= c \/ n <= x).
  { apply (wf_extent _ _ _ _ _ (A ++ [p]) c n B W).
    rewrite <- app_cons_assoc. exact E. }
  assert (Hspl : ~ In s pl) by (intros Hx; specialize (Hext s Hx); lia).
  assert (Hin' : forall x, In x (A ++ p :: c :: s :: n :: B) <-> In x pl \/ x = s).
  { intros x. rewrite E, !in_app_iff. simpl. intuition congruence. }
  assert (Hnfree : UMM_NBLOCK h n < 32768) by lia.
  exists (A ++ p :: c :: s :: n :: B), fl, t.
  assert (W' : Wf N h' (A ++ p :: c :: s :: n :: B) fl t).
  { constructor.
    - unfold h'. hsimp. exact Hw.
    - exact HN.
    - exact Ht.
    - pose proof (wf_phd _ _ _ _ _ W) as Hhd. rewrite E in Hhd.
      destruct A; exact Hhd.
    - pose proof (wf_plast _ _ _ _ _ W) as Hl. rewrite E in Hl.
      replace (A ++ p :: c :: n :: B) with ((A ++ [p; c]) ++ n :: B) in Hl
        by (rewrite <- app_assoc; reflexivity).
      replace (A ++ p :: c :: s :: n :: B) with ((A ++ [p; c; s]) ++ n :: B)
        by (rewrite <- app_assoc; reflexivity).
      rewrite last_app_keep in Hl |- *. exact Hl.
    - apply (wf_fhd _ _ _ _ _ W).
    - apply (wf_flast _ _ _ _ _ W).
    - apply (phys_replace h h' A p [c] [c; s] n B Hch).
      + intros x Hx. rewrite NB', PB' by lia. auto.
      + intros x Hx. apply NB'; lia.
      + intros x Hx. apply PB'; lia.
      + simpl. unfold plink. rewrite NBc, NBs, PBs, PBn, NB', PB' by lia.
        repeat split; auto; lia.
    - generalize (wf_free _ _ _ _ _ W). apply chain_frame.
      intros a b _ _. unfold flink. rewrite NF', PF'. auto.
    - apply (wf_nodup _ _ _ _ _ W).
    - intros x. rewrite Hin'. rewrite (wf_flag _ _ _ _ _ W x).
      destruct (Z.eq_dec x c) as [->|Hxc]; [rewrite NBc; intuition lia|].
      destruct (Z.eq_dec x s) as [->|Hxs]; [rewrite NBs; intuition lia|].
      rewrite NB' by assumption. intuition lia.
    - rewrite NB' by lia. apply (wf_nb0 _ _ _ _ _ W).
    - rewrite NB' by lia. apply (wf_nbt _ _ _ _ _ W).
    - rewrite NF'. apply (wf_nft _ _ _ _ _ W). }
  split; [exact W'|].
  assert (Hsfl : ~ In s fl) by (intros Hx; apply Hspl, (wf_fl_sub _ _ _ _ _ W), Hx).
  split; [split; [apply Hin'; auto|exact Hsfl]|].
  split; [intros [Hx _]; contradiction|].
  split; [rewrite NBs; unfold s; lia|].
  split.
  { intros u [U1 U2]. split; [split; [apply Hin'; auto|exact U2]|].
    apply NB'; intros ->; contradiction. }
  split.
  { intros u [U1 U2]. apply Hin' in U1. destruct U1 as [U1| ->]; [right|left]; auto.
    split; assumption. }
  intros u w Hu Hpay.
  destruct (payload_geom _ _ _ _ _ _ _ W Hu Hpay) as (nu & Hnu & G1 & G2 & G3 & Hextu).
  assert (c <> u) by (intros ->; apply (proj2 Hu), Hc).
  pose proof (Hextu c Hcpl).
  assert (Hnpl : In n pl) by (rewrite E; in_list).
  pose proof (Hextu n Hnpl). pose proof (Hext u (proj1 Hu)).
  unfold h'. rd_frame. reflexivity.
Qed.
End PlaceSplit.

(** ** Allocation at the end of the heap *)

Lemma copy_block_words h d s : words (copy_block h d s) = words h.
Proof. unfold copy_block. now rewrite !words_wr. Qed.

#[local] Hint Rewrite copy_block_words : heap.

Lemma copy_block_rd h d s w :
  w < 4 * d \/ 4 * d + 3 < w -> rd (copy_block h d s) w = rd h w.
Proof. intros H. unfold copy_block. rewrite !rd_wr_other by lia. reflexivity. Qed.

Lemma copy_block_dst h d s :
  0 <= d -> 4 * d + 3 < words h ->
  UMM_NBLOCK (copy_block h d s) d = UMM_NBLOCK h s /\
  UMM_PBLOCK (copy_block h d s) d = UMM_PBLOCK h s /\
  UMM_NFREE (copy_block h d s) d = UMM_NFREE h s /\
  UMM_PFREE (copy_block h d s) d = UMM_PFREE h s.
Proof.
  intros H0 H1. unfold copy_block, UMM_NBLOCK, UMM_PBLOCK, UMM_NFREE, UMM_PFREE.
  repeat split.
  - rewrite !rd_wr_other by lia. apply rd_wr_same; lia.
  - rewrite !rd_wr_other by lia. apply rd_wr_same; rewrite ?words_wr; lia.
  - rewrite !rd_wr_other by lia. apply rd_wr_same; rewrite ?words_wr; lia.
  - apply rd_wr_same; rewrite ?words_wr; lia.
Qed.

Lemma copy_block_other h d s x :
  x <> d ->
  UMM_NBLOCK (copy_block h d s) x = UMM_NBLOCK h x /\
  UMM_PBLOCK (copy_block h d s) x = UMM_PBLOCK h x /\
  UMM_NFREE (copy_block h d s) x = UMM_NFREE h x /\
  UMM_PFREE (copy_block h d s) x = UMM_PFREE h x.
Proof.
  intros H. unfold UMM_NBLOCK, UMM_PBLOCK, UMM_NFREE, UMM_PFREE.
  repeat split; apply copy_block_rd; lia.
Qed.

Lemma wf_numblocks N h pl fl t : Wf N h pl fl t -> UMM_NUMBLOCKS h = N.
Proof.
  intros W. unfold UMM_NUMBLOCKS. rewrite (wf_words _ _ _ _ _ W).
  replace (4 * N / 4) with N by (rewrite Z.mul_comm, Z.div_mul; lia).
  pose proof (wf_t _ _ _ _ _ W). pose proof (wf_N _ _ _ _ _ W).
  apply u16_small. lia.
Qed.

Lemma wf_fl_end N h pl fl t :
  Wf N h pl fl t ->
  exists FA fp, fl = FA ++ [fp; t] /\ flink h fp t /\ fp <> t /\ ~ In t FA.
Proof.
  intros W. destruct (wf_fl_mid _ _ _ _ _ W) as [mid E].
  destruct (exists_last (l := 0 :: mid)) as (FA & fp & E'); [discriminate|].
  assert (E2 : fl = FA ++ [fp; t]).
  { rewrite E. change (0 :: mid ++ [t]) with ((0 :: mid) ++ [t]).
    rewrite E', <- app_assoc. reflexivity. }
  exists FA, fp. split; [exact E2|].
  pose proof (wf_free _ _ _ _ _ W) as Hch. rewrite E2 in Hch.
  split; [apply (chain_mid _ _ _ _ _ Hch)|].
  pose proof (wf_nodup _ _ _ _ _ W) as Hnd. rewrite E2 in Hnd.
  replace (FA ++ [fp; t]) with ((FA ++ [fp]) ++ t :: []) in Hnd
    by (rewrite <- app_assoc; reflexivity).
  apply NoDup_remove_2 in Hnd. rewrite app_nil_r, in_app_iff in Hnd. simpl in Hnd.
  split; [intros ->|]; tauto.
Qed.

Lemma wf_pl_end N h pl fl t :
  Wf N h pl fl t -> exists P, pl = P ++ [t].
Proof.
  intros W. destruct (wf_pl_cons _ _ _ _ _ W) as [r E].
  destruct (exists_last (l := pl)) as (P & x & Ex); [rewrite E; discriminate|].
  pose proof (wf_plast _ _ _ _ _ W) as Hl. rewrite Ex, last_last in Hl.
  subst x. eauto.
Qed.

Section PlaceEnd.
Variables (N : Z) (h : heap) (pl fl : list Z) (t blocks bz : Z).
Hypothesis W : Wf N h pl fl t.

Lemma place_full :
  0 <= blocks -> N <= t + blocks + 1 -> malloc_place h blocks t bz = (h, None).
Proof.
  intros Hb Hfull. unfold malloc_place.
  rewrite (wf_nbt _ _ _ _ _ W). cbn [Z.land Z.eqb negb].
  rewrite (wf_numblocks _ _ _ _ _ W).
  destruct (Z.leb_spec N (t + blocks + 1)); [reflexivity|lia].
Qed.

Hypothesis Hblocks : 1 <= blocks.
Hypothesis Hroom : t + blocks + 1 < N.

Lemma place_end :
  exists h',
    malloc_place h blocks t bz = (h', Some (data_addr t)) /\
    alloc_ok N h pl fl blocks h' t.
Proof.
  pose proof (wf_t _ _ _ _ _ W) as Ht. pose proof (wf_N _ _ _ _ _ W) as HN.
  pose proof (wf_words _ _ _ _ _ W) as Hw.
  destruct (wf_fl_end _ _ _ _ _ W) as (FA & fp & Efl & [F1 F2] & Hfpt & HtFA).
  destruct (wf_pl_end _ _ _ _ _ W) as (P & Epl).
  assert (Hfpfl : In fp fl) by (rewrite Efl; in_list).
  pose proof (wf_pl_range _ _ _ _ _ W _ (wf_fl_sub _ _ _ _ _ W _ Hfpfl)) as Rfp.
  set (t' := t + blocks).
  assert (Et' : t' = t + blocks) by reflexivity.
  set (h1 := set_NFREE h fp t').
  set (h' := set_PBLOCK (set_NBLOCK (copy_block h1 t' t) t t') t' t).
  assert (Eq : malloc_place h blocks t bz = (h', Some (data_addr t))).
  { unfold malloc_place. rewrite (wf_nbt _ _ _ _ _ W). cbn [Z.land Z.eqb negb].
    rewrite (wf_numblocks _ _ _ _ _ W).
    destruct (Z.leb_spec N (t + blocks + 1)); [lia|].
    destruct (Z.eqb_spec t 0); [lia|].
    rewrite F2. reflexivity. }
  exists h'. split; [exact Eq|]. clear Eq.
  assert (Hw1 : words h1 = 4 * N) by (unfold h1; hsimp; exact Hw).
  destruct (copy_block_dst h1 t' t) as (C1 & C2 & C3 & C4); [lia..|].
  assert (NBt : UMM_NBLOCK h' t = t') by (unfold h'; hsimp; reflexivity).
  assert (NBt' : UMM_NBLOCK h' t' = 0).
  { unfold h'. hsimp. rewrite C1. unfold h1. hsimp. apply (wf_nbt _ _ _ _ _ W). }
  assert (NB' : forall x, x <> t -> x <> t' -> UMM_NBLOCK h' x = UMM_NBLOCK h x).
  { intros x X1 X2. unfold h'. hsimp.
    rewrite (proj1 (copy_block_other h1 t' t x X2)). unfold h1. hsimp. reflexivity. }
  assert (PBt' : UMM_PBLOCK h' t' = t) by (unfold h'; hsimp; reflexivity).
  assert (PB' : forall x, x <> t' -> UMM_PBLOCK h' x = UMM_PBLOCK h x).
  { intros x X2. unfold h'. hsimp.
    destruct (copy_block_other h1 t' t x X2) as (_ & -> & _). unfold h1. hsimp.
    reflexivity. }
  assert (NFt' : UMM_NFREE h' t' = 0).
  { unfold h'. hsimp. rewrite C3. unfold h1. hsimp. apply (wf_nft _ _ _ _ _ W). }
  assert (NFfp : UMM_NFREE h' fp = t').
  { unfold h'. hsimp.
    destruct (copy_block_other h1 t' t fp) as (_ & _ & -> & _); [lia|].
    unfold h1. hsimp. lia. }
  assert (NF' : forall x, x <> fp -> x <> t' -> UMM_NFREE h' x = UMM_NFREE h x).
  { intros x X1 X2. unfold h'. hsimp.
    destruct (copy_block_other h1 t' t x X2) as (_ & _ & -> & _). unfold h1. hsimp.
    reflexivity. }
  assert (PFt' : UMM_PFREE h' t' = fp).
  { unfold h'. hsimp. rewrite C4. unfold h1. hsimp. exact F2. }
  assert (PF' : forall x, x <> t' -> UMM_PFREE h' x = UMM_PFREE h x).
  { intros x X2. unfold h'. hsimp.
    destruct (copy_block_other h1 t' t x X2) as (_ & _ & _ & ->). unfold h1. hsimp.
    reflexivity. }
  assert (Rpl : forall x, In x pl -> 0 <= x <= t) by apply (wf_pl_range _ _ _ _ _ W).
  assert (Rfl : forall x, In x fl -> 0 <= x <= t).
  { intros x Hx. apply Rpl, (wf_fl_sub _ _ _ _ _ W), Hx. }
  pose proof (wf_nodup _ _ _ _ _ W) as Hnd. rewrite Efl in Hnd.
  assert (HfpFA : ~ In fp FA).
  { apply NoDup_remove_2 in Hnd. rewrite in_app_iff in Hnd. tauto. }
  assert (Hinfl : forall x, In x (FA ++ [fp; t']) <-> (In x fl /\ x <> t) \/ x = t').
  { intros x. rewrite Efl, !in_app_iff. simpl. split.
    - intros [Hx|[<-|[<-|[]]]]; auto.
      left. split; [auto|]. intros ->. contradiction.
    - intros [[[Hx|[<-|[<-|[]]]] Hne]| ->]; tauto. }
  exists (pl ++ [t']), (FA ++ [fp; t']), t'.
  assert (W' : Wf N h' (pl ++ [t']) (FA ++ [fp; t']) t').
  { constructor.
    - unfold h'. hsimp. exact Hw1.
    - exact HN.
    - lia.
    - pose proof (wf_phd _ _ _ _ _ W) as Hhd.
      destruct (wf_pl_cons _ _ _ _ _ W) as [r ->]. exact Hhd.
    - apply last_last.
    - pose proof (wf_fhd _ _ _ _ _ W) as Hhd. rewrite Efl in Hhd.
      destruct FA; exact Hhd.
    - rewrite (app_cons_assoc FA fp [t']). apply last_last.
    - rewrite Epl, <- app_assoc. simpl. apply chain_app_iff. split.
      + rewrite <- Epl. generalize (wf_phys _ _ _ _ _ W). apply chain_frame.
        intros a b Ha Hb (H1 & H2 & H3 & H4).
        pose proof (Rpl a Ha). pose proof (Rpl b Hb).
        unfold plink. rewrite (NB' a), (PB' b) by lia.
        repeat split; auto.
        destruct (Z.eq_dec b t) as [->|Hbt].
        * right. rewrite NBt. lia.
        * rewrite NB' by lia. exact H4.
      + simpl. split; [|exact I]. unfold plink. rewrite NBt, NBt', PBt'.
        repeat split; auto; lia.
    - rewrite (app_cons_assoc FA fp [t']). rewrite <- app_cons_assoc.
      apply chain_snoc. split.
      + pose proof (wf_free _ _ _ _ _ W) as Hch. rewrite Efl in Hch.
        apply chain_snoc in Hch. destruct Hch as [Hch _].
        apply free_frame with (h := h); [exact Hch| |].
        * intros x Hx. rewrite removelast_snoc in Hx. apply NF'.
          -- intros ->. contradiction.
          -- assert (In x fl) by (rewrite Efl; in_list).
             specialize (Rfl x H). lia.
        * intros x Hx. apply in_tl in Hx. apply PF'.
          assert (In x fl) by (rewrite Efl; revert Hx; in_list).
          specialize (Rfl x H). lia.
      + unfold flink. auto.
    - assert (Hnd1 : NoDup (FA ++ [fp])).
      { replace (FA ++ [fp; t]) with ((FA ++ [fp]) ++ t :: []) in Hnd
          by (rewrite <- app_assoc; reflexivity).
        apply NoDup_remove_1 in Hnd. rewrite app_nil_r in Hnd. exact Hnd. }
      rewrite (app_cons_assoc FA fp [t']).
      apply NoDup_app; [exact Hnd1|constructor; [simpl; tauto|constructor]|].
      intros x Hx [<-|[]].
      assert (Hx' : In t' fl) by (rewrite Efl; revert Hx; in_list).
      specialize (Rfl _ Hx'). lia.
    - intros x. rewrite Hinfl, in_app_iff. simpl.
      pose proof (wf_flag _ _ _ _ _ W x) as Hfl.
      destruct (Z.eq_dec x t') as [->|Hxt'].
      + split; [|auto]. intros _. split; auto.
      + destruct (Z.eq_dec x t) as [->|Hxt].
        * rewrite NBt. intuition lia.
        * rewrite NB' by assumption. intuition lia.
    - rewrite NB' by lia. apply (wf_nb0 _ _ _ _ _ W).
    - exact NBt'.
    - exact NFt'. }
  split; [exact W'|].
  pose proof (wf_in_pl_t _ _ _ _ _ W) as Htpl.
  pose proof (wf_in_fl_t _ _ _ _ _ W) as Htfl.
  split.
  { split; [apply in_or_app; auto|]. rewrite Hinfl. intuition lia. }
  split; [intros [_ Hx]; contradiction|].
  split; [exact NBt|].
  split.
  { intros u [U1 U2]. pose proof (Rpl u U1).
    assert (u <> t) by (intros ->; contradiction).
    split; [split|].
    - apply in_or_app; auto.
    - rewrite Hinfl. intuition lia.
    - apply NB'; lia. }
  split.
  { intros u [U1 U2]. rewrite Hinfl in U2. apply in_app_iff in U1. simpl in U1.
    destruct (Z.eq_dec u t) as [->|Hut]; [auto|right].
    unfold used. intuition congruence. }
  intros u w Hu Hpay.
  destruct (payload_geom _ _ _ _ _ _ _ W Hu Hpay) as (nu & Hnu & G1 & G2 & G3 & Hextu).
  assert (fp <> u) by (intros ->; apply (proj2 Hu), Hfpfl).
  pose proof (Hextu fp (wf_fl_sub _ _ _ _ _ W _ Hfpfl)).
  unfold h'. rd_frame. rewrite copy_block_rd by lia.
  unfold h1. rd_frame. reflexivity.
Qed.
End PlaceEnd.

(** ** The first allocation on a zeroed heap *)

Lemma zero_heap_acc n x :
  UMM_NBLOCK (zero_heap n) x = 0 /\ UMM_PBLOCK (zero_heap n) x = 0 /\
  UMM_NFREE (zero_heap n) x = 0 /\ UMM_PFREE (zero_heap n) x = 0.
Proof.
  unfold UMM_NBLOCK, UMM_PBLOCK, UMM_NFREE, UMM_PFREE.
  rewrite !rd_zero_heap. auto.
Qed.

Lemma zero_numblocks n :
  Z.of_nat n <= 32767 -> UMM_NUMBLOCKS (zero_heap n) = Z.of_nat n.
Proof.
  intros H. unfold UMM_NUMBLOCKS. rewrite words_zero_heap.
  rewrite Z.mul_comm, Z.div_mul by lia. apply u16_small. lia.
Qed.

Lemma scan_zero n blocks :
  scan_loop (S (length (zero_heap n))) (zero_heap n) blocks (scan_init (zero_heap n))
  = Some (mkScan 0 0 32767 0).
Proof.
  unfold scan_init. destruct (zero_heap_acc n 0) as (_ & _ & -> & _).
  simpl. destruct (zero_heap_acc n 0) as (_ & _ & -> & _). reflexivity.
Qed.

Section PlaceZero.
Variables (n : nat) (blocks bz : Z).
Hypothesis HN : Z.of_nat n <= 32767.

Lemma place_zero_full :
  0 <= blocks -> Z.of_nat n <= blocks + 1 ->
  malloc_place (zero_heap n) blocks 0 bz = (zero_heap n, None).
Proof.
  intros Hb Hfull. unfold malloc_place.
  destruct (zero_heap_acc n 0) as (-> & _). cbn [Z.land Z.eqb negb].
  rewrite zero_numblocks by assumption.
  destruct (Z.leb_spec (Z.of_nat n) (0 + blocks + 1)); [reflexivity|lia].
Qed.

Hypothesis Hblocks : 1 <= blocks.
Hypothesis Hroom : blocks + 1 < Z.of_nat n.

Lemma place_zero :
  exists h',
    malloc_place (zero_heap n) blocks 0 bz = (h', Some (data_addr 1)) /\
    alloc_ok (Z.of_nat n) (zero_heap n) [] [] blocks h' 1.
Proof.
  set (h := zero_heap n). set (t' := 1 + blocks).
  assert (Et' : t' = 1 + blocks) by reflexivity.
  assert (Hw : words h = 4 * Z.of_nat n) by apply words_zero_heap.
  assert (Z : forall x, UMM_NBLOCK h x = 0 /\ UMM_PBLOCK h x = 0 /\
                        UMM_NFREE h x = 0 /\ UMM_PFREE h x = 0)
    by apply zero_heap_acc.
  set (h1 := set_NFREE (set_NFREE (set_NBLOCK h 0 1) 0 1) 0 t').
  set (h' := set_PBLOCK (set_NBLOCK (copy_block h1 t' 1) 1 t') t' 1).
  assert (Eq : malloc_place h blocks 0 bz = (h', Some (data_addr 1))).
  { unfold malloc_place. rewrite (proj1 (Z 0)). cbn [Z.land Z.eqb negb].
    unfold h at 1. rewrite zero_numblocks by assumption.
    destruct (Z.leb_spec (Z.of_nat n) (0 + blocks + 1)); [lia|].
    hsimp. rewrite (proj2 (proj2 (proj2 (Z 1)))). reflexivity. }
  exists h'. split; [exact Eq|]. clear Eq.
  assert (Hw1 : words h1 = 4 * Z.of_nat n) by (unfold h1; hsimp; exact Hw).
  destruct (copy_block_dst h1 t' 1) as (C1 & C2 & C3 & C4); [lia..|].
  assert (NB0 : UMM_NBLOCK h' 0 = 1).
  { unfold h'. hsimp. rewrite (proj1 (copy_block_other h1 t' 1 0 ltac:(lia))).
    unfold h1. hsimp. reflexivity. }
  assert (NB1 : UMM_NBLOCK h' 1 = t') by (unfold h'; hsimp; reflexivity).
  assert (NBt' : UMM_NBLOCK h' t' = 0).
  { unfold h'. hsimp. rewrite C1. unfold h1. hsimp. apply Z. }
  assert (PB1 : UMM_PBLOCK h' 1 = 0).
  { unfold h'. hsimp. destruct (copy_block_other h1 t' 1 1 ltac:(lia)) as (_ & -> & _).
    unfold h1. hsimp. apply Z. }
  assert (PBt' : UMM_PBLOCK h' t' = 1) by (unfold h'; hsimp; reflexivity).
  assert (NF0 : UMM_NFREE h' 0 = t').
  { unfold h'. hsimp. destruct (copy_block_other h1 t' 1 0 ltac:(lia)) as (_ & _ & -> & _).
    unfold h1. hsimp. reflexivity. }
  assert (NFt' : UMM_NFREE h' t' = 0).
  { unfold h'. hsimp. rewrite C3. unfold h1. hsimp. apply Z. }
  assert (PFt' : UMM_PFREE h' t' = 0).
  { unfold h'. hsimp. rewrite C4. unfold h1. hsimp. apply Z. }
  exists [0; 1; t'], [0; t'], t'.
  split.
  { constructor; try reflexivity; try assumption; try lia.
    - unfold h'. hsimp. exact Hw1.
    - simpl. unfold plink. rewrite NB0, NB1, NBt', PB1, PBt'.
      repeat split; auto; lia.
    - simpl. unfold flink. rewrite NF0, PFt'. auto.
    - constructor; [simpl; lia|]. constructor; [simpl; tauto|constructor].
    - intros x. simpl.
      destruct (Z.eq_dec x 1) as [->|Hx1]; [rewrite NB1; intuition lia|].
      intuition lia. }
  split; [split; simpl; [tauto|lia]|].
  split; [intros [[] _]|].
  split; [rewrite NB1; lia|].
  split; [intros u [[] _]|].
  split; [|intros u w [[] _]].
  intros u [U1 U2]. simpl in U1, U2. left. lia.
Qed.
End PlaceZero.

(** ** umm_malloc on a well-formed heap *)

Lemma umm_blocks_range size : 0 <= umm_blocks size < 65536.
Proof.
  unfold umm_blocks. destruct (size <=? BODY_BYTES); [lia|apply u16_range].
Qed.

Lemma wf_mid_span_small N h pl mid t x :
  Wf N h pl (0 :: mid ++ [t]) t -> In x mid -> 1 <= span h x < 32767.
Proof.
  intros W Hx. destruct (wf_mid_span _ _ _ _ _ _ W Hx) as (n & _ & Rn & ->).
  destruct (wf_mid_block _ _ _ _ _ _ W Hx) as (Hin & _ & _).
  pose proof (wf_pl_range _ _ _ _ _ W x (wf_fl_sub _ _ _ _ _ W x Hin)).
  pose proof (wf_t _ _ _ _ _ W). pose proof (wf_N _ _ _ _ _ W). lia.
Qed.

(** What the scan hands to the placement code. *)
Lemma scan_pick_wf N h pl mid t blocks :
  Wf N h pl (0 :: mid ++ [t]) t ->
  exists s,
    scan_loop (S (length h)) h blocks (scan_init h) = Some s /\
    s_cf s = t /\
    ((s_bestSize s = 32767 /\ scan_pick s = (t, s_blockSize s) /\
      forall x, In x mid -> span h x < blocks) \/
     (exists l1 c l2,
        mid = l1 ++ c :: l2 /\ scan_pick s = (c, span h c) /\
        s_bestSize s = span h c /\ blocks <= span h c /\
        (forall x, In x l1 -> span h x < blocks \/ span h c < span h x) /\
        (forall x, In x l2 -> span h x < blocks \/ span h c <= span h x))).
Proof.
  intros W. destruct (scan_wf _ _ _ _ _ blocks W) as [bz Hs].
  eexists. split; [exact Hs|]. split; [reflexivity|].
  pose proof (best_of_spec h blocks mid (UMM_NFREE h 0) 32767) as Hb.
  cbv zeta in Hb. unfold scan_pick. cbn [s_bestSize s_bestBlock s_cf s_blockSize].
  destruct Hb as [[E Hall]|(l1 & l2 & E & Hsz & Hr & Hl1 & Hl2)].
  - left. rewrite E. cbn [fst snd]. split; [reflexivity|]. split; [reflexivity|].
    intros x Hx. pose proof (wf_mid_span_small _ _ _ _ _ _ W Hx).
    destruct (Hall x Hx); lia.
  - right. exists l1, (fst (best_of h blocks mid (UMM_NFREE h 0) 32767)), l2.
    split; [exact E|].
    destruct (Z.eqb_spec (snd (best_of h blocks mid (UMM_NFREE h 0) 32767)) 32767); [lia|].
    cbn [negb]. rewrite <- Hsz.
    split; [reflexivity|]. split; [reflexivity|]. split; [lia|]. split; assumption.
Qed.

Theorem malloc_wf N h pl fl t size :
  Wf N h pl fl t -> size <> 0 -> 1 <= umm_blocks size ->
  exists h' r,
    umm_malloc h size = Some (h', r) /\
    ((r = None /\ h' = h) \/
     (exists cf, r = Some (data_addr cf) /\
                 alloc_ok N h pl fl (umm_blocks size) h' cf)).
Proof.
  intros W Hsize Hblocks.
  destruct (wf_fl_mid _ _ _ _ _ W) as [mid ->].
  unfold umm_malloc. destruct (Z.eqb_spec size 0); [contradiction|].
  set (blocks := umm_blocks size) in *.
  destruct (scan_pick_wf _ _ _ _ _ blocks W) as (s & -> & Hcf & Hs).
  destruct Hs as [(Hbs & -> & Hnone)|(l1 & c & l2 & E & -> & Hbs & Hfit & _)].
  - destruct (Z_lt_le_dec (t + blocks + 1) N) as [Hroom|Hfull].
    + destruct (place_end N h pl _ t blocks (s_blockSize s) W Hblocks Hroom)
        as (h' & -> & Hok).
      exists h', (Some (data_addr t)). split; [reflexivity|]. right. eauto.
    + rewrite (place_full N h pl _ t blocks (s_blockSize s) W) by lia.
      exists h, None. auto.
  - assert (Hc : In c mid) by (rewrite E; in_list).
    destruct (wf_mid_block _ _ _ _ _ _ W Hc) as (Hin & Hc0 & Hct).
    destruct (Z.eq_dec (span h c) blocks) as [Heq|Hne].
    + destruct (place_exact N h pl _ t c blocks W Hin Hc0 Hct Heq) as (Hp & Hok).
      rewrite Heq, Hp. eexists _, _. split; [reflexivity|]. right. eauto.
    + destruct (place_split N h pl _ t c blocks W Hin Hc0 Hct ltac:(lia))
        as (h' & -> & Hok).
      eexists _, _. split; [reflexivity|]. right. eauto.
Qed.

Theorem malloc_zero n size :
  Z.of_nat n <= 32767 -> size <> 0 -> 1 <= umm_blocks size ->
  exists h' r,
    umm_malloc (zero_heap n) size = Some (h', r) /\
    ((r = None /\ h' = zero_heap n) \/
     (r = Some (data_addr 1) /\
      alloc_ok (Z.of_nat n) (zero_heap n) [] [] (umm_blocks size) h' 1)).
Proof.
  intros HN Hsize Hblocks.
  unfold umm_malloc. destruct (Z.eqb_spec size 0); [contradiction|].
  rewrite scan_zero. unfold scan_pick. cbn [s_bestSize s_cf s_blockSize].
  rewrite Z.eqb_refl. cbn [negb].
  destruct (Z_lt_le_dec (umm_blocks size + 1) (Z.of_nat n)) as [Hroom|Hfull].
  - destruct (place_zero n (umm_blocks size) 0 HN Hblocks Hroom) as (h' & -> & Hok).
    eexists _, _. split; [reflexivity|]. right. auto.
  - rewrite place_zero_full by lia. eexists _, _. split; [reflexivity|]. left. auto.
Qed.

(** ** Writes that leave the bookkeeping words alone *)

Lemma wf_same_meta N h h' pl fl t :
  Wf N h pl fl t ->
  words h' = words h ->
  (forall x, In x pl ->
     UMM_NBLOCK h' x = UMM_NBLOCK h x /\ UMM_PBLOCK h' x = UMM_PBLOCK h x) ->
  (forall x, In x fl ->
     UMM_NFREE h' x = UMM_NFREE h x /\ UMM_PFREE h' x = UMM_PFREE h x) ->
  Wf N h' pl fl t.
Proof.
  intros W Hw Hp Hf. constructor.
  - rewrite Hw. apply (wf_words _ _ _ _ _ W).
  - apply (wf_N _ _ _ _ _ W).
  - apply (wf_t _ _ _ _ _ W).
  - apply (wf_phd _ _ _ _ _ W).
  - apply (wf_plast _ _ _ _ _ W).
  - apply (wf_fhd _ _ _ _ _ W).
  - apply (wf_flast _ _ _ _ _ W).
  - generalize (wf_phys _ _ _ _ _ W). apply chain_frame.
    intros a b Ha Hb. unfold plink.
    destruct (Hp a Ha) as [-> _]. destruct (Hp b Hb) as [-> ->]. auto.
  - generalize (wf_free _ _ _ _ _ W). apply chain_frame.
    intros a b Ha Hb. unfold flink.
    destruct (Hf a Ha) as [-> _]. destruct (Hf b Hb) as [_ ->]. auto.
  - apply (wf_nodup _ _ _ _ _ W).
  - intros x. rewrite (wf_flag _ _ _ _ _ W x).
    split; intros [Hx Hd]; (split; [exact Hx|]);
      destruct (Hp x Hx) as [E _]; rewrite E in *; exact Hd.
  - rewrite (proj1 (Hp 0 (wf_in_pl_0 _ _ _ _ _ W))). apply (wf_nb0 _ _ _ _ _ W).
  - rewrite (proj1 (Hp t (wf_in_pl_t _ _ _ _ _ W))). apply (wf_nbt _ _ _ _ _ W).
  - rewrite (proj1 (Hf t (wf_in_fl_t _ _ _ _ _ W))). apply (wf_nft _ _ _ _ _ W).
Qed.

(** Any change confined to the payload of one used block keeps the heap
    well formed, whatever is written there. *)
Lemma payload_write_wf N h h' pl fl t c :
  Wf N h pl fl t -> used pl fl c ->
  words h' = words h ->
  (forall w, ~ payload h c w -> rd h' w = rd h w) ->
  Wf N h' pl fl t /\
  (forall u, used pl fl u -> UMM_NBLOCK h' u = UMM_NBLOCK h u) /\
  (forall u w, used pl fl u -> u <> c -> payload h u w -> rd h' w = rd h w).
Proof.
  intros W U Hw Hout.
  destruct (used_ctx _ _ _ _ _ _ W U) as (A & p & n & B & E & Hn & Hp & Rp & Rn & _).
  assert (Hext : forall x, In x pl -> x <= c \/ n <= x).
  { apply (wf_extent _ _ _ _ _ (A ++ [p]) c n B W).
    rewrite <- app_cons_assoc. exact E. }
  assert (Hmeta : forall x, In x pl ->
            UMM_NBLOCK h' x = UMM_NBLOCK h x /\ UMM_PBLOCK h' x = UMM_PBLOCK h x).
  { intros x Hx. specialize (Hext x Hx). unfold UMM_NBLOCK, UMM_PBLOCK.
    split; apply Hout; unfold payload; rewrite Hn; lia. }
  split; [|split].
  - apply (wf_same_meta N h h' pl fl t W Hw Hmeta).
    intros x Hx. pose proof (Hext x (wf_fl_sub _ _ _ _ _ W x Hx)).
    assert (x <> c) by (intros ->; apply (proj2 U), Hx).
    unfold UMM_NFREE, UMM_PFREE.
    split; apply Hout; unfold payload; rewrite Hn; lia.
  - intros u Hu. apply Hmeta, Hu.
  - intros u w Hu Huc Hpay. apply Hout.
    destruct (payload_geom _ _ _ _ _ _ _ W Hu Hpay) as (nu & Hnu & G1 & G2 & G3 & Hextu).
    pose proof (Hextu c (proj1 U)). pose proof (Hext u (proj1 Hu)).
    unfold payload. rewrite Hn. lia.
Qed.

(** On a zeroed heap the placement only looks at the block count it is
    given, also when that count is 0. *)
Lemma place_zero_ptr n blocks bz :
  Z.of_nat n <= 32767 -> 0 <= blocks -> blocks + 1 < Z.of_nat n ->
  exists h',
    malloc_place (zero_heap n) blocks 0 bz = (h', Some (data_addr 1)) /\
    UMM_NBLOCK h' 1 = 1 + blocks.
Proof.
  intros HN Hb Hroom.
  set (h := zero_heap n). set (t' := 1 + blocks).
  assert (Et' : t' = 1 + blocks) by reflexivity.
  assert (Hw : words h = 4 * Z.of_nat n) by apply words_zero_heap.
  set (h1 := set_NFREE (set_NFREE (set_NBLOCK h 0 1) 0 1) 0 t').
  set (h' := set_PBLOCK (set_NBLOCK (copy_block h1 t' 1) 1 t') t' 1).
  exists h'. split.
  - unfold malloc_place. destruct (zero_heap_acc n 0) as (E0 & _). fold h in E0.
    rewrite E0. cbn [Z.land Z.eqb negb].
    unfold h at 1. rewrite zero_numblocks by assumption.
    destruct (Z.leb_spec (Z.of_nat n) (0 + blocks + 1)); [lia|].
    hsimp. destruct (zero_heap_acc n 1) as (_ & _ & _ & E1). fold h in E1.
    rewrite E1. reflexivity.
  - assert (Hw1 : words h1 = 4 * Z.of_nat n) by (unfold h1; hsimp; exact Hw).
    unfold h'. hsimp. reflexivity.
Qed.

Lemma malloc_zero_ptr n size :
  Z.of_nat n <= 32767 -> size <> 0 -> umm_blocks size + 1 < Z.of_nat n ->
  exists h',
    umm_malloc (zero_heap n) size = Some (h', Some (data_addr 1)) /\
    UMM_NBLOCK h' 1 = 1 + umm_blocks size.
Proof.
  intros HN Hsize Hroom.
  unfold umm_malloc. destruct (Z.eqb_spec size 0); [contradiction|].
  rewrite scan_zero. unfold scan_pick. cbn [s_bestSize s_cf s_blockSize].
  rewrite Z.eqb_refl. cbn [negb].
  destruct (place_zero_ptr n (umm_blocks size) 0 HN) as (h' & -> & Hnb);
    [apply umm_blocks_range|exact Hroom|].
  exists h'. auto.
Qed.

(** ** The diagnostic walk *)

Lemma last_cons_default (l : list Z) a d : last (a :: l) d = last l a.
Proof.
  revert a d. induction l as [|b l IH]; intros a d; [reflexivity|].
  change (last (a :: b :: l) d) with (last (b :: l) d).
  rewrite IH. symmetry. apply IH.
Qed.

Lemma info_loop_run h ptr :
  forall l b i fuel,
    walk_is h b l ->
    (forall x, In x l ->
       Z.land (UMM_NBLOCK h x) UMM_FREELIST_MASK = 0 \/ ptr <> Some (block_addr x)) ->
    (length l <= fuel)%nat ->
    forall b',
      b' = last (map (fun x => Z.land (UMM_NBLOCK h x) UMM_BLOCKNO_MASK) l) b ->
      info_loop (S fuel) h ptr b i =
      info_loop (S (fuel - length l)) h ptr b' (tally h l i).
Proof.
  induction l as [|x l IH]; intros b i fuel Hw Hno Hfuel b' Hb'.
  - simpl in Hb'. subst b'. simpl. rewrite Nat.sub_0_r. reflexivity.
  - destruct Hw as (-> & Hnz & Hw).
    destruct fuel as [|fuel]; [simpl in Hfuel; lia|].
    assert (Hstep : info_loop (S (S fuel)) h ptr b i =
                    info_loop (S fuel) h ptr
                      (Z.land (UMM_NBLOCK h b) UMM_BLOCKNO_MASK) (tally h [b] i)).
    { cbn [info_loop tally].
      destruct (Z.eqb_spec (Z.land (UMM_NBLOCK h b) UMM_BLOCKNO_MASK) 0) as [?|_];
        [contradiction|].
      destruct (Z.eqb_spec (Z.land (UMM_NBLOCK h b) UMM_FREELIST_MASK) 0) as [Hf|Hf];
        cbn [negb]; [reflexivity|].
      destruct (Hno b (or_introl eq_refl)) as [?|Hp]; [contradiction|].
      destruct ptr as [p|]; [|reflexivity].
      destruct (Z.eqb_spec p (block_addr b)) as [->|_]; [congruence|reflexivity]. }
    rewrite Hstep.
    rewrite (IH _ (tally h [b] i) fuel Hw) with (b' := b').
    + cbn [length Nat.sub tally].
      destruct (Z.land (UMM_NBLOCK h b) UMM_FREELIST_MASK =? 0); reflexivity.
    + intros y Hy. apply Hno. right. exact Hy.
    + simpl in Hfuel. lia.
    + rewrite Hb'. cbn [map]. apply last_cons_default.
Qed.

(** A walk along a link function never revisits a block before its last
    one: a repeated block would make the walk periodic. *)
Lemma link_chain_det (f : Z -> Z) s :
  forall l1 l2,
    chain (fun a b => b = f a) (s :: l1) ->
    chain (fun a b => b = f a) (s :: l2) ->
    (length l1 <= length l2)%nat ->
    exists r, l2 = l1 ++ r.
Proof.
  intros l1. revert s. induction l1 as [|x l1 IH]; intros s l2 H1 H2 Hlen.
  - exists l2. reflexivity.
  - destruct l2 as [|y l2]; [simpl in Hlen; lia|].
    destruct H1 as [Ex H1]. destruct H2 as [Ey H2].
    assert (E : y = x) by congruence. rewrite E in *.
    destruct (IH x l2 H1 H2) as [r ->]; [simpl in Hlen; lia|].
    exists r. reflexivity.
Qed.

Lemma link_chain_nodup (f : Z -> Z) l b :
  chain (fun a b => b = f a) (l ++ [b]) -> ~ In b l -> NoDup (l ++ [b]).
Proof.
  induction l as [|x l IH]; intros Hc Hb.
  - simpl. constructor; [simpl; tauto|constructor].
  - assert (Hbl : ~ In b l) by (intros H; apply Hb; right; exact H).
    simpl. constructor.
    + intros Hx. apply in_app_iff in Hx. simpl in Hx.
      destruct Hx as [Hx|[Hx|[]]]; [|apply Hb; left; congruence].
      destruct (in_split _ _ Hx) as (l1 & l2 & El).
      assert (Hsuf : chain (fun a b => b = f a) (x :: l2 ++ [b])).
      { pose proof Hc as Hc'. rewrite El in Hc'.
        replace ((x :: l1 ++ x :: l2) ++ [b]) with ((x :: l1) ++ x :: (l2 ++ [b])) in Hc'
          by (simpl; rewrite <- app_assoc; reflexivity).
        apply chain_app_iff in Hc'. apply Hc'. }
      destruct (link_chain_det f x (l2 ++ [b]) (l ++ [b]) Hsuf Hc) as [r Er].
      { rewrite El, !length_app. simpl. lia. }
      destruct (exists_last (l := r)) as (r' & b' & ->).
      { intros ->. rewrite app_nil_r in Er. apply (f_equal (@length Z)) in Er.
        rewrite El, !length_app in Er. simpl in Er. lia. }
      rewrite app_assoc in Er. apply app_inj_tail in Er. destruct Er as [Er _].
      apply Hbl. rewrite Er. in_list.
    + apply IH; [exact (chain_tail _ _ _ Hc)|exact Hbl].
Qed.

Lemma walk_is_chain h s l :
  walk_is h s l ->
  chain (fun a b => b = Z.land (UMM_NBLOCK h a) UMM_BLOCKNO_MASK) l /\
  (forall x, In x l -> 0 <= x /\ 4 * x < words h) /\
  (forall d, l <> [] -> hd d l = s).
Proof.
  revert s. induction l as [|x l IH]; intros s Hw.
  - split; [exact I|]. split; [intros x []|]. intros d H. congruence.
  - destruct Hw as (-> & Hnz & Hw). destruct (IH _ Hw) as (Hc & Hr & Hh).
    split; [|split].
    + destruct l as [|y l]; [exact I|]. split; [|exact Hc].
      apply (Hh 0). discriminate.
    + intros y [<-|Hy]; [|apply Hr, Hy].
      destruct (Z.lt_ge_cases s 0) as [Hneg|Hpos].
      * exfalso. apply Hnz. unfold UMM_NBLOCK, rd.
        destruct (Z.ltb_spec (4 * s) 0); [reflexivity|lia].
      * split; [exact Hpos|]. destruct (Z.lt_ge_cases (4 * s) (words h)); [assumption|].
        exfalso. apply Hnz. unfold UMM_NBLOCK. rewrite rd_outside by assumption.
        reflexivity.
    + reflexivity.
Qed.

Lemma walk_length h s l b :
  walk_is h s (l ++ [b]) -> ~ In b l -> (length (l ++ [b]) <= length h)%nat.
Proof.
  intros Hw Hb. destruct (walk_is_chain _ _ _ Hw) as (Hc & Hr & _).
  apply nodup_bounded_length.
  - apply (link_chain_nodup _ _ _ Hc Hb).
  - intros x Hx. destruct (Hr x Hx). unfold words in *. lia.
Qed.

Lemma tally_entries h l i :
  totalEntries (tally h l i) = totalEntries i + Z.of_nat (length l).
Proof.
  revert i. induction l as [|b l IH]; intros i; [simpl; lia|].
  cbn [tally length].
  destruct (Z.land (UMM_NBLOCK h b) UMM_FREELIST_MASK =? 0); rewrite IH; simpl; lia.
Qed.

Lemma walk_is_app h s l1 b :
  walk_is h s (l1 ++ [b]) ->
  walk_is h s l1 /\
  b = last (map (fun x => Z.land (UMM_NBLOCK h x) UMM_BLOCKNO_MASK) l1) s /\
  Z.land (UMM_NBLOCK h b) UMM_BLOCKNO_MASK <> 0.
Proof.
  revert s. induction l1 as [|x l1 IH]; intros s Hw.
  - destruct Hw as (-> & Hnz & _). simpl. auto.
  - destruct Hw as (-> & Hnz & Hw). destruct (IH _ Hw) as (H1 & H2 & H3).
    split; [simpl; auto|]. split; [|exact H3].
    cbn [map]. rewrite last_cons_default. exact H2.
Qed.

(** ** A block count that wrapped to 0

    umm_malloc then still answers with the body address of a block of the
    heap and writes only bookkeeping words. *)
Lemma malloc_wrap0 N h pl fl t size :
  Wf N h pl fl t -> size <> 0 -> umm_blocks size = 0 ->
  exists h' r,
    umm_malloc h size = Some (h', r) /\
    (r = None \/ exists cf, r = Some (data_addr cf) /\ 1 <= cf <= t) /\
    (forall u w, used pl fl u -> payload h u w -> rd h' w = rd h w).
Proof.
  intros W Hsize Hb0.
  pose proof (wf_t _ _ _ _ _ W) as Ht. pose proof (wf_N _ _ _ _ _ W) as HN.
  pose proof (wf_words _ _ _ _ _ W) as Hw.
  destruct (wf_fl_mid _ _ _ _ _ W) as [mid Efl]. rewrite Efl in W.
  unfold umm_malloc. destruct (Z.eqb_spec size 0) as [?|_]; [contradiction|].
  rewrite Hb0.
  destruct (scan_pick_wf _ _ _ _ _ 0 W) as (s & -> & Hcf & Hs).
  rewrite <- Efl in W.
  destruct Hs as [(Hbs & -> & Hnone)|(l1 & c & l2 & E & -> & Hbs & Hfit & _)].
  - unfold malloc_place. rewrite (wf_nbt _ _ _ _ _ W). cbn [Z.land Z.eqb negb].
    rewrite (wf_numblocks _ _ _ _ _ W).
    destruct (Z.leb_spec N (t + 0 + 1)) as [_|_].
    + eexists _, _. split; [reflexivity|]. split; [auto|]. reflexivity.
    + destruct (Z.eqb_spec t 0) as [?|_]; [lia|].
      eexists _, _. split; [reflexivity|]. split; [right; exists t; split; [reflexivity|lia]|].
      intros u w Hu Hpay.
      destruct (wf_fl_end _ _ _ _ _ W) as (FA & fp & Efl' & [F1 F2] & Hfpt & _).
      assert (Hfpfl : In fp fl) by (rewrite Efl'; in_list).
      destruct (payload_geom _ _ _ _ _ _ _ W Hu Hpay) as (nu & Hnu & G1 & G2 & G3 & Hext).
      assert (fp <> u) by (intros ->; apply (proj2 Hu), Hfpfl).
      pose proof (Hext fp (wf_fl_sub _ _ _ _ _ W _ Hfpfl)).
      rewrite F2. rd_frame. rewrite copy_block_rd by lia. rd_frame. reflexivity.
  - assert (Hc : In c mid) by (rewrite E; in_list).
    rewrite Efl in W.
    destruct (wf_mid_block _ _ _ _ _ _ W Hc) as (Hin & Hc0 & Hct).
    destruct (wf_mid_span _ _ _ _ _ _ W Hc) as (n & Hn & Rn & Hsp).
    rewrite <- Efl in W, Hin.
    pose proof (wf_fl_sub _ _ _ _ _ W c Hin) as Hcpl.
    pose proof (wf_pl_range _ _ _ _ _ W c Hcpl) as Rc.
    destruct (wf_phys_ctx _ _ _ _ _ W c Hcpl Hc0 Hct)
      as (A & p & n' & B & Epl & _ & (Q1 & Q2 & _) & _ & Hnt).
    same_as n' n.
    unfold malloc_place, UMM_BLOCKNO_MASK. rewrite Hn, mask_flagged by lia.
    destruct (Z.eqb_spec n 0); [lia|]. cbn [negb].
    rewrite Hsp. destruct (Z.eqb_spec (n - c) 0); [lia|].
    rewrite Z.sub_0_r. rewrite (u16_small (n - c)) by lia.
    replace (c + (n - c)) with n by lia. rewrite (u16_small n) by lia.
    eexists _, _. split; [reflexivity|].
    split; [right; exists n; split; [reflexivity|lia]|].
    intros u w Hu Hpay.
    destruct (payload_geom _ _ _ _ _ _ _ W Hu Hpay) as (nu & Hnu & G1 & G2 & G3 & Hext).
    assert (Hnpl : In n pl) by (rewrite Epl; in_list).
    assert (c <> u) by (intros ->; apply (proj2 Hu), Hin).
    pose proof (Hext c Hcpl). pose proof (Hext n Hnpl).
    unfold umm_make_new_block, UMM_BLOCKNO_MASK.
    replace (c + (n - c)) with n by lia.
    assert (En : Z.land
              (UMM_NBLOCK
                 (set_PBLOCK (set_NBLOCK h n (Z.land (UMM_NBLOCK h c) 32767)) n c) c)
              32767 = n).
    { hsimp. rewrite Hn, mask_flagged by lia. reflexivity. }
    rewrite En. rd_frame. reflexivity.
Qed.

(** Every outcome of umm_malloc on the zeroed heap. *)
Lemma malloc_zero_cases n size h' r :
  Z.of_nat n <= 32767 ->
  umm_malloc (zero_heap n) size = Some (h', r) ->
  (r = None /\ h' = zero_heap n) \/
  (r = Some (data_addr 1) /\ size <> 0 /\ umm_blocks size + 1 < Z.of_nat n /\
   UMM_NBLOCK h' 1 = 1 + umm_blocks size).
Proof.
  intros HN Hm.
  destruct (Z.eq_dec size 0) as [->|Hsize].
  { unfold umm_malloc in Hm. simpl in Hm. injection Hm as <- <-. auto. }
  destruct (Z_lt_le_dec (umm_blocks size + 1) (Z.of_nat n)) as [Hroom|Hfull].
  - destruct (malloc_zero_ptr n size HN Hsize Hroom) as (h2 & Hm2 & Hnb).
    rewrite Hm2 in Hm. injection Hm as <- <-. right. auto.
  - unfold umm_malloc in Hm. destruct (Z.eqb_spec size 0) as [?|_]; [contradiction|].
    rewrite scan_zero in Hm. unfold scan_pick in Hm.
    cbn [s_bestSize s_cf s_blockSize] in Hm. rewrite Z.eqb_refl in Hm.
    cbn [negb] in Hm. pose proof (umm_blocks_range size).
    rewrite place_zero_full in Hm by lia.
    injection Hm as <- <-. auto.
Qed.

(** ** A sample heap *)

Lemma sample_heap_reached :
  exists h1 h2 h3,
    umm_malloc (zero_heap 8) 1 = Some (h1, Some (data_addr 1)) /\
    umm_malloc h1 1 = Some (h2, Some (data_addr 2)) /\
    umm_malloc h2 1 = Some (h3, Some (data_addr 3)) /\
    umm_free h3 (Some (data_addr 2)) = sample_heap.
Proof. do 3 eexists. repeat split; vm_compute; reflexivity. Qed.

Lemma sample_heap_wf : Wf 8 sample_heap [0; 1; 2; 3; 4] [0; 2; 4] 4.
Proof.
  constructor; try reflexivity; try lia.
  - simpl. unfold plink. vm_compute. intuition (try discriminate; auto).
  - simpl. unfold flink. vm_compute. intuition.
  - repeat constructor; simpl; intuition discriminate.
  - intros c. simpl. split.
    + intros [<-|[<-|[<-|[]]]]; vm_compute; intuition discriminate.
    + intros [[<-|[<-|[<-|[<-|[<-|[]]]]]] H]; auto;
        vm_compute in H; destruct H as [H|[H|H]];
        try discriminate; exfalso; apply H; reflexivity.
Qed.

Lemma sample_heap_used : used [0; 1; 2; 3; 4] [0; 2; 4] 3 /\ used [0; 1; 2; 3; 4] [0; 2; 4] 1.
Proof. split; split; simpl; intuition discriminate. Qed.

(** ** Pointers and block numbers *)

Lemma block_of_data_addr c : 0 <= c < 65536 -> block_of_ptr (data_addr c) = c.
Proof.
  intros H. unfold block_of_ptr, data_addr, BLOCK_BYTES, HEADER_BYTES.
  replace ((8 * c + 4) / 8) with c; [apply u16_small; exact H|].
  apply Z.div_unique with (r := 4); lia.
Qed.

Lemma data_addr_mod c :
  data_addr c mod BLOCK_BYTES = HEADER_BYTES /\ data_addr c mod 4 = 0.
Proof.
  unfold data_addr, BLOCK_BYTES, HEADER_BYTES. split.
  - rewrite Z.add_comm, Z.mul_comm, Z.mod_add by lia. reflexivity.
  - replace (8 * c + 4) with (0 + (2 * c + 1) * 4) by lia.
    rewrite Z.mod_add by lia. reflexivity.
Qed.

Lemma used_range N h pl fl t c :
  Wf N h pl fl t -> used pl fl c -> 1 <= c < t.
Proof.
  intros W U. destruct (wf_used_ne _ _ _ _ _ W c U).
  pose proof (wf_pl_range _ _ _ _ _ W c (proj1 U)). lia.
Qed.

Lemma umm_free_block N h pl fl t c :
  Wf N h pl fl t -> used pl fl c ->
  umm_free h (Some (data_addr c)) = free_block h c.
Proof.
  intros W U. pose proof (used_range _ _ _ _ _ _ W U).
  pose proof (wf_t _ _ _ _ _ W). pose proof (wf_N _ _ _ _ _ W).
  unfold umm_free. rewrite block_of_data_addr by lia. reflexivity.
Qed.

(** ** Copying payload bytes *)

Lemma write_words_words h d ws : words (write_words h d ws) = words h.
Proof.
  revert h d. induction ws as [|x ws IH]; intros h d; [reflexivity|].
  simpl. rewrite IH. apply words_wr.
Qed.

Lemma write_words_outside h d ws w :
  w < d \/ d + Z.of_nat (length ws) <= w -> rd (write_words h d ws) w = rd h w.
Proof.
  revert h d. induction ws as [|x ws IH]; intros h d H; [reflexivity|].
  simpl. rewrite IH by (simpl length in H; lia).
  apply rd_wr_other. simpl length in H. lia.
Qed.

Lemma write_words_inside h d ws k :
  0 <= d -> d + Z.of_nat (length ws) <= words h ->
  (k < length ws)%nat ->
  rd (write_words h d ws) (d + Z.of_nat k) = nth k ws 0.
Proof.
  revert h d k. induction ws as [|x ws IH]; intros h d k Hd Hlen Hk;
    [simpl in Hk; lia|].
  simpl length in *. destruct k as [|k].
  - simpl. rewrite write_words_outside by lia.
    rewrite Z.add_0_r. apply rd_wr_same; [reflexivity|lia].
  - cbn [write_words nth].
    replace (d + Z.of_nat (S k)) with ((d + 1) + Z.of_nat k) by lia.
    apply IH; rewrite ?words_wr; lia.
Qed.

Lemma read_words_length h s n : length (read_words h s n) = n.
Proof. revert s. induction n as [|n IH]; intros s; simpl; auto. Qed.

Lemma read_words_nth h s n k :
  (k < n)%nat -> nth k (read_words h s n) 0 = rd h (s + Z.of_nat k).
Proof.
  revert s k. induction n as [|n IH]; intros s k Hk; [lia|].
  destruct k as [|k]; simpl read_words; cbn [nth].
  - rewrite Z.add_0_r. reflexivity.
  - rewrite IH by lia. f_equal. lia.
Qed.

Lemma move_bytes_words h d s n : words (move_bytes h d s n) = words h.
Proof. apply write_words_words. Qed.

Lemma move_bytes_outside h d s n w :
  0 <= n -> w < d / 2 \/ d / 2 + n / 2 <= w ->
  rd (move_bytes h d s n) w = rd h w.
Proof.
  intros Hn H. unfold move_bytes. apply write_words_outside.
  rewrite read_words_length.
  assert (0 <= n / 2) by (apply Z.div_pos; lia). lia.
Qed.

(** The copy lands: word [k] of the destination holds what word [k] of the
    source held before the copy, also when the two ranges overlap. *)
Lemma move_bytes_inside h d s n k :
  0 <= d -> 0 <= n -> d / 2 + n / 2 <= words h -> 0 <= k < n / 2 ->
  rd (move_bytes h d s n) (d / 2 + k) = rd h (s / 2 + k).
Proof.
  intros Hd Hn Hlen Hk. unfold move_bytes.
  replace k with (Z.of_nat (Z.to_nat k)) by lia.
  assert (0 <= d / 2) by (apply Z.div_pos; lia).
  rewrite write_words_inside; rewrite ?read_words_length; try lia.
  apply read_words_nth. lia.
Qed.

Lemma data_addr_word c : data_addr c / 2 = 4 * c + 2.
Proof.
  unfold data_addr, BLOCK_BYTES, HEADER_BYTES.
  symmetry. apply Z.div_unique_exact; lia.
Qed.

(** ** Splitting a used block (the shrink path of realloc) *)

Section SplitUsed.
Variables (N : Z) (h : heap) (pl fl : list Z) (t c blocks : Z).
Hypothesis W : Wf N h pl fl t.
Hypothesis U : used pl fl c.
Hypothesis Hblocks : 1 <= blocks < UMM_NBLOCK h c - c.

Lemma split_used_wf :
  exists pl',
    Wf N (umm_make_new_block h c blocks 0) pl' fl t /\
    used pl' fl c /\ used pl' fl (c + blocks) /\
    UMM_NBLOCK (umm_make_new_block h c blocks 0) c = c + blocks /\
    UMM_NBLOCK (umm_make_new_block h c blocks 0) (c + blocks) = UMM_NBLOCK h c /\
    (forall u, used pl fl u ->
       used pl' fl u /\
       (u <> c -> UMM_NBLOCK (umm_make_new_block h c blocks 0) u = UMM_NBLOCK h u)) /\
    (forall u, used pl' fl u -> u = c + blocks \/ used pl fl u) /\
    (forall w, w <> 4 * (c + blocks) -> w <> 4 * (c + blocks) + 1 ->
               w <> 4 * UMM_NBLOCK h c + 1 -> w <> 4 * c ->
               rd (umm_make_new_block h c blocks 0) w = rd h w).
Proof.
  pose proof (wf_t _ _ _ _ _ W) as Ht. pose proof (wf_N _ _ _ _ _ W) as HN.
  pose proof (wf_words _ _ _ _ _ W) as Hw.
  destruct (used_ctx _ _ _ _ _ _ W U)
    as (A & p & n & B & E & Hn & Hp & Rp & Rn & Lpc & Lcn).
  destruct Lpc as (P1 & P2 & P3 & P4). destruct Lcn as (Q1 & Q2 & Q3 & Q4).
  rewrite Hn in *.
  set (s := c + blocks) in *.
  assert (Rs : c < s < n) by (unfold s; lia).
  set (h' := set_NBLOCK (set_PBLOCK (set_PBLOCK (set_NBLOCK h s n) s c) n s) c s).
  assert (Eq : umm_make_new_block h c blocks 0 = h').
  { unfold umm_make_new_block, UMM_BLOCKNO_MASK. fold s.
    rewrite Hn, mask_small by lia. hsimp. rewrite Hn, mask_small by lia.
    rewrite Z.lor_0_r. reflexivity. }
  rewrite Eq. clear Eq.
  assert (NB' : forall x, x <> c -> x <> s -> UMM_NBLOCK h' x = UMM_NBLOCK h x)
    by (intros; unfold h'; hsimp; reflexivity).
  assert (NBc : UMM_NBLOCK h' c = s) by (unfold h'; hsimp; reflexivity).
  assert (NBs : UMM_NBLOCK h' s = n) by (unfold h'; hsimp; reflexivity).
  assert (PB' : forall x, x <> s -> x <> n -> UMM_PBLOCK h' x = UMM_PBLOCK h x)
    by (intros; unfold h'; hsimp; reflexivity).
  assert (PBs : UMM_PBLOCK h' s = c) by (unfold h'; hsimp; reflexivity).
  assert (PBn : UMM_PBLOCK h' n = s) by (unfold h'; hsimp; reflexivity).
  assert (NF' : forall x, UMM_NFREE h' x = UMM_NFREE h x)
    by (intros; unfold h'; hsimp; reflexivity).
  assert (PF' : forall x, UMM_PFREE h' x = UMM_PFREE h x)
    by (intros; unfold h'; hsimp; reflexivity).
  pose proof (wf_phys _ _ _ _ _ W) as Hch. rewrite E in Hch.
  assert (Hext : forall x, In x pl -> x <= c \/ n <= x).
  { apply (wf_extent _ _ _ _ _ (A ++ [p]) c n B W).
    rewrite <- app_cons_assoc. exact E. }
  assert (Hspl : ~ In s pl) by (intros Hx; specialize (Hext s Hx); lia).
  assert (Hsfl : ~ In s fl) by (intros Hx; apply Hspl, (wf_fl_sub _ _ _ _ _ W), Hx).
  assert (Hin' : forall x, In x (A ++ p :: c :: s :: n :: B) <-> In x pl \/ x = s).
  { intros x. rewrite E, !in_app_iff. simpl. intuition congruence. }
  exists (A ++ p :: c :: s :: n :: B).
  assert (W' : Wf N h' (A ++ p :: c :: s :: n :: B) fl t).
  { constructor.
    - unfold h'. hsimp. exact Hw.
    - exact HN.
    - exact Ht.
    - pose proof (wf_phd _ _ _ _ _ W) as Hhd. rewrite E in Hhd.
      destruct A; exact Hhd.
    - pose proof (wf_plast _ _ _ _ _ W) as Hl. rewrite E in Hl.
      replace (A ++ p :: c :: n :: B) with ((A ++ [p; c]) ++ n :: B) in Hl
        by (rewrite <- app_assoc; reflexivity).
      replace (A ++ p :: c :: s :: n :: B) with ((A ++ [p; c; s]) ++ n :: B)
        by (rewrite <- app_assoc; reflexivity).
      rewrite last_app_keep in Hl |- *. exact Hl.
    - apply (wf_fhd _ _ _ _ _ W).
    - apply (wf_flast _ _ _ _ _ W).
    - apply (phys_replace h h' A p [c] [c; s] n B Hch).
      + intros x Hx. rewrite NB', PB' by lia. auto.
      + intros x Hx. apply NB'; lia.
      + intros x Hx. apply PB'; lia.
      + simpl. unfold plink. rewrite NBc, NBs, PBs, PBn, NB', PB' by lia.
        repeat split; auto; lia.
    - generalize (wf_free _ _ _ _ _ W). apply chain_frame.
      intros a b _ _. unfold flink. rewrite NF', PF'. auto.
    - apply (wf_nodup _ _ _ _ _ W).
    - intros x. rewrite Hin'. rewrite (wf_flag _ _ _ _ _ W x).
      destruct (Z.eq_dec x c) as [->|Hxc]; [rewrite NBc, Hn; intuition lia|].
      destruct (Z.eq_dec x s) as [->|Hxs]; [rewrite NBs; intuition lia|].
      rewrite NB' by assumption. intuition lia.
    - rewrite NB' by lia. apply (wf_nb0 _ _ _ _ _ W).
    - rewrite NB' by lia. apply (wf_nbt _ _ _ _ _ W).
    - rewrite NF'. apply (wf_nft _ _ _ _ _ W). }
  split; [exact W'|].
  split; [split; [apply Hin'; left; apply U|apply U]|].
  split; [split; [apply Hin'; auto|exact Hsfl]|].
  split; [exact NBc|]. split; [exact NBs|].
  split.
  { intros u [U1 U2]. split; [split; [apply Hin'; auto|exact U2]|].
    intros Huc. apply NB'; [exact Huc|]. intros ->. contradiction. }
  split.
  { intros u [U1 U2]. apply Hin' in U1. destruct U1 as [U1| ->]; [right|left]; auto.
    split; assumption. }
  intros w W1 W2 W3 W4. unfold h'. rd_frame. reflexivity.
Qed.
End SplitUsed.

(** ** Merging a block into a used predecessor (the move-down path of realloc) *)

Section MergeDown.
Variables (N : Z) (h : heap) (pl fl : list Z) (t c : Z).
Hypothesis W : Wf N h pl fl t.
Hypothesis U : used pl fl c.
Hypothesis Up : used pl fl (UMM_PBLOCK h c).

Lemma merge_used_down :
  exists pl',
    snd (umm_assimilate_down h c 0) = UMM_PBLOCK h c /\
    Wf N (fst (umm_assimilate_down h c 0)) pl' fl t /\
    used pl' fl (UMM_PBLOCK h c) /\
    UMM_NBLOCK (fst (umm_assimilate_down h c 0)) (UMM_PBLOCK h c) = UMM_NBLOCK h c /\
    (forall u, used pl fl u -> u <> c ->
       used pl' fl u /\
       (u <> UMM_PBLOCK h c ->
        UMM_NBLOCK (fst (umm_assimilate_down h c 0)) u = UMM_NBLOCK h u)) /\
    (forall u, used pl' fl u -> used pl fl u) /\
    (forall w, w <> 4 * UMM_PBLOCK h c -> w <> 4 * UMM_NBLOCK h c + 1 ->
               rd (fst (umm_assimilate_down h c 0)) w = rd h w).
Proof.
  pose proof (wf_t _ _ _ _ _ W) as Ht. pose proof (wf_N _ _ _ _ _ W) as HN.
  pose proof (wf_words _ _ _ _ _ W) as Hw.
  destruct (used_ctx _ _ _ _ _ _ W U)
    as (A0 & p & n & B & E & Hn & Hp & Rp & Rn & Lpc & Lcn).
  rewrite Hp in *. rewrite Hn.
  destruct (wf_used_ne _ _ _ _ _ W p Up) as [Hp0 Hpt].
  pose proof (wf_used_clear _ _ _ _ _ W p Up) as Hpclear.
  destruct (list_before_nonhead pl A0 (c :: n :: B) p 1 E) as (A & pp & ->).
  { rewrite (wf_phd _ _ _ _ _ W). congruence. }
  rewrite <- app_assoc in E. simpl in E.
  pose proof (wf_phys _ _ _ _ _ W) as Hch. rewrite E in Hch.
  pose proof (chain_mid _ _ _ _ _ Hch) as (R1 & R2 & R3 & R4).
  destruct Lpc as (P1 & P2 & P3 & P4). destruct Lcn as (Q1 & Q2 & Q3 & Q4).
  assert (Hpppl : In pp pl) by (rewrite E; in_list).
  pose proof (wf_pl_range _ _ _ _ _ W _ Hpppl) as Rpp.
  set (h' := set_PBLOCK (set_NBLOCK h p n) n p).
  assert (Eq : umm_assimilate_down h c 0 = (h', p)).
  { unfold umm_assimilate_down. rewrite Hp, Hn, Z.lor_0_r. hsimp.
    rewrite Hn, Hp. reflexivity. }
  rewrite Eq. cbn [fst snd]. clear Eq.
  assert (NB' : forall x, x <> p -> UMM_NBLOCK h' x = UMM_NBLOCK h x)
    by (intros; unfold h'; hsimp; reflexivity).
  assert (NBp : UMM_NBLOCK h' p = n) by (unfold h'; hsimp; reflexivity).
  assert (PB' : forall x, x <> n -> UMM_PBLOCK h' x = UMM_PBLOCK h x)
    by (intros; unfold h'; hsimp; reflexivity).
  assert (PBn : UMM_PBLOCK h' n = p) by (unfold h'; hsimp; reflexivity).
  assert (NF' : forall x, UMM_NFREE h' x = UMM_NFREE h x)
    by (intros; unfold h'; hsimp; reflexivity).
  assert (PF' : forall x, UMM_PFREE h' x = UMM_PFREE h x)
    by (intros; unfold h'; hsimp; reflexivity).
  destruct (phys_split _ _ _ _ Hch) as [SA _].
  assert (SB : forall b, In b B -> n < b).
  { replace (A ++ pp :: p :: c :: n :: B) with ((A ++ [pp; p; c]) ++ n :: B) in Hch
      by (rewrite <- app_assoc; reflexivity).
    apply (phys_split _ _ _ _ Hch). }
  assert (Hin' : forall x, In x (A ++ pp :: p :: n :: B) <-> In x pl /\ x <> c).
  { intros x. rewrite E, !in_app_iff. simpl. split.
    - intros [Hx|[<-|[<-|[<-|Hx]]]]; (split; [tauto|]); try lia.
      + specialize (SA x Hx). lia.
      + specialize (SB x Hx). lia.
    - intros [[Hx|[<-|[<-|[<-|[<-|Hx]]]]] Hne]; tauto. }
  exists (A ++ pp :: p :: n :: B). split; [reflexivity|].
  assert (W' : Wf N h' (A ++ pp :: p :: n :: B) fl t).
  { constructor.
    - unfold h'. hsimp. exact Hw.
    - exact HN.
    - exact Ht.
    - pose proof (wf_phd _ _ _ _ _ W) as Hhd. rewrite E in Hhd.
      destruct A; exact Hhd.
    - pose proof (wf_plast _ _ _ _ _ W) as Hl. rewrite E in Hl.
      replace (A ++ pp :: p :: c :: n :: B) with ((A ++ [pp; p; c]) ++ n :: B) in Hl
        by (rewrite <- app_assoc; reflexivity).
      replace (A ++ pp :: p :: n :: B) with ((A ++ [pp; p]) ++ n :: B)
        by (rewrite <- app_assoc; reflexivity).
      rewrite last_app_keep in Hl |- *. exact Hl.
    - apply (wf_fhd _ _ _ _ _ W).
    - apply (wf_flast _ _ _ _ _ W).
    - apply (phys_replace h h' A pp [p; c] [p] n B Hch).
      + intros x Hx. rewrite NB', PB' by lia. auto.
      + intros x Hx. apply NB'. lia.
      + intros x Hx. apply PB'. lia.
      + simpl. unfold plink. rewrite NBp, PBn, !NB', !PB' by lia.
        repeat split; auto; lia.
    - generalize (wf_free _ _ _ _ _ W). apply chain_frame.
      intros a b _ _. unfold flink. rewrite NF', PF'. auto.
    - apply (wf_nodup _ _ _ _ _ W).
    - intros x. rewrite Hin'. rewrite (wf_flag _ _ _ _ _ W x).
      destruct (Z.eq_dec x p) as [->|Hxp].
      + rewrite NBp. intuition lia.
      + rewrite NB' by assumption.
        destruct (Z.eq_dec x c) as [->|Hxc]; [|tauto].
        pose proof (proj2 U). intuition lia.
    - rewrite NB' by lia. apply (wf_nb0 _ _ _ _ _ W).
    - rewrite NB' by lia. apply (wf_nbt _ _ _ _ _ W).
    - rewrite NF'. apply (wf_nft _ _ _ _ _ W). }
  split; [exact W'|].
  split; [split; [apply Hin'; split; [apply Up|lia]|apply Up]|].
  split; [exact NBp|].
  split.
  { intros u [U1 U2] Huc. split; [split; [apply Hin'; auto|exact U2]|].
    intros Hup. apply NB', Hup. }
  split.
  { intros u [U1 U2]. split; [|exact U2]. apply Hin' in U1. tauto. }
  intros w W1 W2. unfold h'. rd_frame. reflexivity.
Qed.
End MergeDown.

(** ** The three endings of umm_realloc *)

Lemma shrink_wf N h pl fl t c blocks :
  Wf N h pl fl t -> used pl fl c -> 1 <= blocks < UMM_NBLOCK h c - c ->
  let h' := umm_free (umm_make_new_block h c blocks 0) (Some (data_addr (c + blocks))) in
  exists pl' fl',
    Wf N h' pl' fl' t /\ used pl' fl' c /\
    UMM_NBLOCK h' c = c + blocks /\
    (forall u, used pl fl u ->
       used pl' fl' u /\ (u <> c -> UMM_NBLOCK h' u = UMM_NBLOCK h u)) /\
    (forall u, used pl' fl' u -> used pl fl u) /\
    (forall w, 4 * c + 2 <= w < 4 * (c + blocks) -> rd h' w = rd h w) /\
    (forall u w, used pl fl u -> u <> c -> payload h u w -> rd h' w = rd h w).
Proof.
  intros W U Hb h'.
  destruct (split_used_wf N h pl fl t c blocks W U Hb)
    as (pl3 & W3 & Uc3 & Us3 & NBc & NBs & Hu3 & Hu3' & Hfr3).
  set (h3 := umm_make_new_block h c blocks 0) in *.
  set (s := c + blocks) in *.
  destruct (used_ctx _ _ _ _ _ _ W U) as (A & p & n & B & E & Hn & Hp & Rp & Rn & _).
  assert (Hext : forall x, In x pl -> x <= c \/ n <= x).
  { apply (wf_extent _ _ _ _ _ (A ++ [p]) c n B W).
    rewrite <- app_cons_assoc. exact E. }
  unfold h'. rewrite (umm_free_block _ _ _ _ _ _ W3 Us3).
  destruct (free_block_wf N h3 pl3 fl t s W3 Us3)
    as (pl' & fl' & W' & Hns & Hu' & Hu'' & Hfr' & _).
  assert (Hcs : c <> s) by (unfold s; lia).
  exists pl', fl'. split; [exact W'|].
  split; [apply Hu'; assumption|].
  split; [rewrite (proj2 (Hu' c Uc3 Hcs)); exact NBc|].
  split.
  { intros u Hu. destruct (Hu3 u Hu) as [V1 V2].
    assert (Hus : u <> s).
    { intros ->. specialize (Hext s (proj1 Hu)). unfold s in *. lia. }
    destruct (Hu' u V1 Hus) as [V3 V4]. split; [exact V3|].
    intros Huc. rewrite V4. apply V2, Huc. }
  split.
  { intros u Hu. specialize (Hu'' u Hu). destruct (Hu3' u Hu'') as [->|]; [|assumption].
    contradiction. }
  split.
  { intros w Hw. rewrite (Hfr' c w Uc3 Hcs).
    - apply Hfr3; unfold s in *; lia.
    - unfold payload. rewrite NBc. unfold s. lia. }
  intros u w Hu Huc Hpay.
  destruct (Hu3 u Hu) as [V1 V2].
  assert (Hus : u <> s).
  { intros ->. specialize (Hext s (proj1 Hu)). unfold s in *. lia. }
  rewrite (Hfr' u w V1 Hus).
  - destruct (payload_geom _ _ _ _ _ _ _ W Hu Hpay) as (nu & Hnu & G1 & G2 & G3 & Hextu).
    pose proof (Hextu c (proj1 U)). pose proof (Hext u (proj1 Hu)).
    apply Hfr3; unfold s in *; lia.
  - unfold payload in *. rewrite (V2 Huc). exact Hpay.
Qed.

Lemma grow_wf N h pl fl t c size cur h3 q :
  Wf N h pl fl t -> used pl fl c -> size <> 0 -> 1 <= umm_blocks size ->
  0 <= cur -> cur / 2 <= 4 * (UMM_NBLOCK h c - c) - 2 ->
  UMM_NBLOCK h c - c < umm_blocks size ->
  umm_malloc h size = Some (h3, Some q) ->
  let h' := umm_free (move_bytes h3 q (data_addr c) cur) (Some (data_addr c)) in
  exists cf pl' fl' t',
    q = data_addr cf /\ Wf N h' pl' fl' t' /\
    used pl' fl' cf /\ ~ used pl fl cf /\
    UMM_NBLOCK h' cf = cf + umm_blocks size /\
    ~ used pl' fl' c /\
    (forall u, used pl fl u -> u <> c ->
       used pl' fl' u /\ UMM_NBLOCK h' u = UMM_NBLOCK h u) /\
    (forall u, used pl' fl' u -> u = cf \/ used pl fl u) /\
    (forall k, 0 <= k < cur / 2 -> rd h' (4 * cf + 2 + k) = rd h (4 * c + 2 + k)) /\
    (forall u w, used pl fl u -> u <> c -> payload h u w -> rd h' w = rd h w).
Proof.
  intros W U Hsize Hb Hcur Hfit Hgrow Hm h'.
  destruct (malloc_wf _ _ _ _ _ _ W Hsize Hb) as (h2 & r2 & Hm2 & Hcase).
  rewrite Hm in Hm2. injection Hm2 as <- <-.
  destruct Hcase as [[E _]|(cf & E & pl3 & fl3 & t3 & W3 & Ucf & Hnew & NBcf & Hu3 & Hu3' & Hfr3)];
    [discriminate|].
  injection E as ->.
  set (blocks := umm_blocks size) in *.
  destruct (used_ctx _ _ _ _ _ _ W U) as (A & p & n & B & _ & Hn & _ & Rp & Rn & _).
  rewrite Hn in *.
  assert (Hcfc : cf <> c) by (intros ->; contradiction).
  destruct (Hu3 c U) as [Uc3 NBc3].
  pose proof (used_range _ _ _ _ _ _ W3 Ucf) as Rcf.
  pose proof (wf_t _ _ _ _ _ W3) as Ht3. pose proof (wf_words _ _ _ _ _ W3) as Hw3.
  destruct (used_ctx _ _ _ _ _ _ W3 Ucf) as (_ & _ & ncf & _ & _ & Hncf & _ & _ & Rncf & _).
  set (h4 := move_bytes h3 (data_addr cf) (data_addr c) cur) in *.
  assert (Hout : forall w, ~ payload h3 cf w -> rd h4 w = rd h3 w).
  { intros w Hw. unfold h4. apply move_bytes_outside; [exact Hcur|].
    rewrite data_addr_word. unfold payload in Hw. rewrite NBcf in Hw. lia. }
  destruct (payload_write_wf N h3 h4 pl3 fl3 t3 cf W3 Ucf
              (move_bytes_words _ _ _ _) Hout) as (W4 & NB4 & Hfr4).
  assert (Uc4 : used pl3 fl3 c) by exact Uc3.
  unfold h'. rewrite (umm_free_block _ _ _ _ _ _ W4 Uc4).
  destruct (free_block_wf N h4 pl3 fl3 t3 c W4 Uc4)
    as (pl' & fl' & W' & Hnc & Hu' & Hu'' & Hfr' & _).
  exists cf, pl', fl', t3. split; [reflexivity|]. split; [exact W'|].
  split; [apply Hu'; assumption|].
  split; [exact Hnew|].
  split; [rewrite (proj2 (Hu' cf Ucf Hcfc)), NB4 by assumption; exact NBcf|].
  split; [exact Hnc|].
  split.
  { intros u Hu Huc. destruct (Hu3 u Hu) as [V1 V2].
    destruct (Hu' u V1 Huc) as [V3 V4]. split; [exact V3|].
    rewrite V4, NB4 by assumption. exact V2. }
  split.
  { intros u Hu. apply Hu3', Hu'', Hu. }
  split.
  { intros k Hk. rewrite (Hfr' cf _ Ucf Hcfc).
    - unfold h4. rewrite <- (data_addr_word cf).
      rewrite move_bytes_inside; try lia.
      + rewrite data_addr_word. apply (Hfr3 c _ U). unfold payload. rewrite Hn. lia.
      + unfold data_addr, BLOCK_BYTES, HEADER_BYTES. lia.
      + rewrite data_addr_word. lia.
    - unfold payload. rewrite NB4, NBcf by assumption. lia. }
  intros u w Hu Huc Hpay. destruct (Hu3 u Hu) as [V1 V2].
  assert (Hucf : u <> cf) by (intros ->; contradiction).
  assert (Hpay3 : payload h3 u w) by (unfold payload in *; rewrite V2; exact Hpay).
  rewrite (Hfr' u w V1 Huc).
  - rewrite (Hfr4 u w V1 Hucf Hpay3). apply (Hfr3 u w Hu Hpay).
  - unfold payload in *. rewrite NB4 by assumption. exact Hpay3.
Qed.

Lemma down_wf N h pl fl t c cur :
  Wf N h pl fl t -> used pl fl c ->
  32768 <= UMM_NBLOCK h (UMM_PBLOCK h c) ->
  0 <= cur -> cur / 2 <= 4 * (UMM_NBLOCK h c - c) - 2 ->
  let p := UMM_PBLOCK h c in
  let ha := umm_disconnect_from_free_list h p in
  let hb := fst (umm_assimilate_down ha c 0) in
  let hc := move_bytes hb (data_addr (snd (umm_assimilate_down ha c 0))) (data_addr c) cur in
  snd (umm_assimilate_down ha c 0) = p /\
  exists pl' fl',
    Wf N hc pl' fl' t /\ used pl' fl' p /\ ~ used pl fl p /\
    UMM_NBLOCK hc p = UMM_NBLOCK h c /\ p < c /\
    (forall u, used pl fl u -> u <> c ->
       used pl' fl' u /\ UMM_NBLOCK hc u = UMM_NBLOCK h u) /\
    (forall u, used pl' fl' u -> u = p \/ used pl fl u) /\
    (forall k, 0 <= k < cur / 2 -> rd hc (4 * p + 2 + k) = rd h (4 * c + 2 + k)) /\
    (forall u w, used pl fl u -> u <> c -> payload h u w -> rd hc w = rd h w).
Proof.
  intros W U Hflag Hcur Hfit p ha hb hc.
  destruct (used_ctx _ _ _ _ _ _ W U) as (A & p0 & n & B & E & Hn & Hp & Rp & Rn & _).
  assert (Ep : p = p0) by exact Hp. clearbody p. rewrite <- Ep in *. clear Ep.
  rewrite Hp in Hflag. rewrite Hn in *.
  pose proof (wf_t _ _ _ _ _ W) as Ht. pose proof (wf_N _ _ _ _ _ W) as HN.
  pose proof (wf_words _ _ _ _ _ W) as Hw.
  assert (Hppl : In p pl) by (rewrite E; in_list).
  assert (Hp0 : p <> 0) by (intros ->; pose proof (wf_nb0 _ _ _ _ _ W); lia).
  assert (Hpt : p <> t) by lia.
  assert (Hpfl : In p fl) by (apply (wf_flag _ _ _ _ _ W); auto).
  destruct (disconnect_wf N h pl fl t p W Hpfl Hp0 Hpt)
    as (fla & FA & fp & fn & FB & m & Efl & Efla & Hm & Eqa & Wa).
  fold ha in Eqa, Wa.
  pose proof (wf_nodup _ _ _ _ _ W) as Hnd. rewrite Efl in Hnd.
  destruct (nodup_three _ _ _ _ _ Hnd)
    as (D1 & D2 & D3 & D4 & D5 & D6 & D7 & D8 & D9 & _).
  assert (Hina : forall x, In x fla <-> In x fl /\ x <> p).
  { intros x. rewrite Efl, Efla, !in_app_iff. simpl. intuition congruence. }
  assert (Hfpfl : In fp fl) by (rewrite Efl; in_list).
  assert (Hfnfl : In fn fl) by (rewrite Efl; in_list).
  assert (NBa : forall x, x <> p -> UMM_NBLOCK ha x = UMM_NBLOCK h x)
    by (intros; rewrite Eqa; hsimp; reflexivity).
  assert (PBa : forall x, UMM_PBLOCK ha x = UMM_PBLOCK h x)
    by (intros; rewrite Eqa; hsimp; reflexivity).
  assert (Uca : used pl fla c).
  { split; [apply U|]. rewrite Hina. intros [Hx _]. apply (proj2 U), Hx. }
  assert (Upa : used pl fla (UMM_PBLOCK ha c)).
  { rewrite PBa, Hp. split; [exact Hppl|]. rewrite Hina. tauto. }
  destruct (merge_used_down N ha pl fla t c Wa Uca Upa)
    as (pl' & Esnd & Wb & Upb & NBp & Hub & Hub' & Hfrb).
  fold hb in Wb, NBp, Hub, Hfrb.
  rewrite PBa, Hp in *. rewrite (NBa c) in * by lia. rewrite Hn in *.
  unfold hc. rewrite Esnd. clear hc.
  set (hc := move_bytes hb (data_addr p) (data_addr c) cur).
  split; [reflexivity|].
  assert (Hout : forall w, ~ payload hb p w -> rd hc w = rd hb w).
  { intros w Hw'. unfold hc. apply move_bytes_outside; [exact Hcur|].
    rewrite data_addr_word. unfold payload in Hw'. rewrite NBp in Hw'. lia. }
  destruct (payload_write_wf N hb hc pl' fla t p Wb Upb
              (move_bytes_words _ _ _ _) Hout) as (Wc & NBc & Hfrc).
  assert (Hgeo : forall u w, used pl fl u -> payload h u w ->
            rd hb w = rd h w /\ (u <> c -> ~ payload hb p w)).
  { intros u w Hu Hpay.
    destruct (payload_geom _ _ _ _ _ _ _ W Hu Hpay) as (nu & Hnu & G1 & G2 & G3 & Hext).
    assert (fp <> u /\ fn <> u /\ p <> u) as (X1 & X2 & X3).
    { repeat split; intros ->; apply (proj2 Hu); assumption. }
    pose proof (Hext fp (wf_fl_sub _ _ _ _ _ W _ Hfpfl)).
    pose proof (Hext fn (wf_fl_sub _ _ _ _ _ W _ Hfnfl)).
    pose proof (Hext p Hppl). pose proof (Hext c (proj1 U)).
    assert (Hnpl : In n pl) by (rewrite E; in_list).
    pose proof (Hext n Hnpl).
    split.
    - rewrite Hfrb by lia. rewrite Eqa. rd_frame. reflexivity.
    - intros Huc. unfold payload. rewrite NBp.
      assert (Hextc : forall x, In x pl -> x <= c \/ n <= x).
      { apply (wf_extent _ _ _ _ _ (A ++ [p]) c n B W).
        rewrite <- app_cons_assoc. exact E. }
      assert (Hextp : forall x, In x pl -> x <= p \/ c <= x).
      { apply (wf_extent _ _ _ _ _ A p c (n :: B) W). exact E. }
      pose proof (Hextc u (proj1 Hu)). pose proof (Hextp u (proj1 Hu)). lia. }
  exists pl', fla. split; [exact Wc|]. split; [exact Upb|].
  split; [intros [_ Hx]; contradiction|].
  split; [rewrite NBc by assumption; exact NBp|].
  split; [lia|].
  split.
  { intros u Hu Huc.
    assert (Hup : u <> p) by (intros ->; apply (proj2 Hu), Hpfl).
    assert (Hua : used pl fla u).
    { split; [apply Hu|]. rewrite Hina. intros [Hx _]. apply (proj2 Hu), Hx. }
    destruct (Hub u Hua Huc) as [V1 V2]. split; [exact V1|].
    rewrite NBc by assumption. rewrite (V2 Hup). apply NBa, Hup. }
  split.
  { intros u Hu. destruct (Z.eq_dec u p) as [->|Hup]; [auto|right].
    specialize (Hub' u Hu). destruct Hub' as [V1 V2]. split; [exact V1|].
    rewrite Hina in V2. tauto. }
  split.
  { intros k Hk. unfold hc. rewrite <- (data_addr_word p).
    rewrite move_bytes_inside; try lia.
    - rewrite data_addr_word. apply (Hgeo c _ U). unfold payload. rewrite Hn. lia.
    - unfold data_addr, BLOCK_BYTES, HEADER_BYTES. lia.
    - rewrite move_bytes_words || idtac. rewrite data_addr_word.
      rewrite (wf_words _ _ _ _ _ Wb). lia. }
  intros u w Hu Huc Hpay. destruct (Hgeo u w Hu Hpay) as [G1 G2].
  rewrite Hout by (apply G2, Huc). exact G1.
Qed.

Lemma finish_fit N h pl fl t c p2 blocks size cur :
  Wf N h pl fl t -> used pl fl c -> 1 <= blocks -> blocks <= UMM_NBLOCK h c - c ->
  exists h' pl' fl',
    realloc_finish h c p2 blocks size cur = Some (h', Some p2) /\
    Wf N h' pl' fl' t /\ used pl' fl' c /\
    UMM_NBLOCK h' c = c + blocks /\
    (forall u, used pl fl u ->
       used pl' fl' u /\ (u <> c -> UMM_NBLOCK h' u = UMM_NBLOCK h u)) /\
    (forall u, used pl' fl' u -> used pl fl u) /\
    (forall w, 4 * c + 2 <= w < 4 * (c + blocks) -> rd h' w = rd h w) /\
    (forall u w, used pl fl u -> u <> c -> payload h u w -> rd h' w = rd h w).
Proof.
  intros W U Hb Hfit.
  destruct (used_ctx _ _ _ _ _ _ W U) as (A & p & n & B & _ & Hn & _ & Rp & Rn & _).
  pose proof (wf_t _ _ _ _ _ W) as Ht. pose proof (wf_N _ _ _ _ _ W) as HN.
  unfold realloc_finish. rewrite Hn in *. rewrite (u16_small (n - c)) by lia.
  destruct (Z.eqb_spec (n - c) blocks) as [Heq|Hne].
  - exists h, pl, fl. split; [reflexivity|]. split; [exact W|]. split; [exact U|].
    split; [lia|]. split; [auto|]. auto.
  - destruct (Z.ltb_spec blocks (n - c)) as [Hlt|?]; [|lia].
    destruct (shrink_wf N h pl fl t c blocks W U) as (pl' & fl' & H); [lia|].
    eexists _, pl', fl'. split; [reflexivity|]. exact H.
Qed.

Lemma used_inside N h pl fl t u x :
  Wf N h pl fl t -> used pl fl u -> u < x < UMM_NBLOCK h u -> ~ In x pl.
Proof.
  intros W U Hx Hin.
  destruct (used_ctx _ _ _ _ _ _ W U) as (A & p & n & B & E & Hn & _).
  assert (Hext : forall y, In y pl -> y <= u \/ n <= y).
  { apply (wf_extent _ _ _ _ _ (A ++ [p]) u n B W).
    rewrite <- app_cons_assoc. exact E. }
  specialize (Hext x Hin). lia.
Qed.

(** ** umm_realloc on a block in use *)

Theorem realloc_wf N h pl fl t c size :
  Wf N h pl fl t -> used pl fl c -> size <> 0 -> 1 <= umm_blocks size ->
  exists h' r pl' fl' t',
    umm_realloc h (Some (data_addr c)) size = Some (h', r) /\
    Wf N h' pl' fl' t' /\
    (forall u, used pl fl u -> u <> c ->
       used pl' fl' u /\ UMM_NBLOCK h' u = UMM_NBLOCK h u) /\
    (forall u w, used pl fl u -> u <> c -> payload h u w -> rd h' w = rd h w) /\
    ((r = None /\ used pl' fl' c /\
      (forall u, used pl' fl' u -> used pl fl u) /\
      (forall w, payload h c w -> rd h' w = rd h w) /\
      h' = umm_assimilate_up h c /\
      UMM_NBLOCK (umm_assimilate_up h c) c - c < umm_blocks size /\
      (UMM_NBLOCK (umm_assimilate_up h c) (UMM_PBLOCK h c) < 32768 \/
       UMM_NBLOCK (umm_assimilate_up h c) c - UMM_PBLOCK h c < umm_blocks size))
     \/
     (exists c', r = Some (data_addr c') /\ used pl' fl' c' /\
        (c' = c \/ ~ used pl fl c') /\
        (c' <> c -> ~ used pl' fl' c) /\
        (forall u, used pl' fl' u -> u = c' \/ used pl fl u) /\
        UMM_NBLOCK h' c' = c' + umm_blocks size /\
        (forall k, 0 <= k < 4 * (UMM_NBLOCK h c - c) - 2 ->
                   k < 4 * umm_blocks size - 2 ->
                   rd h' (4 * c' + 2 + k) = rd h (4 * c + 2 + k)) /\
        (UMM_NBLOCK h c - c <> umm_blocks size ->
         32768 <= UMM_NBLOCK (umm_assimilate_up h c) (UMM_PBLOCK h c) ->
         umm_blocks size <= UMM_NBLOCK (umm_assimilate_up h c) c - UMM_PBLOCK h c ->
         c' = UMM_PBLOCK h c) /\
        (UMM_NBLOCK (umm_assimilate_up h c) (UMM_PBLOCK h c) < 32768 ->
         umm_blocks size <= UMM_NBLOCK (umm_assimilate_up h c) c - c ->
         c' = c))).
Proof.
  intros W U Hsize Hb.
  set (blocks := umm_blocks size) in *.
  destruct (used_ctx _ _ _ _ _ _ W U) as (A & p & n & B & _ & Hn & Hp & Rp & Rn & _).
  pose proof (wf_t _ _ _ _ _ W) as Ht. pose proof (wf_N _ _ _ _ _ W) as HN.
  unfold umm_realloc. destruct (Z.eqb_spec size 0) as [?|_]; [contradiction|].
  rewrite block_of_data_addr by lia. fold blocks.
  rewrite Hn. rewrite (u16_small (n - c)) by lia.
  assert (Ecur : usize ((n - c) * BLOCK_BYTES - HEADER_BYTES) = 8 * (n - c) - 4).
  { unfold usize, SIZE_MAX, BLOCK_BYTES, HEADER_BYTES. rewrite Z.mod_small; lia. }
  rewrite Ecur. set (cur := 8 * (n - c) - 4).
  assert (Hcur2 : cur / 2 = 4 * (n - c) - 2).
  { unfold cur. replace (8 * (n - c) - 4) with ((4 * (n - c) - 2) * 2) by lia.
    apply Z.div_mul. lia. }
  destruct (Z.eqb_spec (n - c) blocks) as [Heq|Hne].
  { exists h, (Some (data_addr c)), pl, fl, t.
    split; [reflexivity|]. split; [exact W|]. split; [auto|]. split; [auto|].
    right. exists c. split; [reflexivity|]. split; [exact U|]. split; [auto|].
    split; [congruence|]. split; [auto|]. split; [lia|]. split; [auto|].
    split; [intros; lia|reflexivity]. }
  destruct (assimilate_up_wf N h pl fl t c W U)
    as (pl1 & fl1 & W1 & U1 & HPB & HNB & _ & Hiff & HNB1 & Hfr).
  set (h1 := umm_assimilate_up h c) in *.
  destruct (used_ctx _ _ _ _ _ _ W1 U1)
    as (A1 & p1 & n1 & B1 & _ & Hn1 & Hp1 & Rp1 & Rn1 & Lp1 & _).
  rewrite Hp in HPB. rewrite Hn in HNB.
  assert (Ep1 : p1 = p) by congruence. rewrite Ep1 in *. clear Ep1.
  rewrite Hn1 in HNB.
  assert (Hpay : forall u w, used pl fl u -> u <> c -> payload h u w -> payload h1 u w).
  { intros u w Hu Huc. unfold payload. rewrite (HNB1 u Hu Huc). auto. }
  rewrite HPB, Hn1. rewrite ?Hp.
  assert (Hdown : 32768 <= UMM_NBLOCK h1 p -> blocks <= n1 - p ->
            negb (Z.land (UMM_NBLOCK h1 p) UMM_FREELIST_MASK =? 0) &&
            (blocks <=? n1 - p) = true).
  { intros H1 H2. destruct Lp1 as (_ & [E|E] & _); [lia|].
    rewrite E. unfold UMM_FREELIST_MASK. rewrite flag_flagged by lia.
    change (32768 =? 0) with false. cbn [negb andb]. apply Z.leb_le, H2. }
  assert (Hstay : negb (Z.land (UMM_NBLOCK h1 p) UMM_FREELIST_MASK =? 0) &&
                  (blocks <=? n1 - p) = false ->
                  UMM_NBLOCK h1 p < 32768 \/ n1 - p < blocks).
  { intros H. destruct (Z_lt_le_dec (UMM_NBLOCK h1 p) 32768) as [?|H1]; [auto|].
    destruct (Z_lt_le_dec (n1 - p) blocks) as [?|H2]; [auto|].
    rewrite (Hdown H1 H2) in H. discriminate. }
  destruct (negb (Z.land (UMM_NBLOCK h1 p) UMM_FREELIST_MASK =? 0) && (blocks <=? n1 - p))
    eqn:Hcond.
  - (* the data moves down into the free block below *)
    apply andb_prop in Hcond. destruct Hcond as [Hfl Hle]. apply Z.leb_le in Hle.
    assert (Hflag : 32768 <= UMM_NBLOCK h1 (UMM_PBLOCK h1 c)).
    { rewrite HPB. destruct Lp1 as (_ & [E|E] & _); [|lia].
      rewrite E in Hfl. unfold UMM_FREELIST_MASK in Hfl.
      rewrite flag_bit_clear in Hfl by lia. discriminate. }
    pose proof (down_wf N h1 pl1 fl1 t c cur W1 U1 Hflag ltac:(lia) ltac:(lia)) as D.
    cbv zeta in D. rewrite HPB in D.
    destruct (umm_assimilate_down (umm_disconnect_from_free_list h1 p) c 0)
      as [hb c'] eqn:Ead.
    cbn [fst snd] in D.
    destruct D as (Esnd & plc & flc & Wc & Upc & Hnup & NBpc & Hpc & Huc & Huc' & Hdata & Hfrc).
    cbv beta iota zeta. rewrite Esnd in *.
    set (hc := move_bytes hb (data_addr p) (data_addr c) cur) in *.
    rewrite Hn1 in NBpc.
    destruct (finish_fit N hc plc flc t p (data_addr p) blocks size cur Wc Upc Hb
                ltac:(lia))
      as (h' & pl' & fl' & Efin & W' & U' & NB' & Hu' & Hu'' & Hd' & Hfr').
    rewrite Efin.
    exists h', (Some (data_addr p)), pl', fl', t.
    split; [reflexivity|]. split; [exact W'|].
    assert (Hnp : forall u, used pl fl u -> u <> p).
    { intros u Hu ->. apply Hnup, Hiff, Hu. }
    split.
    { intros u Hu Hne'. destruct (Huc u (proj1 (Hiff u) Hu) Hne') as [V1 V2].
      destruct (Hu' u V1) as [V3 V4]. split; [exact V3|].
      rewrite V4 by (apply Hnp, Hu). rewrite V2. apply HNB1; assumption. }
    split.
    { intros u w Hu Hne' Hw.
      destruct (Huc u (proj1 (Hiff u) Hu) Hne') as [V1 V2].
      rewrite (Hfr' u w V1 (Hnp u Hu)).
      - rewrite (Hfrc u w (proj1 (Hiff u) Hu) Hne' (Hpay u w Hu Hne' Hw)).
        apply (Hfr u w Hu Hw).
      - unfold payload. rewrite V2. apply (Hpay u w Hu Hne' Hw). }
    right. exists p. split; [reflexivity|]. split; [exact U'|].
    split; [right; intros Hx; apply Hnup, Hiff, Hx|].
    split.
    { intros _ Hx. apply Hu'' in Hx.
      apply (used_inside _ _ _ _ _ p c Wc Upc); [lia|apply Hx]. }
    split.
    { intros u Hu. destruct (Huc' u (Hu'' u Hu)) as [?|Hx]; [auto|].
      right. apply Hiff, Hx. }
    split; [exact NB'|].
    split.
    { intros k Hk1 Hk2. rewrite Hd' by lia. rewrite Hdata by lia.
      apply (Hfr c _ U). unfold payload. rewrite Hn. lia. }
    rewrite HPB in Hflag. split; [intros; reflexivity|intros; lia].
  - (* the block stays where it is *)
    cbv beta iota zeta.
    destruct (Z_le_gt_dec blocks (n1 - c)) as [Hfit|Hgrow].
    + destruct (finish_fit N h1 pl1 fl1 t c (data_addr c) blocks size cur W1 U1 Hb
                  ltac:(lia))
        as (h' & pl' & fl' & Efin & W' & U' & NB' & Hu' & Hu'' & Hd' & Hfr').
      rewrite Efin.
      exists h', (Some (data_addr c)), pl', fl', t.
      split; [reflexivity|]. split; [exact W'|].
      split.
      { intros u Hu Hne'. destruct (Hu' u (proj1 (Hiff u) Hu)) as [V3 V4].
        split; [exact V3|]. rewrite V4 by assumption. apply HNB1; assumption. }
      split.
      { intros u w Hu Hne' Hw.
        rewrite (Hfr' u w (proj1 (Hiff u) Hu) Hne' (Hpay u w Hu Hne' Hw)).
        apply (Hfr u w Hu Hw). }
      right. exists c. split; [reflexivity|]. split; [exact U'|].
      split; [auto|]. split; [congruence|].
      split; [intros u Hu; right; apply Hiff, Hu'', Hu|].
      split; [exact NB'|].
      split.
      { intros k Hk1 Hk2. rewrite Hd' by lia.
        apply (Hfr c _ U). unfold payload. rewrite Hn. lia. }
      split; [|intros; reflexivity].
      intros _ H1 H2. discriminate (Hdown H1 H2).
    + unfold realloc_finish. rewrite Hn1. rewrite (u16_small (n1 - c)) by lia.
      destruct (Z.eqb_spec (n1 - c) blocks) as [?|_]; [lia|].
      destruct (Z.ltb_spec blocks (n1 - c)) as [?|_]; [lia|].
      destruct (malloc_wf _ _ _ _ _ _ W1 Hsize Hb) as (h3 & r3 & Hm & Hcase).
      fold blocks in Hcase. rewrite Hm.
      destruct Hcase as [[-> ->]|(cf & -> & _)].
      * exists h1, None, pl1, fl1, t.
        split; [reflexivity|]. split; [exact W1|].
        split.
        { intros u Hu Hne'. split; [apply Hiff, Hu|apply HNB1; assumption]. }
        split; [intros u w Hu _ Hw; apply (Hfr u w Hu Hw)|].
        left. split; [reflexivity|]. split; [exact U1|].
        split; [intros u Hu; apply Hiff, Hu|].
        split; [intros w Hw; apply (Hfr c w U Hw)|].
        split; [reflexivity|]. split; [lia|]. apply Hstay. reflexivity.
      * pose proof (grow_wf N h1 pl1 fl1 t c size cur h3 (data_addr cf) W1 U1 Hsize Hb
                      ltac:(lia) ltac:(lia) ltac:(fold blocks; lia) Hm) as G.
        cbv zeta in G.
        destruct G as (cf' & pl' & fl' & t' & Ecf & W' & Ucf & Hnew & NBcf & Hnc & Hu' &
                       Hu'' & Hdata & Hfr').
        exists (umm_free (move_bytes h3 (data_addr cf) (data_addr c) cur)
                         (Some (data_addr c))),
               (Some (data_addr cf)), pl', fl', t'.
        split; [reflexivity|]. split; [exact W'|].
        split.
        { intros u Hu Hne'. destruct (Hu' u (proj1 (Hiff u) Hu) Hne') as [V1 V2].
          split; [exact V1|]. rewrite V2. apply HNB1; assumption. }
        split.
        { intros u w Hu Hne' Hw.
          rewrite (Hfr' u w (proj1 (Hiff u) Hu) Hne' (Hpay u w Hu Hne' Hw)).
          apply (Hfr u w Hu Hw). }
        right. exists cf'. split; [rewrite Ecf; reflexivity|]. split; [exact Ucf|].
        split; [right; intros Hx; apply Hnew, Hiff, Hx|].
        split; [intros _; exact Hnc|].
        split.
        { intros u Hu. destruct (Hu'' u Hu) as [?|Hx]; [auto|]. right. apply Hiff, Hx. }
        split; [exact NBcf|].
        split.
        { intros k Hk1 Hk2. rewrite Hdata by lia.
          apply (Hfr c _ U). unfold payload. rewrite Hn. lia. }
        split; [|intros; lia].
        intros _ H1 H2. discriminate (Hdown H1 H2).
Qed.

(** ** States between public operations *)

Lemma data_addr_inj a b : data_addr a = data_addr b -> a = b.
Proof. unfold data_addr, BLOCK_BYTES, HEADER_BYTES. lia. Qed.

Lemma live_ok_remove pl fl pl' fl' live c :
  live_ok pl fl live ->
  (forall u, used pl fl u -> u <> c -> used pl' fl' u) ->
  live_ok pl' fl' (remove Z.eq_dec (data_addr c) live).
Proof.
  intros HL Hk q Hq. apply in_remove in Hq. destruct Hq as [Hq Hne].
  destruct (HL q Hq) as (u & -> & Hu). exists u. split; [reflexivity|].
  apply Hk; [exact Hu|]. intros ->. apply Hne. reflexivity.
Qed.

Lemma live_ok_keep pl fl pl' fl' live :
  live_ok pl fl live ->
  (forall u, used pl fl u -> used pl' fl' u) ->
  live_ok pl' fl' live.
Proof.
  intros HL Hk q Hq. destruct (HL q Hq) as (u & -> & Hu). exists u. auto.
Qed.

Theorem reachable_inv n h live :
  Z.of_nat n <= 32767 -> reachable n h live ->
  (h = zero_heap n /\ live = []) \/
  exists pl fl t, Wf (Z.of_nat n) h pl fl t /\ live_ok pl fl live.
Proof.
  intros HN R.
  induction R as [|h live size h' r R IH Hb Hm|h live p R IH Hp
                  |h live p size h' r R IH Hp Hb Hm|h live p w v R IH Hp Hw].
  - left. auto.
  - (* umm_malloc *)
    destruct (Z.eq_dec size 0) as [->|Hsize].
    { unfold umm_malloc in Hm. simpl in Hm. injection Hm as <- <-. exact IH. }
    assert (Hb1 : 1 <= umm_blocks size).
    { pose proof (umm_blocks_range size). specialize (Hb Hsize). lia. }
    destruct IH as [[-> ->]|(pl & fl & t & W & HL)].
    + destruct (malloc_zero n size HN Hsize Hb1) as (h2 & r2 & Hm2 & Hcase).
      rewrite Hm in Hm2. injection Hm2 as <- <-.
      destruct Hcase as [[-> ->]|[-> (pl' & fl' & t' & W' & U' & _)]]; [left; auto|].
      right. exists pl', fl', t'. split; [exact W'|].
      intros q [<-|[]]. exists 1. auto.
    + destruct (malloc_wf _ _ _ _ _ _ W Hsize Hb1) as (h2 & r2 & Hm2 & Hcase).
      rewrite Hm in Hm2. injection Hm2 as <- <-.
      destruct Hcase as [[-> ->]|(cf & -> & pl' & fl' & t' & W' & U' & _ & _ & Hk & _)].
      * right. exists pl, fl, t. auto.
      * right. exists pl', fl', t'. split; [exact W'|].
        intros q [<-|Hq]; [exists cf; auto|].
        destruct (HL q Hq) as (u & -> & Hu). exists u. split; [reflexivity|].
        apply Hk, Hu.
  - (* umm_free *)
    destruct IH as [[-> ->]|(pl & fl & t & W & HL)]; [destruct Hp|].
    destruct (HL p Hp) as (c & -> & U).
    rewrite (umm_free_block _ _ _ _ _ _ W U).
    destruct (free_block_wf _ h pl fl t c W U) as (pl' & fl' & W' & _ & Hk & _).
    right. exists pl', fl', t. split; [exact W'|].
    apply (live_ok_remove pl fl); [exact HL|]. intros u Hu Hne. apply Hk; assumption.
  - (* umm_realloc *)
    destruct IH as [[-> ->]|(pl & fl & t & W & HL)]; [destruct Hp|].
    destruct (HL p Hp) as (c & -> & U).
    destruct (Z.eq_dec size 0) as [->|Hsize].
    { unfold umm_realloc in Hm. rewrite Z.eqb_refl in Hm. injection Hm as <- <-.
      change (free_block h (block_of_ptr (data_addr c)))
        with (umm_free h (Some (data_addr c))).
      rewrite (umm_free_block _ _ _ _ _ _ W U).
      destruct (free_block_wf _ h pl fl t c W U) as (pl' & fl' & W' & _ & Hk & _).
      right. exists pl', fl', t. split; [exact W'|]. simpl.
      apply (live_ok_remove pl fl); [exact HL|]. intros u Hu Hne. apply Hk; assumption. }
    assert (Hb1 : 1 <= umm_blocks size).
    { pose proof (umm_blocks_range size). specialize (Hb Hsize). lia. }
    destruct (realloc_wf _ _ _ _ _ _ _ W U Hsize Hb1)
      as (h2 & r2 & pl' & fl' & t' & Hm2 & W' & Hk & _ & Hcase).
    rewrite Hm in Hm2. injection Hm2 as <- <-.
    right. exists pl', fl', t'. split; [exact W'|].
    destruct Hcase as [(-> & Uc & _)|(c' & -> & Uc' & _)].
    + destruct (Z.eqb_spec size 0) as [?|_]; [contradiction|].
      intros q Hq. destruct (HL q Hq) as (u & -> & Hu). exists u.
      split; [reflexivity|].
      destruct (Z.eq_dec u c) as [->|Hne]; [exact Uc|apply Hk; assumption].
    + intros q [<-|Hq]; [exists c'; auto|].
      revert q Hq. apply (live_ok_remove pl fl); [exact HL|].
      intros u Hu Hne. apply Hk; assumption.
  - (* a store into the payload of a live block *)
    destruct IH as [[-> ->]|(pl & fl & t & W & HL)]; [destruct Hp|].
    destruct (HL p Hp) as (c & -> & U).
    pose proof (used_range _ _ _ _ _ _ W U) as Rc.
    pose proof (wf_t _ _ _ _ _ W). 
    rewrite block_of_data_addr in Hw by lia.
    destruct (payload_write_wf _ h (wr h w (u16 v)) pl fl t c W U) as (W' & _).
    + apply words_wr.
    + intros x Hx. apply rd_wr_other. intros ->. apply Hx, Hw.
    + right. exists pl, fl, t. auto.
Qed.

(** ** The lists the walks produce *)

Lemma link_walk_chain (f : Z -> Z) :
  forall l a fuel,
    chain (fun x y => y = f x) (a :: l) ->
    (forall x, In x l -> x <> 0) ->
    f (last l a) = 0 ->
    (length l <= fuel)%nat ->
    link_walk f fuel (f a) = l.
Proof.
  induction l as [|x l IH]; intros a fuel Hc Hnz Hend Hfuel.
  - simpl in Hend. rewrite Hend. destruct fuel; reflexivity.
  - destruct fuel as [|fuel]; [simpl in Hfuel; lia|].
    destruct Hc as [Ex Hc]. rewrite <- Ex. cbn [link_walk].
    destruct (Z.eqb_spec x 0) as [E0|_]; [exfalso; apply (Hnz x); simpl; auto|].
    f_equal. apply IH; [exact Hc| |rewrite <- last_cons_default with (d := a); exact Hend|].
    + intros y Hy. apply Hnz. right. exact Hy.
    + simpl in Hfuel. lia.
Qed.

Lemma wf_pl_length N h pl fl t :
  Wf N h pl fl t -> (length pl <= length h)%nat.
Proof.
  intros W. pose proof (wf_words _ _ _ _ _ W) as Hw.
  pose proof (wf_t _ _ _ _ _ W) as Ht.
  assert (length pl <= Z.to_nat N)%nat.
  { apply nodup_bounded_length.
    - pose proof (plink_lt _ _ (wf_phys _ _ _ _ _ W)) as Hs.
      clear - Hs. induction pl as [|a l IH]; [constructor|].
      constructor; [|apply IH, (chain_tail _ _ _ Hs)].
      intros Ha. pose proof (chain_lt_head _ _ Hs a Ha). lia.
    - intros x Hx. pose proof (wf_pl_range _ _ _ _ _ W x Hx). lia. }
  unfold words in Hw. lia.
Qed.

Lemma wf_fl_length N h pl fl t :
  Wf N h pl fl t -> (length fl <= length h)%nat.
Proof.
  intros W. pose proof (wf_words _ _ _ _ _ W) as Hw.
  pose proof (wf_t _ _ _ _ _ W) as Ht.
  assert (length fl <= Z.to_nat N)%nat.
  { apply nodup_bounded_length; [apply (wf_nodup _ _ _ _ _ W)|].
    intros x Hx. pose proof (wf_pl_range _ _ _ _ _ W x (wf_fl_sub _ _ _ _ _ W x Hx)).
    lia. }
  unfold words in Hw. lia.
Qed.

(** On a well-formed heap the free-list walk yields the free list after
    block 0, and the block walk the physical chain after block 0. *)
Lemma wf_free_list N h pl fl t :
  Wf N h pl fl t -> free_list h = tl fl.
Proof.
  intros W. destruct (wf_fl_cons _ _ _ _ _ W) as [r E].
  pose proof (wf_fl_length _ _ _ _ _ W) as Hlen.
  pose proof (wf_nodup _ _ _ _ _ W) as Hnd.
  pose proof (wf_free _ _ _ _ _ W) as Hch.
  pose proof (wf_flast _ _ _ _ _ W) as Hl.
  rewrite E in *. cbn [tl]. unfold free_list.
  apply link_walk_chain.
  - revert Hch. apply chain_frame. intros a b _ _ [H _]. auto.
  - intros x Hx ->. inversion Hnd as [|? ? H0 _]. contradiction.
  - rewrite last_cons_default in Hl. rewrite Hl. apply (wf_nft _ _ _ _ _ W).
  - simpl in Hlen. lia.
Qed.

Lemma plink_next N h pl fl t a b :
  Wf N h pl fl t -> In b pl -> plink h a b ->
  Z.land (UMM_NBLOCK h a) UMM_BLOCKNO_MASK = b.
Proof.
  intros W Hb (Hlt & [E|E] & _).
  all: pose proof (wf_pl_range _ _ _ _ _ W b Hb);
    pose proof (wf_t _ _ _ _ _ W); pose proof (wf_N _ _ _ _ _ W);
    rewrite E; unfold UMM_BLOCKNO_MASK.
  - apply mask_small. lia.
  - apply mask_flagged. lia.
Qed.

Lemma wf_block_list N h pl fl t :
  Wf N h pl fl t -> block_list h = tl pl.
Proof.
  intros W. destruct (wf_pl_cons _ _ _ _ _ W) as [r E].
  pose proof (wf_pl_length _ _ _ _ _ W) as Hlen.
  pose proof (wf_phys _ _ _ _ _ W) as Hch.
  pose proof (plink_lt _ _ Hch) as Hs.
  pose proof (wf_plast _ _ _ _ _ W) as Hl.
  assert (Hin : forall x, In x (0 :: r) -> In x pl) by (rewrite E; auto).
  rewrite E in Hlen, Hch, Hs, Hl |- *. cbn [tl]. unfold block_list.
  apply link_walk_chain
    with (f := fun c => Z.land (UMM_NBLOCK h c) UMM_BLOCKNO_MASK).
  - revert Hch. apply chain_frame. intros a b _ Hb L. symmetry.
    apply (plink_next _ _ _ _ _ _ _ W (Hin b Hb) L).
  - intros x Hx ->. pose proof (chain_lt_head _ _ Hs 0 Hx). lia.
  - rewrite last_cons_default in Hl. rewrite Hl, (wf_nbt _ _ _ _ _ W). reflexivity.
  - simpl in Hlen. lia.
Qed.

(** A block of a well-formed heap other than 0 and the last one is on the
    free list exactly when its NBLOCK field carries the free flag. *)
Lemma wf_flag_bit N h pl fl t c :
  Wf N h pl fl t -> In c pl -> c <> 0 -> c <> t ->
  (Z.land (UMM_NBLOCK h c) UMM_FREELIST_MASK <> 0 <-> In c fl).
Proof.
  intros W Hc H0 Ht.
  destruct (wf_phys_ctx _ _ _ _ _ W c Hc H0 Ht)
    as (A & p & n & B & E & _ & (Q1 & Q2 & _) & _ & Hnt).
  pose proof (wf_t _ _ _ _ _ W). pose proof (wf_N _ _ _ _ _ W).
  pose proof (wf_pl_range _ _ _ _ _ W c Hc).
  rewrite (wf_flag _ _ _ _ _ W c). unfold UMM_FREELIST_MASK.
  destruct Q2 as [En|En]; rewrite En.
  - rewrite flag_bit_clear by lia. split; [congruence|].
    intros [_ [?|[?|?]]]; lia.
  - rewrite flag_flagged by lia. split; [intros _|discriminate].
    split; [exact Hc|]. right. right. lia.
Qed.

(** ** Where umm_malloc places a request *)

(** The three outcomes on a well-formed heap: the heap is full, the block is
    cut from the room behind the last block, or it is cut from the upper end
    of the best-fitting free block. *)
Lemma malloc_cases N h pl mid t size :
  Wf N h pl (0 :: mid ++ [t]) t -> size <> 0 -> 1 <= umm_blocks size ->
  ((forall x, In x mid -> span h x < umm_blocks size) /\
   N <= t + umm_blocks size + 1 /\
   umm_malloc h size = Some (h, None)) \/
  ((forall x, In x mid -> span h x < umm_blocks size) /\
   t + umm_blocks size + 1 < N /\
   exists h', umm_malloc h size = Some (h', Some (data_addr t)) /\
              alloc_ok N h pl (0 :: mid ++ [t]) (umm_blocks size) h' t) \/
  (exists c h',
     In c mid /\ umm_blocks size <= span h c /\
     (forall x, In x mid -> umm_blocks size <= span h x -> span h c <= span h x) /\
     umm_malloc h size =
       Some (h', Some (data_addr (c + span h c - umm_blocks size))) /\
     alloc_ok N h pl (0 :: mid ++ [t]) (umm_blocks size) h'
              (c + span h c - umm_blocks size) /\
     (span h c = umm_blocks size -> h' = umm_disconnect_from_free_list h c)).
Proof.
  intros W Hsize Hblocks.
  unfold umm_malloc. destruct (Z.eqb_spec size 0); [contradiction|].
  set (blocks := umm_blocks size) in *.
  destruct (scan_pick_wf _ _ _ _ _ blocks W) as (s & -> & Hcf & Hs).
  destruct Hs as [(Hbs & -> & Hnone)|(l1 & c & l2 & E & -> & Hbs & Hfit & Hl1 & Hl2)].
  - destruct (Z_lt_le_dec (t + blocks + 1) N) as [Hroom|Hfull].
    + right. left. split; [exact Hnone|]. split; [exact Hroom|].
      destruct (place_end N h pl _ t blocks (s_blockSize s) W Hblocks Hroom)
        as (h' & -> & Hok).
      exists h'. auto.
    + left. split; [exact Hnone|]. split; [lia|].
      rewrite (place_full N h pl _ t blocks (s_blockSize s) W) by lia. reflexivity.
  - right. right.
    assert (Hc : In c mid) by (rewrite E; in_list).
    destruct (wf_mid_block _ _ _ _ _ _ W Hc) as (Hin & Hc0 & Hct).
    assert (Hbest : forall x, In x mid -> blocks <= span h x -> span h c <= span h x).
    { intros x Hx Hxb. rewrite E in Hx. apply in_app_iff in Hx.
      destruct Hx as [Hx|[<-|Hx]]; [|lia|].
      - destruct (Hl1 x Hx); lia.
      - destruct (Hl2 x Hx); lia. }
    destruct (Z.eq_dec (span h c) blocks) as [Heq|Hne].
    + destruct (place_exact N h pl _ t c blocks W Hin Hc0 Hct Heq) as (Hp & Hok).
      exists c, (umm_disconnect_from_free_list h c).
      split; [exact Hc|]. split; [exact Hfit|]. split; [exact Hbest|].
      replace (c + span h c - blocks) with c by lia.
      rewrite Heq, Hp. auto.
    + destruct (place_split N h pl _ t c blocks W Hin Hc0 Hct ltac:(lia))
        as (h' & -> & Hok).
      exists c, h'. split; [exact Hc|]. split; [exact Hfit|]. split; [exact Hbest|].
      split; [reflexivity|]. split; [exact Hok|]. intros ?. contradiction.
Qed.

(** ** The tally of the diagnostic walk *)

Lemma tally_balance h l i :
  usedEntries (tally h l i) + freeEntries (tally h l i) - totalEntries (tally h l i) =
    usedEntries i + freeEntries i - totalEntries i /\
  usedBlocks (tally h l i) + freeBlocks (tally h l i) - totalBlocks (tally h l i) =
    usedBlocks i + freeBlocks i - totalBlocks i.
Proof.
  revert i. induction l as [|b l IH]; intros i; [split; reflexivity|].
  cbn [tally].
  destruct (Z.land (UMM_NBLOCK h b) UMM_FREELIST_MASK =? 0);
    destruct (IH (count_used i (Z.land (UMM_NBLOCK h b) UMM_BLOCKNO_MASK - b))) as [A1 A2];
    destruct (IH (count_free i (Z.land (UMM_NBLOCK h b) UMM_BLOCKNO_MASK - b))) as [B1 B2];
    cbn [count_used count_free totalEntries usedEntries freeEntries
         totalBlocks usedBlocks freeBlocks] in *; split; lia.
Qed.

Lemma tally_free_entries h l i :
  freeEntries (tally h l i) =
    freeEntries i +
    Z.of_nat (length (filter
      (fun x => negb (Z.land (UMM_NBLOCK h x) UMM_FREELIST_MASK =? 0)) l)).
Proof.
  revert i. induction l as [|b l IH]; intros i; [simpl; lia|].
  cbn [tally filter].
  destruct (Z.land (UMM_NBLOCK h b) UMM_FREELIST_MASK =? 0); cbn [negb];
    rewrite IH; cbn [count_used count_free freeEntries length]; lia.
Qed.

Lemma tally_total_blocks h :
  forall l b i,
    walk_is h b l ->
    totalBlocks (tally h l i) =
      totalBlocks i +
      (last (map (fun x => Z.land (UMM_NBLOCK h x) UMM_BLOCKNO_MASK) l) b - b).
Proof.
  induction l as [|x l IH]; intros b i Hw; [simpl; lia|].
  destruct Hw as (-> & Hnz & Hw). cbn [tally map].
  rewrite last_cons_default.
  destruct (Z.land (UMM_NBLOCK h b) UMM_FREELIST_MASK =? 0);
    rewrite (IH _ _ Hw); cbn [count_used count_free totalBlocks]; lia.
Qed.

(** The blocks between block 0 and the last block are the walk of
    umm_info. *)
Lemma wf_walk N h pl fl t :
  Wf N h pl fl t ->
  exists body,
    pl = 0 :: body ++ [t] /\
    walk_is h (Z.land (UMM_NBLOCK h 0) UMM_BLOCKNO_MASK) body /\
    last (map (fun x => Z.land (UMM_NBLOCK h x) UMM_BLOCKNO_MASK) body)
         (Z.land (UMM_NBLOCK h 0) UMM_BLOCKNO_MASK) = t.
Proof.
  intros W. destruct (wf_pl_end _ _ _ _ _ W) as (P & Epl).
  destruct (wf_pl_cons _ _ _ _ _ W) as [r Er].
  pose proof (wf_t _ _ _ _ _ W) as Ht.
  assert (exists body, pl = 0 :: body ++ [t]) as [body E].
  { rewrite Epl in Er. destruct P as [|a P]; simpl in Er.
    - injection Er as -> _. lia.
    - injection Er as -> _. exists P. exact Epl. }
  exists body. split; [exact E|].
  pose proof (wf_phys _ _ _ _ _ W) as Hch. rewrite E in Hch.
  assert (Hin : forall x, In x (0 :: body ++ [t]) -> In x pl) by (rewrite E; auto).
  clear E Epl Er. revert Hch Hin. generalize 0 as a.
  induction body as [|x body IH]; intros a Hch Hin.
  - destruct Hch as [L _]. simpl.
    rewrite (plink_next _ _ _ _ _ _ _ W (Hin t ltac:(simpl; auto)) L). auto.
  - destruct Hch as [L Hch]. cbn [app] in Hch, Hin.
    assert (Hx : In x pl) by (apply Hin; simpl; auto).
    rewrite (plink_next _ _ _ _ _ _ _ W Hx L).
    destruct (IH x Hch) as [Hw Hl].
    { intros y Hy. apply Hin. right. exact Hy. }
    split.
    + cbn [walk_is]. split; [reflexivity|]. split; [|exact Hw].
      pose proof (wf_pl_range _ _ _ _ _ W x Hx).
      destruct (body ++ [t]) as [|y rest] eqn:Ey.
      { destruct body; discriminate. }
      destruct Hch as [L2 _].
      rewrite (plink_next _ _ _ _ _ _ _ W (Hin y ltac:(simpl; auto)) L2).
      destruct L2 as [? _]. lia.
    + cbn [map]. rewrite last_cons_default. exact Hl.
Qed.

(** * The specification's claims *)

(** ** Block counts *)

Lemma ceil_div_8 x : 0 < x -> ceil_div x 8 + 1 = 2 + (x - 1) / 8.
Proof.
  intros Hx. unfold ceil_div.
  replace (x + 8 - 1) with ((x - 1) + 1 * 8) by lia.
  rewrite Z.div_add by lia. lia.
Qed.

Lemma umm_blocks_large size :
  BODY_BYTES < size <= SIZE_MAX ->
  umm_blocks size = (2 + (size - 1 - BODY_BYTES) / BLOCK_BYTES) mod 65536.
Proof.
  unfold BODY_BYTES, BLOCK_BYTES, SIZE_MAX. intros H.
  unfold umm_blocks, BODY_BYTES, BLOCK_BYTES, usize, u16.
  destruct (Z.leb_spec size 4); [lia|].
  replace (size - (1 + 4)) with (size - 1 - 4) by lia.
  rewrite (Z.mod_small (size - 1 - 4)) by lia.
  assert (0 <= (size - 1 - 4) / 8 < 536870912).
  { split; [apply Z.div_pos; lia|apply Z.div_lt_upper_bound; lia]. }
  rewrite (Z.mod_small (2 + _)) by lia. reflexivity.
Qed.

(** C5 (amended): a request of at most [BODY_BYTES] bytes takes one block; a
    larger request whose block count fits 16 bits takes
    ceil((size - BODY_BYTES) / BLOCK_BYTES) + 1 blocks, which is
    2 + (size - 1 - BODY_BYTES) / BLOCK_BYTES under truncating division. *)
Theorem C5_blocks_for_size size :
  0 < size <= SIZE_MAX ->
  (size <= BODY_BYTES -> umm_blocks size = 1) /\
  (BODY_BYTES < size ->
   2 + (size - 1 - BODY_BYTES) / BLOCK_BYTES < 65536 ->
   umm_blocks size = ceil_div (size - BODY_BYTES) BLOCK_BYTES + 1 /\
   umm_blocks size = blocks_needed size /\
   ceil_div (size - BODY_BYTES) BLOCK_BYTES + 1 =
     2 + (size - 1 - BODY_BYTES) / BLOCK_BYTES).
Proof.
  intros Hs. split.
  - intros H. unfold umm_blocks. destruct (Z.leb_spec size BODY_BYTES); [reflexivity|lia].
  - intros Hbig Hfit.
    assert (E : ceil_div (size - BODY_BYTES) BLOCK_BYTES + 1 =
                2 + (size - 1 - BODY_BYTES) / BLOCK_BYTES).
    { unfold BLOCK_BYTES, BODY_BYTES in *. rewrite ceil_div_8 by lia.
      replace (size - 4 - 1) with (size - 1 - 4) by lia. reflexivity. }
    assert (E2 : umm_blocks size = ceil_div (size - BODY_BYTES) BLOCK_BYTES + 1).
    { rewrite umm_blocks_large by lia. rewrite E. apply Z.mod_small.
      split; [|exact Hfit].
      assert (0 <= (size - 1 - BODY_BYTES) / BLOCK_BYTES)
        by (apply Z.div_pos; unfold BODY_BYTES, BLOCK_BYTES in *; lia).
      lia. }
    split; [exact E2|]. split; [|exact E].
    rewrite E2. unfold blocks_needed.
    destruct (Z.leb_spec size BODY_BYTES); [lia|reflexivity].
Qed.

Lemma C5_blocks_for_size_witness :
  (0 < 9 <= SIZE_MAX) /\ umm_blocks 9 = 2.
Proof.
  assert (H : 0 < 9 <= SIZE_MAX) by (unfold SIZE_MAX; lia).
  split; [exact H|].
  destruct (C5_blocks_for_size 9 H) as [_ Hbig].
  destruct Hbig as (E & _ & _); [reflexivity|reflexivity|].
  rewrite E. reflexivity.
Defined.

(** C5 (as stated) fails: 524277 bytes need 65536 blocks, and the 16-bit
    result is 0. *)
Lemma C5_counterexample :
  BODY_BYTES < 524277 <= SIZE_MAX /\
  umm_blocks 524277 = 0 /\
  ceil_div (524277 - BODY_BYTES) BLOCK_BYTES + 1 = 65536 /\
  umm_blocks 524277 <> ceil_div (524277 - BODY_BYTES) BLOCK_BYTES + 1.
Proof. repeat split; try reflexivity; try discriminate. Qed.

(** ** The diagnostic walk *)

(** C6 (amended): on a zeroed heap of N blocks (N = 8 in the scenario)
    info(null) reports totalEntries = 0, usedBlocks = 0 and
    freeBlocks = N, the sentinel block included. *)
Theorem C6_info_zero_heap (n : nat) :
  Z.of_nat n < 65536 ->
  umm_info (zero_heap n) None =
  Some (None, mkInfo 0 0 0 (Z.of_nat n) 0 (Z.of_nat n)).
Proof.
  intros Hn. unfold umm_info. destruct (zero_heap_acc n 0) as (E0 & _).
  rewrite E0. cbn [Z.land info_loop]. rewrite E0. cbn [Z.land Z.eqb].
  unfold count_rest, info_zero, UMM_NUMBLOCKS. cbn [totalEntries usedEntries
    freeEntries totalBlocks usedBlocks freeBlocks].
  rewrite words_zero_heap, Z.mul_comm, Z.div_mul by lia.
  rewrite u16_small by lia. rewrite Z.sub_0_r. reflexivity.
Qed.

Lemma C6_info_zero_heap_witness :
  8 < 65536 /\ umm_info (zero_heap 8) None = Some (None, mkInfo 0 0 0 8 0 8).
Proof.
  split; [lia|]. apply (C6_info_zero_heap 8). simpl. lia.
Defined.

(** C6 (as stated) fails: the walk reports 8 free blocks, not 7. *)
Lemma C6_counterexample :
  exists i, umm_info (zero_heap 8) None = Some (None, i) /\
            totalEntries i = 0 /\ usedBlocks i = 0 /\
            freeBlocks i = 8 /\ freeBlocks i <> 7.
Proof.
  eexists. split; [reflexivity|]. simpl. repeat split; discriminate.
Qed.

(** C9: when [ptr] is the header address of a free block [b] that the walk
    meets (for the first time) after the blocks [pre], info returns [ptr]
    from inside the loop, and the record holds the tally of [pre] and [b]
    only: nothing behind [b] is counted, nor the closing free region. *)
Theorem C9_info_early_return h pre b :
  walk_is h (Z.land (UMM_NBLOCK h 0) UMM_BLOCKNO_MASK) (pre ++ [b]) ->
  Z.land (UMM_NBLOCK h b) UMM_FREELIST_MASK <> 0 ->
  ~ In b pre ->
  umm_info h (Some (block_addr b)) =
    Some (Some (block_addr b), tally h (pre ++ [b]) info_zero) /\
  totalEntries (tally h (pre ++ [b]) info_zero) = Z.of_nat (length pre) + 1.
Proof.
  intros Hw Hfree Hnew. split.
  - pose proof (walk_length _ _ _ _ Hw Hnew) as Hlen.
    destruct (walk_is_app _ _ _ _ Hw) as (Hpre & Hb & Hnz).
    unfold umm_info.
    rewrite (info_loop_run h (Some (block_addr b)) pre _ info_zero (length h) Hpre)
      with (b' := b).
    + assert (Hfuel : exists k, (length h - length pre)%nat = S k).
      { rewrite length_app in Hlen. simpl in Hlen.
        exists (length h - length pre - 1)%nat. lia. }
      destruct Hfuel as [k ->]. cbn [info_loop].
      destruct (Z.eqb_spec (Z.land (UMM_NBLOCK h b) UMM_BLOCKNO_MASK) 0); [contradiction|].
      destruct (Z.eqb_spec (Z.land (UMM_NBLOCK h b) UMM_FREELIST_MASK) 0) as [?|Hfz];
        [contradiction|].
      cbn [negb]. rewrite Z.eqb_refl.
      assert (E : forall i, tally h (pre ++ [b]) i =
                  count_free (tally h pre i)
                    (Z.land (UMM_NBLOCK h b) UMM_BLOCKNO_MASK - b)).
      { clear - Hfz. induction pre as [|x pre IH]; intros i.
        - cbn [app tally].
          destruct (Z.eqb_spec (Z.land (UMM_NBLOCK h b) UMM_FREELIST_MASK) 0);
            [contradiction|reflexivity].
        - cbn [app tally].
          destruct (Z.land (UMM_NBLOCK h x) UMM_FREELIST_MASK =? 0); apply IH. }
      rewrite E. reflexivity.
    + intros x Hx. right. intros E. injection E as E. unfold block_addr, BLOCK_BYTES in E.
      apply Hnew. replace b with x by lia. exact Hx.
    + rewrite length_app in Hlen. simpl in Hlen. lia.
    + exact Hb.
  - rewrite tally_entries, length_app. simpl. lia.
Qed.

(** A heap of 8 blocks after alloc(1), alloc(9) and the release of the
    second block: block 1 in use, block 2 free (2 blocks), last block 4. *)
Lemma C9_info_early_return_witness :
  let h := [1; 0; 2; 0;  2; 0; 0; 0;  32772; 1; 4; 0;  0; 0; 0; 0;
            0; 2; 0; 2;  0; 0; 0; 0;  0; 0; 0; 0;  0; 0; 0; 0] in
  umm_info h (Some 16) = Some (Some 16, mkInfo 2 1 1 3 1 2).
Proof.
  intros h.
  assert (Hw : walk_is h (Z.land (UMM_NBLOCK h 0) UMM_BLOCKNO_MASK) ([1] ++ [2])).
  { simpl. repeat split; discriminate. }
  assert (Hf : Z.land (UMM_NBLOCK h 2) UMM_FREELIST_MASK <> 0) by discriminate.
  assert (Hn : ~ In 2 [1]) by (simpl; intros [H|[]]; discriminate).
  exact (proj1 (C9_info_early_return h [1] 2 Hw Hf Hn)).
Defined.

(** ** Requests too large for a 16-bit block count *)

(** C8: when the block count of a request does not fit 16 bits, umm_blocks
    returns it modulo 2^16, and on a zeroed heap with room for that smaller
    count umm_malloc returns a non-null pointer to a block whose span is the
    wrapped count, below what the request needs and although the request
    exceeds the whole heap. *)
Theorem C8_block_count_wraps size :
  BODY_BYTES < size <= SIZE_MAX ->
  65536 <= 2 + (size - 1 - BODY_BYTES) / BLOCK_BYTES ->
  umm_blocks size = (2 + (size - 1 - BODY_BYTES) / BLOCK_BYTES) mod 65536 /\
  umm_blocks size < blocks_needed size /\
  forall n : nat,
    Z.of_nat n <= 32767 -> umm_blocks size + 1 < Z.of_nat n ->
    exists h',
      umm_malloc (zero_heap n) size = Some (h', Some (data_addr 1)) /\
      span h' 1 = umm_blocks size /\
      span h' 1 < blocks_needed size /\
      BLOCK_BYTES * Z.of_nat n < size.
Proof.
  intros Hs Hbig.
  pose proof (umm_blocks_large size Hs) as E.
  pose proof (umm_blocks_range size) as R.
  assert (Hneed : blocks_needed size = 2 + (size - 1 - BODY_BYTES) / BLOCK_BYTES).
  { unfold blocks_needed. destruct (Z.leb_spec size BODY_BYTES); [lia|].
    unfold BODY_BYTES, BLOCK_BYTES in *. rewrite ceil_div_8 by lia.
    replace (size - 4 - 1) with (size - 1 - 4) by lia. reflexivity. }
  split; [exact E|]. split; [lia|].
  intros n HN Hroom.
  assert (Hnz : size <> 0) by (unfold BODY_BYTES in Hs; lia).
  destruct (malloc_zero_ptr n size HN Hnz Hroom) as (h' & Hm & Hnb).
  exists h'. split; [exact Hm|].
  assert (Hsp : span h' 1 = umm_blocks size).
  { unfold span, UMM_BLOCKNO_MASK. rewrite Hnb, mask_small by lia. lia. }
  split; [exact Hsp|]. split; [lia|].
  unfold BODY_BYTES, BLOCK_BYTES in *.
  assert ((size - 1 - 4) / 8 <= (size - 5) / 8) by (apply Z.div_le_mono; lia).
  assert (8 * ((size - 1 - 4) / 8) <= size - 1 - 4) by (apply Z.mul_div_le; lia).
  lia.
Qed.

Lemma C8_block_count_wraps_witness :
  exists h',
    umm_malloc (zero_heap 8) 524285 = Some (h', Some 12) /\
    span h' 1 = 1 /\ blocks_needed 524285 = 65537.
Proof.
  assert (Hs : BODY_BYTES < 524285 <= SIZE_MAX) by (unfold BODY_BYTES, SIZE_MAX; lia).
  assert (Hbig : 65536 <= 2 + (524285 - 1 - BODY_BYTES) / BLOCK_BYTES)
    by (vm_compute; discriminate).
  destruct (C8_block_count_wraps 524285 Hs Hbig) as (_ & _ & Hz).
  destruct (Hz 8%nat) as (h' & Hm & Hsp & _ & _); [simpl; lia|vm_compute; reflexivity|].
  exists h'. split; [exact Hm|]. split; [exact Hsp|reflexivity].
Defined.

(** ** Adjacent free blocks *)

(** C2: the code breaks the claim.  On a zeroed heap of 8 blocks, three
    one-block allocations, the release of the middle one, an allocation of
    524277 bytes (block count 65536, stored as 0) and the release of the
    third block leave blocks 2 and 3 both marked free, block 3 directly
    following block 2.  The oversized allocation was answered with the
    address of the third block, which was still in use. *)
Theorem C2_adjacent_free_after_wrap :
  exists h1 h2 h3 h5 : heap,
    umm_malloc (zero_heap 8) 1 = Some (h1, Some (data_addr 1)) /\
    umm_malloc h1 1 = Some (h2, Some (data_addr 2)) /\
    umm_malloc h2 1 = Some (h3, Some (data_addr 3)) /\
    umm_blocks 524277 = 0 /\
    umm_malloc (umm_free h3 (Some (data_addr 2))) 524277 = Some (h5, Some (data_addr 3)) /\
    let h6 := umm_free h5 (Some (data_addr 3)) in
    Z.land (UMM_NBLOCK h6 2) UMM_FREELIST_MASK <> 0 /\
    Z.land (UMM_NBLOCK h6 2) UMM_BLOCKNO_MASK = 3 /\
    Z.land (UMM_NBLOCK h6 3) UMM_FREELIST_MASK <> 0.
Proof.
  do 4 eexists.
  split; [vm_compute; reflexivity|].
  split; [vm_compute; reflexivity|].
  split; [vm_compute; reflexivity|].
  split; [reflexivity|].
  split; [vm_compute; reflexivity|].
  vm_compute. repeat split; discriminate.
Qed.

(** ** The best-fit search *)

(** C1: on a well-formed heap whose free list holds the free blocks [mid]
    before the last block [t], the scan of umm_malloc runs to the end of the
    list; it picks the free block of smallest span >= [blocks], the earliest
    one on a tie, and that block lies inside the heap; when no free block
    is large enough the best size is still 0x7FFF, the scan hands over the
    last block, whose link is 0, and the placement is the one at the end of
    the heap. *)
Theorem C1_best_fit N h pl mid t blocks :
  Wf N h pl (0 :: mid ++ [t]) t ->
  exists s,
    scan_loop (S (length h)) h blocks (scan_init h) = Some s /\
    s_cf s = t /\
    ((forall x, In x mid -> span h x < blocks) ->
       s_bestSize s = 32767 /\ fst (scan_pick s) = t /\
       Z.land (UMM_NBLOCK h (fst (scan_pick s))) UMM_BLOCKNO_MASK = 0) /\
    ((exists x, In x mid /\ blocks <= span h x) ->
       exists l1 c l2,
         mid = l1 ++ c :: l2 /\ scan_pick s = (c, span h c) /\
         blocks <= span h c /\
         (forall x, In x l1 -> span h x < blocks \/ span h c < span h x) /\
         (forall x, In x l2 -> span h x < blocks \/ span h c <= span h x) /\
         Z.land (UMM_NBLOCK h c) UMM_BLOCKNO_MASK <> 0).
Proof.
  intros W. destruct (scan_pick_wf _ _ _ _ _ blocks W) as (s & Hs & Hcf & Hcase).
  exists s. split; [exact Hs|]. split; [exact Hcf|].
  destruct Hcase as [(Hbs & Hpick & Hnone)|(l1 & c & l2 & E & Hpick & Hbs & Hfit & H1 & H2)].
  - split.
    + intros _. rewrite Hpick. cbn [fst]. split; [exact Hbs|]. split; [reflexivity|].
      rewrite (wf_nbt _ _ _ _ _ W). reflexivity.
    + intros (x & Hx & Hfit). specialize (Hnone x Hx). lia.
  - assert (Hc : In c mid) by (rewrite E; in_list).
    split.
    + intros Hnone. specialize (Hnone c Hc). lia.
    + intros _. exists l1, c, l2. repeat split; try assumption.
      destruct (wf_mid_span _ _ _ _ _ _ W Hc) as (n & Hn & Rn & _).
      destruct (wf_mid_block _ _ _ _ _ _ W Hc) as (Hin & _ & _).
      pose proof (wf_pl_range _ _ _ _ _ W c (wf_fl_sub _ _ _ _ _ W c Hin)).
      pose proof (wf_t _ _ _ _ _ W). pose proof (wf_N _ _ _ _ _ W).
      unfold UMM_BLOCKNO_MASK. rewrite Hn, mask_flagged by lia. lia.
Qed.

Lemma C1_best_fit_witness :
  exists s,
    scan_loop (S (length sample_heap)) sample_heap 1 (scan_init sample_heap) = Some s /\
    s_cf s = 4 /\ scan_pick s = (2, 1).
Proof.
  destruct (C1_best_fit 8 sample_heap [0; 1; 2; 3; 4] [2] 4 1 sample_heap_wf)
    as (s & Hs & Hcf & _ & _).
  exists s. split; [exact Hs|]. split; [exact Hcf|].
  vm_compute in Hs. injection Hs as <-. reflexivity.
Defined.

(** ** The returned pointer *)

(** C4 (amended): on a zeroed or well-formed heap every successful alloc
    returns the address of the body of a block cf with 1 <= cf < N, that is
    HEADER_BYTES = 4 bytes past the start of the block: the pointer is
    4-byte aligned, lies 4 bytes off an 8-byte boundary of the heap, and
    never falls in sentinel block 0.  When the block count of the request
    is not 0, cf is the first block of the new allocation. *)
Theorem C4_returned_pointer N h size h' p :
  Inv N h -> umm_malloc h size = Some (h', Some p) ->
  exists cf,
    p = data_addr cf /\ 1 <= cf < N /\
    p = block_addr cf + HEADER_BYTES /\
    p mod BLOCK_BYTES = HEADER_BYTES /\ p mod 4 = 0 /\
    (umm_blocks size <> 0 ->
       exists pl' fl' t',
         Wf N h' pl' fl' t' /\ used pl' fl' cf /\
         UMM_NBLOCK h' cf = cf + umm_blocks size).
Proof.
  intros HI Hm.
  assert (Hshape : forall cf, p = data_addr cf ->
            p = block_addr cf + HEADER_BYTES /\
            p mod BLOCK_BYTES = HEADER_BYTES /\ p mod 4 = 0).
  { intros cf ->. split; [reflexivity|apply data_addr_mod]. }
  pose proof (umm_blocks_range size) as Rb.
  destruct HI as [(n & -> & -> & HN)|(pl & fl & t & W)].
  - destruct (malloc_zero_cases n size h' (Some p) HN Hm)
      as [[E _]|(E & Hsize & Hroom & Hnb)]; [discriminate|].
    injection E as ->. exists 1. split; [reflexivity|]. split; [lia|].
    destruct (Hshape 1 eq_refl) as (S1 & S2 & S3).
    split; [exact S1|]. split; [exact S2|]. split; [exact S3|].
    intros Hb. destruct (malloc_zero n size HN Hsize ltac:(lia)) as (h2 & r2 & Hm2 & Hcase).
    rewrite Hm in Hm2. injection Hm2 as <- <-.
    destruct Hcase as [[E _]|[_ (pl' & fl' & t' & W' & U' & _ & Hnb' & _)]]; [discriminate|].
    exists pl', fl', t'. auto.
  - assert (Hsize : size <> 0).
    { intros ->. unfold umm_malloc in Hm. simpl in Hm. discriminate. }
    pose proof (wf_t _ _ _ _ _ W) as Ht.
    destruct (Z.eq_dec (umm_blocks size) 0) as [Hb0|Hb1].
    + destruct (malloc_wrap0 _ _ _ _ _ _ W Hsize Hb0) as (h2 & r2 & Hm2 & Hr & _).
      rewrite Hm in Hm2. injection Hm2 as <- <-.
      destruct Hr as [E|(cf & E & Rcf)]; [discriminate|].
      injection E as ->. exists cf. split; [reflexivity|]. split; [lia|].
      destruct (Hshape cf eq_refl) as (S1 & S2 & S3).
      split; [exact S1|]. split; [exact S2|]. split; [exact S3|].
      intros Hb. contradiction.
    + destruct (malloc_wf _ _ _ _ _ _ W Hsize ltac:(lia)) as (h2 & r2 & Hm2 & Hcase).
      rewrite Hm in Hm2. injection Hm2 as <- <-.
      destruct Hcase as [[E _]|(cf & E & pl' & fl' & t' & W' & U' & _ & Hnb' & _)];
        [discriminate|].
      injection E as ->. exists cf. split; [reflexivity|].
      pose proof (used_range _ _ _ _ _ _ W' U'). pose proof (wf_t _ _ _ _ _ W').
      split; [lia|].
      destruct (Hshape cf eq_refl) as (S1 & S2 & S3).
      split; [exact S1|]. split; [exact S2|]. split; [exact S3|].
      intros _. exists pl', fl', t'. auto.
Qed.

Lemma C4_returned_pointer_witness :
  exists h', umm_malloc (zero_heap 8) 1 = Some (h', Some 12) /\
             exists cf, 12 = data_addr cf /\ 1 <= cf < 8.
Proof.
  eexists. split; [vm_compute; reflexivity|].
  assert (HI : Inv 8 (zero_heap 8)).
  { left. exists 8%nat. split; [reflexivity|]. split; [reflexivity|lia]. }
  destruct (C4_returned_pointer 8 (zero_heap 8) 1 _ 12 HI eq_refl) as (cf & E & R & _).
  exists cf. split; [exact E|exact R].
Defined.

(** C4 (as stated) fails: the first allocation on a zeroed heap of 8 blocks
    returns offset 12, which is not a multiple of the block size 8. *)
Lemma C4_counterexample :
  exists h', umm_malloc (zero_heap 8) 1 = Some (h', Some 12) /\
             12 mod BLOCK_BYTES <> 0.
Proof. eexists. split; [vm_compute; reflexivity|]. vm_compute. discriminate. Qed.

(** ** Payload of the other blocks *)

(** C10: on a well-formed heap, a payload word [w] of a used block [u]
    holds the same value after any umm_malloc that returns, and after
    umm_free of any other used block (or of the null pointer). *)
Theorem C10_payload_frame N h pl fl t u w :
  Wf N h pl fl t -> used pl fl u -> payload h u w ->
  (forall size h' r, umm_malloc h size = Some (h', r) -> rd h' w = rd h w) /\
  (forall c, used pl fl c -> c <> u ->
     rd (umm_free h (Some (data_addr c))) w = rd h w) /\
  rd (umm_free h None) w = rd h w.
Proof.
  intros W U Hpay. split; [|split; [|reflexivity]].
  - intros size h' r Hm.
    destruct (Z.eq_dec size 0) as [->|Hsize].
    { unfold umm_malloc in Hm. simpl in Hm. injection Hm as <- _. reflexivity. }
    pose proof (umm_blocks_range size) as Rb.
    destruct (Z.eq_dec (umm_blocks size) 0) as [Hb0|Hb1].
    + destruct (malloc_wrap0 _ _ _ _ _ _ W Hsize Hb0) as (h2 & r2 & Hm2 & _ & Hfr).
      rewrite Hm in Hm2. injection Hm2 as <- _. apply (Hfr u w U Hpay).
    + destruct (malloc_wf _ _ _ _ _ _ W Hsize ltac:(lia)) as (h2 & r2 & Hm2 & Hcase).
      rewrite Hm in Hm2. injection Hm2 as <- _.
      destruct Hcase as [[_ ->]|(cf & _ & pl' & fl' & t' & _ & _ & _ & _ & _ & _ & Hfr)];
        [reflexivity|].
      apply (Hfr u w U Hpay).
  - intros c Uc Hcu. rewrite (umm_free_block _ _ _ _ _ _ W Uc).
    destruct (free_block_wf N h pl fl t c W Uc) as (pl' & fl' & _ & _ & _ & _ & Hfr & _).
    apply (Hfr u w U); auto.
Qed.

Lemma C10_payload_frame_witness :
  rd (umm_free sample_heap (Some (data_addr 3))) 6 = rd sample_heap 6 /\
  exists h' r, umm_malloc sample_heap 1 = Some (h', r) /\ rd h' 6 = rd sample_heap 6.
Proof.
  assert (U : used [0; 1; 2; 3; 4] [0; 2; 4] 1) by apply sample_heap_used.
  assert (U3 : used [0; 1; 2; 3; 4] [0; 2; 4] 3) by apply sample_heap_used.
  assert (P : payload sample_heap 1 6) by (vm_compute; split; [discriminate|reflexivity]).
  destruct (C10_payload_frame 8 sample_heap _ _ 4 1 6 sample_heap_wf U P) as (Hm & Hf & _).
  split; [apply (Hf 3 U3); discriminate|].
  eexists _, _. split; [vm_compute; reflexivity|].
  eapply (Hm 1). vm_compute. reflexivity.
Defined.

(** ** A realloc that cannot grow *)

(** C7: realloc of a used block [c] to a non-zero size, when the block
    - after absorbing a free successor - is still shorter than the request,
    the predecessor cannot make up for it, and the inner umm_malloc returns
    null: realloc returns null; the heap is the one left by the upward
    coalescing, well formed, with [c] still a used block at the same place
    (same predecessor link, span not smaller, every old payload word
    unchanged); and umm_free of the same pointer then gives a well-formed
    heap in which [c] is no longer in use. *)
Theorem C7_realloc_failure N h pl fl t c size hm :
  Wf N h pl fl t -> used pl fl c -> size <> 0 ->
  let blocks := umm_blocks size in
  let h1 := umm_assimilate_up h c in
  UMM_NBLOCK h1 c - c < blocks ->
  (Z.land (UMM_NBLOCK h1 (UMM_PBLOCK h1 c)) UMM_FREELIST_MASK = 0 \/
   UMM_NBLOCK h1 c - UMM_PBLOCK h1 c < blocks) ->
  umm_malloc h1 size = Some (hm, None) ->
  umm_realloc h (Some (data_addr c)) size = Some (h1, None) /\
  (exists pl1 fl1,
      Wf N h1 pl1 fl1 t /\ used pl1 fl1 c /\
      UMM_PBLOCK h1 c = UMM_PBLOCK h c /\
      UMM_NBLOCK h c <= UMM_NBLOCK h1 c < 32768) /\
  (forall w, payload h c w -> rd h1 w = rd h w) /\
  (exists pl2 fl2,
      Wf N (umm_free h1 (Some (data_addr c))) pl2 fl2 t /\ ~ used pl2 fl2 c).
Proof.
  intros W U Hsize blocks h1 Hgrow Hnodown Hfail.
  destruct (assimilate_up_wf N h pl fl t c W U)
    as (pl1 & fl1 & W1 & U1 & HPB & HNB & _ & _ & _ & Hfr).
  fold h1 in W1, HPB, HNB, Hfr.
  destruct (used_ctx _ _ _ _ _ _ W U) as (A & p & n & B & _ & Hn & Hp & Rp & Rn & _).
  destruct (used_ctx _ _ _ _ _ _ W1 U1) as (A1 & p1 & n1 & B1 & _ & Hn1 & Hp1 & Rp1 & Rn1 & _).
  pose proof (wf_t _ _ _ _ _ W) as Ht. pose proof (wf_N _ _ _ _ _ W) as HN.
  assert (Hb1 : 1 <= blocks) by lia.
  assert (Ehm : hm = h1).
  { destruct (malloc_wf _ _ _ _ _ _ W1 Hsize Hb1) as (h2 & r2 & Hm2 & Hcase).
    rewrite Hfail in Hm2. injection Hm2 as <- <-.
    destruct Hcase as [[_ E]|(cf & E & _)]; [exact E|discriminate]. }
  split; [|split; [|split]].
  - unfold umm_realloc. destruct (Z.eqb_spec size 0) as [?|_]; [contradiction|].
    rewrite block_of_data_addr by lia. fold blocks. fold h1.
    rewrite Hn. rewrite (u16_small (n - c)) by lia.
    destruct (Z.eqb_spec (n - c) blocks) as [?|_]; [lia|].
    assert (Hcond : negb (Z.land (UMM_NBLOCK h1 (UMM_PBLOCK h1 c)) UMM_FREELIST_MASK =? 0)
                    && (blocks <=? UMM_NBLOCK h1 c - UMM_PBLOCK h1 c) = false).
    { destruct Hnodown as [E|E].
      - rewrite E. reflexivity.
      - destruct (Z.leb_spec blocks (UMM_NBLOCK h1 c - UMM_PBLOCK h1 c)); [lia|].
        apply andb_false_r. }
    rewrite Hcond. unfold realloc_finish. rewrite Hn1. rewrite (u16_small (n1 - c)) by lia.
    destruct (Z.eqb_spec (n1 - c) blocks) as [?|_]; [lia|].
    destruct (Z.ltb_spec blocks (n1 - c)) as [?|_]; [lia|].
    rewrite Hfail, Ehm. reflexivity.
  - exists pl1, fl1. split; [exact W1|]. split; [exact U1|]. split; [exact HPB|]. lia.
  - intros w Hw. apply (Hfr c w U Hw).
  - rewrite (umm_free_block _ _ _ _ _ _ W1 U1).
    destruct (free_block_wf N h1 pl1 fl1 t c W1 U1) as (pl2 & fl2 & W2 & Hn2 & _).
    exists pl2, fl2. auto.
Qed.

Lemma C7_realloc_failure_witness :
  umm_realloc sample_heap (Some 28) 100 = Some (sample_heap, None).
Proof.
  assert (U : used [0; 1; 2; 3; 4] [0; 2; 4] 3) by apply sample_heap_used.
  assert (Hs : (100 : Z) <> 0) by discriminate.
  assert (Hg : UMM_NBLOCK (umm_assimilate_up sample_heap 3) 3 - 3 < umm_blocks 100)
    by reflexivity.
  assert (Hd : Z.land (UMM_NBLOCK (umm_assimilate_up sample_heap 3)
                         (UMM_PBLOCK (umm_assimilate_up sample_heap 3) 3))
                      UMM_FREELIST_MASK = 0 \/
               UMM_NBLOCK (umm_assimilate_up sample_heap 3) 3 -
               UMM_PBLOCK (umm_assimilate_up sample_heap 3) 3 < umm_blocks 100)
    by (right; reflexivity).
  assert (Hf : umm_malloc (umm_assimilate_up sample_heap 3) 100 = Some (sample_heap, None))
    by (vm_compute; reflexivity).
  exact (proj1 (C7_realloc_failure 8 sample_heap _ _ 4 3 100 sample_heap
                  sample_heap_wf U Hs Hg Hd Hf)).
Defined.

(** ** The free list and the free flag *)

(** C3 (amended): in every state a client reaches from the zeroed heap by
    umm_malloc, umm_free and umm_realloc (on live pointers, with block
    counts that did not wrap to 0) and by stores into live payloads, the
    heap is either still zeroed or the walk along the NFREE links from
    block 0 yields [mid ++ [t]]: [t] is the last block of the heap, whose
    NBLOCK field is 0 and so carries no free flag, and [mid] holds exactly
    the blocks of the heap whose NBLOCK field has the free flag set.  Block
    0 itself, the root of the list, is not flagged either. *)
Theorem C3_free_list_flags n h live :
  Z.of_nat n <= 32767 -> reachable n h live ->
  h = zero_heap n \/
  exists mid t,
    free_list h = mid ++ [t] /\
    In t (block_list h) /\ last (block_list h) 0 = t /\
    UMM_NBLOCK h t = 0 /\
    Z.land (UMM_NBLOCK h 0) UMM_FREELIST_MASK = 0 /\
    (forall c, In c mid -> In c (block_list h)) /\
    (forall c, In c (block_list h) ->
       (Z.land (UMM_NBLOCK h c) UMM_FREELIST_MASK <> 0 <-> In c mid)).
Proof.
  intros HN R.
  destruct (reachable_inv n h live HN R) as [[E _]|(pl & fl & t & W & _)];
    [left; exact E|right].
  destruct (wf_fl_mid _ _ _ _ _ W) as [mid Efl].
  destruct (wf_pl_cons _ _ _ _ _ W) as [r Epl].
  pose proof (wf_t _ _ _ _ _ W) as Ht.
  pose proof (wf_free_list _ _ _ _ _ W) as Efree.
  pose proof (wf_block_list _ _ _ _ _ W) as Eblk.
  rewrite Efl in Efree. rewrite Epl in Eblk. cbn [tl] in Efree, Eblk.
  assert (Hr : forall c, In c r -> In c pl /\ c <> 0).
  { intros c Hc. split; [rewrite Epl; right; exact Hc|].
    pose proof (plink_lt _ _ (wf_phys _ _ _ _ _ W)) as Hs. rewrite Epl in Hs.
    pose proof (chain_lt_head _ _ Hs c Hc). lia. }
  assert (Hmid : forall c, In c mid -> In c fl /\ c <> 0 /\ c <> t).
  { intros c Hc. rewrite Efl in W |- *. apply (wf_mid_block _ _ _ _ _ _ W Hc). }
  exists mid, t. rewrite Efree, Eblk.
  split; [reflexivity|].
  split.
  { pose proof (wf_in_pl_t _ _ _ _ _ W) as Hin. rewrite Epl in Hin.
    destruct Hin as [?|Hin]; [lia|exact Hin]. }
  split.
  { pose proof (wf_plast _ _ _ _ _ W) as Hl. rewrite Epl in Hl.
    rewrite last_cons_default in Hl. exact Hl. }
  split; [apply (wf_nbt _ _ _ _ _ W)|].
  split.
  { unfold UMM_FREELIST_MASK. apply flag_bit_clear.
    pose proof (wf_nb0 _ _ _ _ _ W) as H0.
    destruct r as [|b r'].
    - pose proof (wf_plast _ _ _ _ _ W) as Hl. rewrite Epl in Hl. simpl in Hl. lia.
    - pose proof (wf_phys _ _ _ _ _ W) as Hch. rewrite Epl in Hch.
      destruct Hch as [(L1 & L2 & _) _]. lia. }
  split.
  { intros c Hc. destruct (Hmid c Hc) as (Hin & H0 & _).
    pose proof (wf_fl_sub _ _ _ _ _ W c Hin) as Hp. rewrite Epl in Hp.
    destruct Hp as [?|Hp]; [congruence|exact Hp]. }
  intros c Hc. destruct (Hr c Hc) as [Hp H0].
  destruct (Z.eq_dec c t) as [->|Hct].
  - rewrite (wf_nbt _ _ _ _ _ W). split; [intros H; exfalso; apply H; reflexivity|].
    intros Hin. destruct (Hmid t Hin) as (_ & _ & Hne). congruence.
  - rewrite (wf_flag_bit _ _ _ _ _ _ W Hp H0 Hct). rewrite Efl.
    split.
    + intros [?|Hin]; [congruence|]. apply in_app_iff in Hin.
      destruct Hin as [Hin|[?|[]]]; [exact Hin|congruence].
    + intros Hin. right. apply in_or_app. left. exact Hin.
Qed.

Lemma C3_free_list_flags_witness :
  exists h,
    umm_malloc (zero_heap 8) 1 = Some (h, Some 12) /\
    (h = zero_heap 8 \/
     exists mid t,
       free_list h = mid ++ [t] /\
       In t (block_list h) /\ last (block_list h) 0 = t /\
       UMM_NBLOCK h t = 0 /\
       Z.land (UMM_NBLOCK h 0) UMM_FREELIST_MASK = 0 /\
       (forall c, In c mid -> In c (block_list h)) /\
       (forall c, In c (block_list h) ->
          (Z.land (UMM_NBLOCK h c) UMM_FREELIST_MASK <> 0 <-> In c mid))).
Proof.
  eexists. split; [vm_compute; reflexivity|].
  assert (HN : Z.of_nat 8 <= 32767) by (simpl; lia).
  assert (Hb : (1 : Z) <> 0 -> umm_blocks 1 <> 0) by (intros _; discriminate).
  exact (C3_free_list_flags 8 _ [12] HN
           (reach_malloc 8 (zero_heap 8) [] 1 _ (Some 12) (reach_init 8) Hb eq_refl)).
Defined.

(** C3 (as stated) fails: after the first allocation on a zeroed heap of 8
    blocks the NFREE link of block 0 leads to block 2, the last block, and
    the NBLOCK field of block 2 is 0: a block on the free list without the
    free flag. *)
Lemma C3_counterexample :
  exists h,
    umm_malloc (zero_heap 8) 1 = Some (h, Some 12) /\
    UMM_NFREE h 0 = 2 /\ free_list h = [2] /\ block_list h = [1; 2] /\
    Z.land (UMM_NBLOCK h 2) UMM_FREELIST_MASK = 0.
Proof.
  eexists. split; [vm_compute; reflexivity|]. vm_compute. auto.
Qed.

(** * Further properties of the allocator *)

(** ** umm_free *)

(** X1: umm_free on the pointer of a block in use leaves a well-formed heap
    with the same last block.  The block is no longer in use, every other
    used block stays in use with the same extent, no block becomes used,
    and a flagged free block that starts at or below the released block now
    reaches at least to the old end of that block. *)
Theorem free_keeps_heap N h pl fl t c :
  Wf N h pl fl t -> used pl fl c ->
  exists pl' fl',
    Wf N (umm_free h (Some (data_addr c))) pl' fl' t /\
    ~ used pl' fl' c /\
    (forall u, used pl fl u -> u <> c ->
       used pl' fl' u /\
       UMM_NBLOCK (umm_free h (Some (data_addr c))) u = UMM_NBLOCK h u) /\
    (forall u, used pl' fl' u -> used pl fl u /\ u <> c) /\
    (exists x nx,
       In x fl' /\ x <= c /\
       UMM_NBLOCK (umm_free h (Some (data_addr c))) x = nx + 32768 /\
       UMM_NBLOCK h c <= nx).
Proof.
  intros W U. rewrite (umm_free_block _ _ _ _ _ _ W U).
  destruct (free_block_wf N h pl fl t c W U)
    as (pl' & fl' & W' & Hn & Hk & Hb & _ & (x & nx & X1 & _ & _ & X4 & X5 & X6)).
  exists pl', fl'. split; [exact W'|]. split; [exact Hn|]. split; [exact Hk|].
  split.
  - intros u Hu. split; [apply Hb, Hu|]. intros ->. contradiction.
  - exists x, nx. auto.
Qed.

Lemma free_keeps_heap_witness :
  exists pl' fl',
    Wf 8 (umm_free sample_heap (Some (data_addr 3))) pl' fl' 4 /\
    ~ used pl' fl' 3.
Proof.
  assert (U : used [0; 1; 2; 3; 4] [0; 2; 4] 3) by apply sample_heap_used.
  destruct (free_keeps_heap 8 sample_heap _ _ 4 3 sample_heap_wf U)
    as (pl' & fl' & W' & Hn & _).
  exists pl', fl'. split; [exact W'|exact Hn].
Defined.

(** X2: the room of a released block can be handed out again: after
    umm_free of a used block spanning s blocks, umm_malloc of any non-zero
    size whose block count is between 1 and s returns a non-null pointer. *)
Theorem free_then_malloc N h pl fl t c size :
  Wf N h pl fl t -> used pl fl c -> size <> 0 ->
  1 <= umm_blocks size <= UMM_NBLOCK h c - c ->
  exists h' p,
    umm_malloc (umm_free h (Some (data_addr c))) size = Some (h', Some p).
Proof.
  intros W U Hsize Hb. rewrite (umm_free_block _ _ _ _ _ _ W U).
  destruct (free_block_wf N h pl fl t c W U)
    as (pl' & fl' & W' & _ & _ & _ & _ & (x & nx & X1 & X2 & X3 & X4 & X5 & X6)).
  destruct (wf_fl_mid _ _ _ _ _ W') as [mid Efl]. rewrite Efl in W', X1.
  assert (Hx : In x mid).
  { destruct X1 as [?|X1]; [congruence|]. apply in_app_iff in X1.
    destruct X1 as [X1|[?|[]]]; [exact X1|congruence]. }
  destruct (wf_mid_span _ _ _ _ _ _ W' Hx) as (n & Hn & Rn & Hsp).
  assert (Hfit : umm_blocks size <= span (free_block h c) x) by lia.
  destruct (malloc_cases _ _ _ _ _ size W' Hsize ltac:(lia))
    as [(Hnone & _)|[(Hnone & _)|(c' & h' & _ & _ & _ & Hm & _)]].
  - specialize (Hnone x Hx). lia.
  - specialize (Hnone x Hx). lia.
  - eauto.
Qed.

Lemma free_then_malloc_witness :
  exists h' p,
    umm_malloc (umm_free sample_heap (Some (data_addr 3))) 4 = Some (h', Some p).
Proof.
  assert (U : used [0; 1; 2; 3; 4] [0; 2; 4] 3) by apply sample_heap_used.
  assert (Hs : (4 : Z) <> 0) by discriminate.
  assert (Hb : 1 <= umm_blocks 4 <= UMM_NBLOCK sample_heap 3 - 3)
    by (vm_compute; split; discriminate).
  exact (free_then_malloc 8 sample_heap _ _ 4 3 4 sample_heap_wf U Hs Hb).
Defined.

(** ** umm_blocks *)

Lemma umm_blocks_nowrap size :
  0 < size <= SIZE_MAX ->
  2 + (size - 1 - BODY_BYTES) / BLOCK_BYTES < 65536 ->
  1 <= umm_blocks size /\
  (BODY_BYTES < size -> umm_blocks size = 2 + (size - 1 - BODY_BYTES) / BLOCK_BYTES).
Proof.
  intros Hs Hfit.
  destruct (Z_le_gt_dec size BODY_BYTES) as [Hsmall|Hbig].
  - unfold umm_blocks. destruct (Z.leb_spec size BODY_BYTES); [|lia].
    split; [lia|]. intros ?. lia.
  - assert (0 <= (size - 1 - BODY_BYTES) / BLOCK_BYTES)
      by (apply Z.div_pos; unfold BODY_BYTES, BLOCK_BYTES in *; lia).
    assert (E : umm_blocks size = 2 + (size - 1 - BODY_BYTES) / BLOCK_BYTES).
    { rewrite umm_blocks_large by lia. apply Z.mod_small. lia. }
    split; [lia|]. intros _. exact E.
Qed.

(** X3: when the block count of a request fits 16 bits, the payload of the
    blocks umm_blocks asks for holds the request, and one block less would
    not: size <= 8 * blocks - 4, and for a request above 4 bytes
    8 * (blocks - 1) - 4 < size.  A larger request never takes fewer
    blocks. *)
Theorem umm_blocks_capacity size size2 :
  0 < size <= SIZE_MAX ->
  2 + (size - 1 - BODY_BYTES) / BLOCK_BYTES < 65536 ->
  size <= BLOCK_BYTES * umm_blocks size - HEADER_BYTES /\
  (BODY_BYTES < size ->
     BLOCK_BYTES * (umm_blocks size - 1) - HEADER_BYTES < size) /\
  (0 < size2 <= size -> umm_blocks size2 <= umm_blocks size).
Proof.
  intros Hs Hfit.
  destruct (umm_blocks_nowrap size Hs Hfit) as [H1 Hbig].
  assert (Hcap : forall s, BODY_BYTES < s ->
            s <= BLOCK_BYTES * (2 + (s - 1 - BODY_BYTES) / BLOCK_BYTES) - HEADER_BYTES /\
            BLOCK_BYTES * (2 + (s - 1 - BODY_BYTES) / BLOCK_BYTES - 1) - HEADER_BYTES < s).
  { intros s Hb. unfold BODY_BYTES, BLOCK_BYTES, HEADER_BYTES in *.
    pose proof (Z.div_mod (s - 1 - 4) 8 ltac:(lia)).
    pose proof (Z.mod_pos_bound (s - 1 - 4) 8 ltac:(lia)). lia. }
  split; [|split].
  - destruct (Z_le_gt_dec size BODY_BYTES) as [Hsmall|Hb].
    + unfold BODY_BYTES, BLOCK_BYTES, HEADER_BYTES in *. lia.
    + rewrite (Hbig ltac:(lia)). apply Hcap. lia.
  - intros Hb. rewrite (Hbig Hb). apply Hcap, Hb.
  - intros H2.
    destruct (Z_le_gt_dec size2 BODY_BYTES) as [Hsmall|Hb2].
    + unfold umm_blocks at 1. destruct (Z.leb_spec size2 BODY_BYTES); [lia|lia].
    + assert (Hle : (size2 - 1 - BODY_BYTES) / BLOCK_BYTES <=
                    (size - 1 - BODY_BYTES) / BLOCK_BYTES)
        by (apply Z.div_le_mono; unfold BODY_BYTES, BLOCK_BYTES in *; lia).
      destruct (umm_blocks_nowrap size2 ltac:(lia) ltac:(lia)) as [_ E2].
      rewrite (E2 ltac:(lia)), (Hbig ltac:(lia)). lia.
Qed.

Lemma umm_blocks_capacity_witness :
  100 <= BLOCK_BYTES * umm_blocks 100 - HEADER_BYTES /\
  BLOCK_BYTES * (umm_blocks 100 - 1) - HEADER_BYTES < 100.
Proof.
  assert (Hs : 0 < 100 <= SIZE_MAX) by (unfold SIZE_MAX; lia).
  assert (Hf : 2 + (100 - 1 - BODY_BYTES) / BLOCK_BYTES < 65536) by reflexivity.
  destruct (umm_blocks_capacity 100 100 Hs Hf) as (H1 & H2 & _).
  split; [exact H1|]. apply H2. reflexivity.
Defined.

(** ** umm_malloc *)

(** X4: on a well-formed heap umm_malloc returns for every request whose
    block count fits 16 bits.  A null result leaves the heap as it was.  A
    non-null result is the body address of a block cf that was not in use
    before and is in use now, in a well-formed heap that keeps every used
    block with its extent; the [size] bytes from the returned address on
    lie inside block cf, and the block lies inside the heap. *)
Theorem malloc_keeps_heap N h pl fl t size :
  Wf N h pl fl t ->
  0 < size <= SIZE_MAX ->
  2 + (size - 1 - BODY_BYTES) / BLOCK_BYTES < 65536 ->
  exists h' r,
    umm_malloc h size = Some (h', r) /\
    ((r = None /\ h' = h) \/
     (exists cf pl' fl' t',
        r = Some (data_addr cf) /\
        Wf N h' pl' fl' t' /\
        used pl' fl' cf /\ ~ used pl fl cf /\
        (forall u, used pl fl u ->
           used pl' fl' u /\ UMM_NBLOCK h' u = UMM_NBLOCK h u) /\
        (forall u, used pl' fl' u -> u = cf \/ used pl fl u) /\
        data_addr cf + size <= BLOCK_BYTES * UMM_NBLOCK h' cf /\
        UMM_NBLOCK h' cf < N)).
Proof.
  intros W Hs Hfit.
  destruct (umm_blocks_nowrap size Hs Hfit) as [Hb _].
  destruct (umm_blocks_capacity size size Hs Hfit) as (Hcap & _).
  destruct (malloc_wf _ _ _ _ _ size W ltac:(lia) Hb) as (h' & r & Hm & Hcase).
  exists h', r. split; [exact Hm|].
  destruct Hcase as [Hnull|(cf & -> & pl' & fl' & t' & W' & U' & Hnew & Hnb & Hk & Hb' & _)];
    [left; exact Hnull|right].
  exists cf, pl', fl', t'.
  destruct (used_ctx _ _ _ _ _ _ W' U') as (A & p & n & B & _ & Hn & _ & _ & Rn & _).
  pose proof (wf_t _ _ _ _ _ W').
  split; [reflexivity|]. split; [exact W'|]. split; [exact U'|].
  split; [exact Hnew|]. split; [exact Hk|]. split; [exact Hb'|].
  split; [|lia].
  rewrite Hnb. unfold data_addr, BLOCK_BYTES, HEADER_BYTES in *. lia.
Qed.

Lemma malloc_keeps_heap_witness :
  exists h' r, umm_malloc sample_heap 4 = Some (h', r) /\ r = Some (data_addr 2).
Proof.
  assert (Hs : 0 < 4 <= SIZE_MAX) by (unfold SIZE_MAX; lia).
  assert (Hf : 2 + (4 - 1 - BODY_BYTES) / BLOCK_BYTES < 65536) by reflexivity.
  destruct (malloc_keeps_heap 8 sample_heap _ _ 4 4 sample_heap_wf Hs Hf)
    as (h' & r & Hm & _).
  exists h', r. split; [exact Hm|].
  vm_compute in Hm. injection Hm as _ <-. reflexivity.
Defined.

(** X5: on a well-formed heap whose free list holds the flagged blocks
    [mid] before the last block [t], umm_malloc of a non-zero size with
    block count b >= 1 returns null exactly when no block of [mid] spans b
    blocks or more and the room behind the last block is too small
    (N <= t + b + 1). *)
Theorem malloc_null_iff N h pl mid t size :
  Wf N h pl (0 :: mid ++ [t]) t -> size <> 0 -> 1 <= umm_blocks size ->
  exists h' r,
    umm_malloc h size = Some (h', r) /\
    (r = None <->
     (forall x, In x mid -> span h x < umm_blocks size) /\
     N <= t + umm_blocks size + 1).
Proof.
  intros W Hsize Hb.
  destruct (malloc_cases _ _ _ _ _ size W Hsize Hb)
    as [(Hnone & Hfull & Hm)|[(Hnone & Hroom & h' & Hm & _)
                             |(c & h' & Hc & Hfit & _ & Hm & _)]].
  - exists h, None. split; [exact Hm|]. tauto.
  - exists h', (Some (data_addr t)). split; [exact Hm|].
    split; [discriminate|]. intros [_ ?]. lia.
  - eexists _, _. split; [exact Hm|].
    split; [discriminate|]. intros [Hnone _]. specialize (Hnone c Hc). lia.
Qed.

Lemma malloc_null_iff_witness :
  exists h' r,
    umm_malloc sample_heap 100 = Some (h', r) /\
    (r = None <->
     (forall x, In x [2] -> span sample_heap x < umm_blocks 100) /\
     8 <= 4 + umm_blocks 100 + 1).
Proof.
  assert (Hs : (100 : Z) <> 0) by discriminate.
  assert (Hb : 1 <= umm_blocks 100) by (vm_compute; discriminate).
  exact (malloc_null_iff 8 sample_heap [0; 1; 2; 3; 4] [2] 4 100 sample_heap_wf Hs Hb).
Defined.

(** X6: when some free block is large enough, umm_malloc cuts the request
    from the upper end of a smallest such block c: the returned block
    starts at c + span c - b and ends where the free block ended, so an
    exact fit returns c itself. *)
Theorem malloc_high_end N h pl mid t size :
  Wf N h pl (0 :: mid ++ [t]) t -> size <> 0 -> 1 <= umm_blocks size ->
  (exists x, In x mid /\ umm_blocks size <= span h x) ->
  exists c h',
    In c mid /\ umm_blocks size <= span h c /\
    (forall x, In x mid -> umm_blocks size <= span h x -> span h c <= span h x) /\
    umm_malloc h size =
      Some (h', Some (data_addr (c + span h c - umm_blocks size))) /\
    UMM_NBLOCK h' (c + span h c - umm_blocks size) = c + span h c /\
    (span h c = umm_blocks size ->
       h' = umm_disconnect_from_free_list h c).
Proof.
  intros W Hsize Hb (x & Hx & Hxfit).
  destruct (malloc_cases _ _ _ _ _ size W Hsize Hb)
    as [(Hnone & _)|[(Hnone & _)|(c & h' & Hc & Hfit & Hbest & Hm & Hok & Hex)]].
  - specialize (Hnone x Hx). lia.
  - specialize (Hnone x Hx). lia.
  - exists c, h'. split; [exact Hc|]. split; [exact Hfit|]. split; [exact Hbest|].
    split; [exact Hm|].
    destruct Hok as (pl' & fl' & t' & _ & _ & _ & Hnb & _).
    split; [rewrite Hnb; lia|exact Hex].
Qed.

Lemma malloc_high_end_witness :
  exists c h',
    In c [2] /\
    umm_malloc sample_heap 4 =
      Some (h', Some (data_addr (c + span sample_heap c - umm_blocks 4))).
Proof.
  assert (Hs : (4 : Z) <> 0) by discriminate.
  assert (Hb : 1 <= umm_blocks 4) by (vm_compute; discriminate).
  assert (Hx : exists x, In x [2] /\ umm_blocks 4 <= span sample_heap x).
  { exists 2. split; [simpl; auto|vm_compute; discriminate]. }
  destruct (malloc_high_end 8 sample_heap [0; 1; 2; 3; 4] [2] 4 4 sample_heap_wf Hs Hb Hx)
    as (c & h' & Hc & _ & _ & Hm & _).
  exists c, h'. split; [exact Hc|exact Hm].
Defined.

(** X7: the first allocation on the zeroed heap of n blocks sets the heap
    up.  When the request of b blocks leaves room (b + 1 < n) it returns
    the body address of block 1, in a well-formed heap whose only used
    block is block 1 with b blocks; otherwise it returns null and the heap
    stays zeroed. *)
Theorem first_malloc n size :
  Z.of_nat n <= 32767 -> size <> 0 -> 1 <= umm_blocks size ->
  (umm_blocks size + 1 < Z.of_nat n ->
     exists h' pl fl t,
       umm_malloc (zero_heap n) size = Some (h', Some (data_addr 1)) /\
       Wf (Z.of_nat n) h' pl fl t /\ used pl fl 1 /\
       UMM_NBLOCK h' 1 = 1 + umm_blocks size /\
       (forall u, used pl fl u -> u = 1)) /\
  (Z.of_nat n <= umm_blocks size + 1 ->
     umm_malloc (zero_heap n) size = Some (zero_heap n, None)).
Proof.
  intros HN Hsize Hb.
  destruct (malloc_zero n size HN Hsize Hb) as (h' & r & Hm & Hcase).
  pose proof (malloc_zero_cases n size h' r HN Hm) as Hc2.
  split.
  - intros Hroom.
    destruct (malloc_zero_ptr n size HN Hsize Hroom) as (h2 & Hm2 & _).
    rewrite Hm in Hm2. injection Hm2 as <- ->.
    destruct Hcase as [[E _]|[_ (pl & fl & t & W & U & _ & Hnb & _ & Honly & _)]];
      [discriminate|].
    exists h', pl, fl, t. split; [exact Hm|]. split; [exact W|]. split; [exact U|].
    split; [exact Hnb|].
    intros u Hu. destruct (Honly u Hu) as [?|[[] _]]. assumption.
  - intros Hfull.
    destruct Hc2 as [[-> ->]|(_ & _ & Hroom & _)]; [exact Hm|lia].
Qed.

Lemma first_malloc_witness :
  exists h' pl fl t,
    umm_malloc (zero_heap 8) 20 = Some (h', Some (data_addr 1)) /\
    Wf 8 h' pl fl t /\ UMM_NBLOCK h' 1 = 4.
Proof.
  assert (HN : Z.of_nat 8 <= 32767) by (simpl; lia).
  assert (Hs : (20 : Z) <> 0) by discriminate.
  assert (Hb : 1 <= umm_blocks 20) by (vm_compute; discriminate).
  assert (Hr : umm_blocks 20 + 1 < Z.of_nat 8) by reflexivity.
  destruct (proj1 (first_malloc 8 20 HN Hs Hb) Hr)
    as (h' & pl & fl & t & Hm & W & _ & Hnb & _).
  exists h', pl, fl, t. split; [exact Hm|]. split; [exact W|exact Hnb].
Defined.

(** X8: an allocation followed by the release of the returned pointer
    leaves a well-formed heap in which exactly the blocks that were in use
    before are in use, each with its old extent. *)
Theorem malloc_free_used N h pl fl t size h1 p :
  Wf N h pl fl t -> size <> 0 -> 1 <= umm_blocks size ->
  umm_malloc h size = Some (h1, Some p) ->
  exists pl' fl' t',
    Wf N (umm_free h1 (Some p)) pl' fl' t' /\
    (forall u, used pl' fl' u <-> used pl fl u) /\
    (forall u, used pl fl u ->
       UMM_NBLOCK (umm_free h1 (Some p)) u = UMM_NBLOCK h u).
Proof.
  intros W Hsize Hb Hm.
  destruct (malloc_wf _ _ _ _ _ size W Hsize Hb) as (h2 & r & Hm2 & Hcase).
  rewrite Hm in Hm2. injection Hm2 as <- <-.
  destruct Hcase as [[E _]|(cf & E & pl1 & fl1 & t1 & W1 & U1 & Hnew & _ & Hk & Hb1 & _)];
    [discriminate|].
  injection E as ->.
  rewrite (umm_free_block _ _ _ _ _ _ W1 U1).
  destruct (free_block_wf N h1 pl1 fl1 t1 cf W1 U1)
    as (pl' & fl' & W' & Hn & Hk' & Hb' & _).
  assert (Hne : forall u, used pl fl u -> u <> cf) by (intros u Hu ->; contradiction).
  exists pl', fl', t1. split; [exact W'|]. split.
  - intros u. split.
    + intros Hu. destruct (Hb1 u (Hb' u Hu)) as [->|?]; [contradiction|assumption].
    + intros Hu. apply Hk'; [apply Hk, Hu|apply Hne, Hu].
  - intros u Hu. destruct (Hk' u (proj1 (Hk u Hu)) (Hne u Hu)) as [_ ->].
    apply Hk, Hu.
Qed.

Lemma malloc_free_used_witness :
  exists h1 pl' fl' t',
    umm_malloc sample_heap 4 = Some (h1, Some (data_addr 2)) /\
    Wf 8 (umm_free h1 (Some (data_addr 2))) pl' fl' t' /\
    (forall u, used pl' fl' u <-> used [0; 1; 2; 3; 4] [0; 2; 4] u).
Proof.
  assert (Hs : (4 : Z) <> 0) by discriminate.
  assert (Hb : 1 <= umm_blocks 4) by (vm_compute; discriminate).
  eexists. 
  assert (Hm : umm_malloc sample_heap 4 =
               Some (umm_disconnect_from_free_list sample_heap 2, Some (data_addr 2)))
    by (vm_compute; reflexivity).
  destruct (malloc_free_used 8 sample_heap _ _ 4 4 _ _ sample_heap_wf Hs Hb Hm)
    as (pl' & fl' & t' & W' & Hu & _).
  exists pl', fl', t'. split; [exact Hm|]. split; [exact W'|exact Hu].
Defined.

(** ** umm_realloc *)

(** X9: umm_realloc of a used block to a non-zero size with block count
    b >= 1 returns, and leaves a well-formed heap in which every other used
    block is still in use with its extent and payload.  On a null result
    the block itself is still in use with its payload and no block changed
    hands.  On a non-null result the pointer is the body address of a used
    block of exactly b blocks, either the old block or one that was not in
    use (the old one is then released), and the payload words the old and
    the new block both have room for carry the old contents. *)
Theorem realloc_keeps_heap N h pl fl t c size :
  Wf N h pl fl t -> used pl fl c -> size <> 0 -> 1 <= umm_blocks size ->
  exists h' r pl' fl' t',
    umm_realloc h (Some (data_addr c)) size = Some (h', r) /\
    Wf N h' pl' fl' t' /\
    (forall u, used pl fl u -> u <> c ->
       used pl' fl' u /\ UMM_NBLOCK h' u = UMM_NBLOCK h u /\
       forall w, payload h u w -> rd h' w = rd h w) /\
    match r with
    | None =>
        (forall u, used pl' fl' u <-> used pl fl u) /\
        (forall w, payload h c w -> rd h' w = rd h w)
    | Some q =>
        exists c',
          q = data_addr c' /\ used pl' fl' c' /\
          UMM_NBLOCK h' c' = c' + umm_blocks size /\
          (c' = c \/ (~ used pl fl c' /\ ~ used pl' fl' c)) /\
          (forall u, used pl' fl' u -> u = c' \/ used pl fl u) /\
          (forall k, 0 <= k < 4 * (UMM_NBLOCK h c - c) - 2 ->
                     k < 4 * umm_blocks size - 2 ->
                     rd h' (4 * c' + 2 + k) = rd h (4 * c + 2 + k))
    end.
Proof.
  intros W U Hsize Hb.
  destruct (realloc_wf N h pl fl t c size W U Hsize Hb)
    as (h' & r & pl' & fl' & t' & Hm & W' & Hk & Hfr & Hcase).
  exists h', r, pl', fl', t'. split; [exact Hm|]. split; [exact W'|].
  split.
  { intros u Hu Hne. destruct (Hk u Hu Hne) as [V1 V2].
    split; [exact V1|]. split; [exact V2|]. intros w Hw. apply (Hfr u w Hu Hne Hw). }
  destruct Hcase as [(-> & Uc & Hback & Hdata & _)
                    |(c' & -> & Uc' & Hnew & Hold & Hback & Hnb & Hdata & _)].
  - split; [|exact Hdata]. intros u. split; [apply Hback|].
    intros Hu. destruct (Z.eq_dec u c) as [->|Hne]; [exact Uc|apply Hk; assumption].
  - exists c'. split; [reflexivity|]. split; [exact Uc'|]. split; [exact Hnb|].
    split; [|split; [exact Hback|exact Hdata]].
    destruct (Z.eq_dec c' c) as [?|Hne]; [left; assumption|right].
    split; [destruct Hnew; [contradiction|assumption]|apply Hold, Hne].
Qed.

Lemma realloc_keeps_heap_witness :
  exists h' r pl' fl' t',
    umm_realloc sample_heap (Some (data_addr 1)) 12 = Some (h', r) /\
    Wf 8 h' pl' fl' t' /\ r = Some (data_addr 1).
Proof.
  assert (U : used [0; 1; 2; 3; 4] [0; 2; 4] 1) by apply sample_heap_used.
  assert (Hs : (12 : Z) <> 0) by discriminate.
  assert (Hb : 1 <= umm_blocks 12) by (vm_compute; discriminate).
  destruct (realloc_keeps_heap 8 sample_heap _ _ 4 1 12 sample_heap_wf U Hs Hb)
    as (h' & r & pl' & fl' & t' & Hm & W' & _).
  exists h', r, pl', fl', t'. split; [exact Hm|]. split; [exact W'|].
  vm_compute in Hm. injection Hm as _ <-. reflexivity.
Defined.

(** X10: umm_realloc to a size that needs exactly the blocks the used block
    already has returns the same pointer and leaves every word of the heap
    as it was. *)
Theorem realloc_same_blocks N h pl fl t c size :
  Wf N h pl fl t -> used pl fl c -> size <> 0 ->
  umm_blocks size = UMM_NBLOCK h c - c ->
  umm_realloc h (Some (data_addr c)) size = Some (h, Some (data_addr c)).
Proof.
  intros W U Hsize Hb.
  destruct (used_ctx _ _ _ _ _ _ W U) as (A & p & n & B & _ & Hn & _ & Rp & Rn & _).
  pose proof (wf_t _ _ _ _ _ W). pose proof (wf_N _ _ _ _ _ W).
  unfold umm_realloc. destruct (Z.eqb_spec size 0) as [?|_]; [contradiction|].
  rewrite block_of_data_addr by lia. rewrite Hb, Hn.
  rewrite (u16_small (n - c)) by lia. rewrite Z.eqb_refl. reflexivity.
Qed.

Lemma realloc_same_blocks_witness :
  umm_realloc sample_heap (Some (data_addr 1)) 4 = Some (sample_heap, Some (data_addr 1)).
Proof.
  assert (U : used [0; 1; 2; 3; 4] [0; 2; 4] 1) by apply sample_heap_used.
  assert (Hs : (4 : Z) <> 0) by discriminate.
  assert (Hb : umm_blocks 4 = UMM_NBLOCK sample_heap 1 - 1) by reflexivity.
  exact (realloc_same_blocks 8 sample_heap _ _ 4 1 4 sample_heap_wf U Hs Hb).
Defined.

(** X11: when the block below is in use (or is block 0) and the request
    fits the block once it has absorbed a free block above it, umm_realloc
    returns the same pointer: the block now has exactly the requested
    blocks, the heap is well formed, and the payload words the old and the
    new extent share are unchanged. *)
Theorem realloc_in_place N h pl fl t c size :
  Wf N h pl fl t -> used pl fl c -> size <> 0 -> 1 <= umm_blocks size ->
  UMM_NBLOCK (umm_assimilate_up h c) (UMM_PBLOCK h c) < 32768 ->
  umm_blocks size <= UMM_NBLOCK (umm_assimilate_up h c) c - c ->
  exists h' pl' fl' t',
    umm_realloc h (Some (data_addr c)) size = Some (h', Some (data_addr c)) /\
    Wf N h' pl' fl' t' /\ used pl' fl' c /\
    UMM_NBLOCK h' c = c + umm_blocks size /\
    (forall k, 0 <= k < 4 * (UMM_NBLOCK h c - c) - 2 ->
               k < 4 * umm_blocks size - 2 ->
               rd h' (4 * c + 2 + k) = rd h (4 * c + 2 + k)).
Proof.
  intros W U Hsize Hb Hprev Hfit.
  destruct (realloc_wf N h pl fl t c size W U Hsize Hb)
    as (h' & r & pl' & fl' & t' & Hm & W' & _ & _ & Hcase).
  destruct Hcase as [(_ & _ & _ & _ & _ & Hsmall & _)
                    |(c' & -> & Uc' & _ & _ & _ & Hnb & Hdata & _ & Hstay)].
  - lia.
  - rewrite (Hstay Hprev Hfit) in *.
    exists h', pl', fl', t'. auto.
Qed.

Lemma realloc_in_place_witness :
  exists h' pl' fl' t',
    umm_realloc sample_heap (Some (data_addr 1)) 12 = Some (h', Some (data_addr 1)) /\
    Wf 8 h' pl' fl' t' /\ UMM_NBLOCK h' 1 = 1 + umm_blocks 12.
Proof.
  assert (U : used [0; 1; 2; 3; 4] [0; 2; 4] 1) by apply sample_heap_used.
  assert (Hs : (12 : Z) <> 0) by discriminate.
  assert (Hb : 1 <= umm_blocks 12) by (vm_compute; discriminate).
  assert (Hp : UMM_NBLOCK (umm_assimilate_up sample_heap 1) (UMM_PBLOCK sample_heap 1)
               < 32768) by reflexivity.
  assert (Hf : umm_blocks 12 <= UMM_NBLOCK (umm_assimilate_up sample_heap 1) 1 - 1)
    by (vm_compute; discriminate).
  destruct (realloc_in_place 8 sample_heap _ _ 4 1 12 sample_heap_wf U Hs Hb Hp Hf)
    as (h' & pl' & fl' & t' & Hm & W' & _ & Hnb & _).
  exists h', pl', fl', t'. auto.
Defined.

(** X12: when the block count changes, the block below is free and the two
    together (with a free block above, if any) hold the request,
    umm_realloc moves the data down: it returns the body address of the
    block below, which becomes a used block of exactly the requested
    blocks carrying the old payload, and the old block is no longer a
    block in use. *)
Theorem realloc_moves_down N h pl fl t c size :
  Wf N h pl fl t -> used pl fl c -> size <> 0 -> 1 <= umm_blocks size ->
  UMM_NBLOCK h c - c <> umm_blocks size ->
  32768 <= UMM_NBLOCK (umm_assimilate_up h c) (UMM_PBLOCK h c) ->
  umm_blocks size <= UMM_NBLOCK (umm_assimilate_up h c) c - UMM_PBLOCK h c ->
  exists h' pl' fl' t',
    umm_realloc h (Some (data_addr c)) size =
      Some (h', Some (data_addr (UMM_PBLOCK h c))) /\
    Wf N h' pl' fl' t' /\
    used pl' fl' (UMM_PBLOCK h c) /\ ~ used pl' fl' c /\
    UMM_NBLOCK h' (UMM_PBLOCK h c) = UMM_PBLOCK h c + umm_blocks size /\
    (forall k, 0 <= k < 4 * (UMM_NBLOCK h c - c) - 2 ->
               k < 4 * umm_blocks size - 2 ->
               rd h' (4 * UMM_PBLOCK h c + 2 + k) = rd h (4 * c + 2 + k)).
Proof.
  intros W U Hsize Hb Hne Hprev Hfit.
  destruct (used_ctx _ _ _ _ _ _ W U) as (A & p & n & B & _ & _ & Hp & Rp & _).
  destruct (realloc_wf N h pl fl t c size W U Hsize Hb)
    as (h' & r & pl' & fl' & t' & Hm & W' & _ & _ & Hcase).
  destruct Hcase as [(_ & _ & _ & _ & _ & _ & [Hx|Hx])
                    |(c' & -> & Uc' & _ & Hold & _ & Hnb & Hdata & Hdown & _)].
  - lia.
  - lia.
  - pose proof (Hdown Hne Hprev Hfit) as E. rewrite E in *.
    exists h', pl', fl', t'. split; [exact Hm|]. split; [exact W'|].
    split; [exact Uc'|]. split; [apply Hold; lia|]. split; [exact Hnb|exact Hdata].
Qed.

Lemma realloc_moves_down_witness :
  exists h' pl' fl' t',
    umm_realloc sample_heap (Some (data_addr 3)) 12 = Some (h', Some (data_addr 2)) /\
    Wf 8 h' pl' fl' t' /\ ~ used pl' fl' 3.
Proof.
  assert (U : used [0; 1; 2; 3; 4] [0; 2; 4] 3) by apply sample_heap_used.
  assert (Hs : (12 : Z) <> 0) by discriminate.
  assert (Hb : 1 <= umm_blocks 12) by (vm_compute; discriminate).
  assert (Hn : UMM_NBLOCK sample_heap 3 - 3 <> umm_blocks 12) by discriminate.
  assert (Hp : 32768 <= UMM_NBLOCK (umm_assimilate_up sample_heap 3)
                                   (UMM_PBLOCK sample_heap 3))
    by (vm_compute; discriminate).
  assert (Hf : umm_blocks 12 <= UMM_NBLOCK (umm_assimilate_up sample_heap 3) 3 -
                                UMM_PBLOCK sample_heap 3)
    by (vm_compute; discriminate).
  destruct (realloc_moves_down 8 sample_heap _ _ 4 3 12 sample_heap_wf U Hs Hb Hn Hp Hf)
    as (h' & pl' & fl' & t' & Hm & W' & _ & Hnu & _).
  exists h', pl', fl', t'. split; [exact Hm|]. split; [exact W'|exact Hnu].
Defined.

(** ** States between public operations *)

(** X13: in every state reached from the zeroed heap without a wrapped
    block count, a live pointer is the body address of a block c >= 1 that
    ends inside the heap, and its payload words are disjoint from the
    payload words of every other live pointer. *)
Theorem live_blocks_disjoint n h live p :
  Z.of_nat n <= 32767 -> reachable n h live -> In p live ->
  exists c,
    p = data_addr c /\ block_of_ptr p = c /\
    1 <= c < UMM_NBLOCK h c /\ UMM_NBLOCK h c < Z.of_nat n /\
    forall q w, In q live -> q <> p ->
                payload h c w -> ~ payload h (block_of_ptr q) w.
Proof.
  intros HN R Hp.
  destruct (reachable_inv n h live HN R) as [[_ ->]|(pl & fl & t & W & HL)];
    [destruct Hp|].
  destruct (HL p Hp) as (c & -> & U). exists c.
  pose proof (wf_t _ _ _ _ _ W) as Ht. pose proof (wf_N _ _ _ _ _ W).
  destruct (used_ctx _ _ _ _ _ _ W U) as (A & pc & nc & B & E & Hn & _ & Rp & Rn & _).
  split; [reflexivity|]. split; [apply block_of_data_addr; lia|].
  split; [lia|]. split; [lia|].
  intros q w Hq Hne Hw Hw2.
  destruct (HL q Hq) as (c2 & -> & U2).
  pose proof (used_range _ _ _ _ _ _ W U2).
  rewrite block_of_data_addr in Hw2 by lia.
  destruct (payload_geom _ _ _ _ _ _ _ W U Hw) as (n1 & Hn1 & _ & _ & G1 & Hext1).
  destruct (payload_geom _ _ _ _ _ _ _ W U2 Hw2) as (n2 & Hn2 & _ & _ & G2 & Hext2).
  pose proof (Hext1 c2 (proj1 U2)). pose proof (Hext2 c (proj1 U)).
  assert (c2 <> c) by (intros ->; apply Hne; reflexivity).
  lia.
Qed.

Lemma live_blocks_disjoint_witness :
  exists h c,
    reachable 8 h [20; 12] /\
    20 = data_addr c /\ block_of_ptr 20 = c /\ 1 <= c < UMM_NBLOCK h c.
Proof.
  assert (HN : Z.of_nat 8 <= 32767) by (simpl; lia).
  assert (Hb : (1 : Z) <> 0 -> umm_blocks 1 <> 0) by (intros _; discriminate).
  pose (R1 := reach_malloc 8 (zero_heap 8) [] 1 _ (Some 12) (reach_init 8) Hb eq_refl).
  pose (R2 := reach_malloc 8 _ [12] 1 _ (Some 20) R1 Hb eq_refl).
  destruct (live_blocks_disjoint 8 _ [20; 12] 20 HN R2 (or_introl eq_refl))
    as (c & E1 & E2 & Rc & _).
  eexists _, c. split; [exact R2|]. split; [exact E1|]. split; [exact E2|exact Rc].
Defined.

(** X14: in every state reached from the zeroed heap without a wrapped
    block count, no block flagged free is directly followed by another
    block flagged free. *)
Theorem reachable_no_adjacent_free n h live c :
  Z.of_nat n <= 32767 -> reachable n h live ->
  In c (block_list h) ->
  Z.land (UMM_NBLOCK h c) UMM_FREELIST_MASK <> 0 ->
  Z.land (UMM_NBLOCK h (Z.land (UMM_NBLOCK h c) UMM_BLOCKNO_MASK)) UMM_FREELIST_MASK = 0.
Proof.
  intros HN R Hc Hflag.
  destruct (reachable_inv n h live HN R) as [[-> _]|(pl & fl & t & W & _)].
  { exfalso. apply Hflag. destruct (zero_heap_acc n c) as (-> & _). reflexivity. }
  pose proof (wf_t _ _ _ _ _ W) as Ht. pose proof (wf_N _ _ _ _ _ W).
  rewrite (wf_block_list _ _ _ _ _ W) in Hc. apply in_tl in Hc.
  destruct (Z.eq_dec c t) as [->|Hct].
  { exfalso. apply Hflag. rewrite (wf_nbt _ _ _ _ _ W). reflexivity. }
  destruct (Z.eq_dec c 0) as [->|Hc0].
  { exfalso. apply Hflag. unfold UMM_FREELIST_MASK. apply flag_bit_clear.
    pose proof (wf_nb0 _ _ _ _ _ W).
    destruct (wf_pl_cons _ _ _ _ _ W) as [r E].
    pose proof (wf_phys _ _ _ _ _ W) as Hch. rewrite E in Hch.
    destruct r as [|b r'].
    - pose proof (wf_plast _ _ _ _ _ W) as Hl. rewrite E in Hl. simpl in Hl. lia.
    - destruct Hch as [(L1 & L2 & _) _]. lia. }
  destruct (wf_phys_ctx _ _ _ _ _ W c Hc Hc0 Hct)
    as (A & p & nx & B & E & _ & (Q1 & Q2 & _ & Q4) & _ & Hnt).
  pose proof (wf_pl_range _ _ _ _ _ W c Hc).
  unfold UMM_FREELIST_MASK, UMM_BLOCKNO_MASK in *.
  destruct Q2 as [En|En].
  { exfalso. apply Hflag. rewrite En. apply flag_bit_clear. lia. }
  rewrite En. rewrite mask_flagged by lia.
  assert (Hnpl : In nx pl) by (rewrite E; in_list).
  destruct (Z.eq_dec nx t) as [->|Hnxt].
  { rewrite (wf_nbt _ _ _ _ _ W). reflexivity. }
  destruct (wf_phys_ctx _ _ _ _ _ W nx Hnpl ltac:(lia) Hnxt)
    as (A2 & p2 & n2 & B2 & _ & _ & (R1 & R2 & _) & _).
  apply flag_bit_clear. lia.
Qed.

Lemma reachable_no_adjacent_free_witness :
  exists h,
    reachable 8 h [28; 12] /\
    Z.land (UMM_NBLOCK h (Z.land (UMM_NBLOCK h 2) UMM_BLOCKNO_MASK))
           UMM_FREELIST_MASK = 0.
Proof.
  assert (HN : Z.of_nat 8 <= 32767) by (simpl; lia).
  assert (Hb : (1 : Z) <> 0 -> umm_blocks 1 <> 0) by (intros _; discriminate).
  pose (R1 := reach_malloc 8 (zero_heap 8) [] 1 _ (Some 12) (reach_init 8) Hb eq_refl).
  pose (R2 := reach_malloc 8 _ [12] 1 _ (Some 20) R1 Hb eq_refl).
  pose (R3 := reach_malloc 8 _ [20; 12] 1 _ (Some 28) R2 Hb eq_refl).
  pose (R4 := reach_free 8 _ [28; 20; 12] 20 R3 (or_intror (or_introl eq_refl))).
  eexists. split; [exact R4|].
  apply (reachable_no_adjacent_free 8 _ [28; 12] 2 HN R4).
  - vm_compute. auto.
  - vm_compute. discriminate.
Defined.

(** X15: in every state reached from the zeroed heap without a wrapped
    block count, the search loop of umm_malloc ends for every request, also
    one whose block count wraps to 0: umm_malloc returns. *)
Theorem malloc_returns n h live size :
  Z.of_nat n <= 32767 -> reachable n h live ->
  exists h' r, umm_malloc h size = Some (h', r).
Proof.
  intros HN R.
  destruct (Z.eq_dec size 0) as [->|Hsize].
  { exists h, None. reflexivity. }
  destruct (reachable_inv n h live HN R) as [[-> _]|(pl & fl & t & W & _)].
  - unfold umm_malloc. destruct (Z.eqb_spec size 0) as [?|_]; [contradiction|].
    rewrite scan_zero. destruct (scan_pick _) as [cf bs].
    destruct (malloc_place _ _ _ _) as [h' r]. eauto.
  - pose proof (umm_blocks_range size) as Rb.
    destruct (Z.eq_dec (umm_blocks size) 0) as [Hb0|Hb1].
    + destruct (malloc_wrap0 _ _ _ _ _ _ W Hsize Hb0) as (h' & r & Hm & _). eauto.
    + destruct (malloc_wf _ _ _ _ _ _ W Hsize ltac:(lia)) as (h' & r & Hm & _). eauto.
Qed.

Lemma malloc_returns_witness :
  exists h h' r,
    reachable 8 h [12] /\ umm_malloc h 524277 = Some (h', r).
Proof.
  assert (HN : Z.of_nat 8 <= 32767) by (simpl; lia).
  assert (Hb : (1 : Z) <> 0 -> umm_blocks 1 <> 0) by (intros _; discriminate).
  pose (R1 := reach_malloc 8 (zero_heap 8) [] 1 _ (Some 12) (reach_init 8) Hb eq_refl).
  destruct (malloc_returns 8 _ [12] 524277 HN R1) as (h' & r & Hm).
  eexists _, h', r. split; [exact R1|exact Hm].
Defined.
